(** * YAX.Math: a shallow embedding of the vector, quaternion and matrix code

    The C++ sources compute on [float] (IEEE 754 binary32).  The embedding
    is written once over an interface of scalar operations ([Scalar]) and is
    run on two instances:

    - [Binary32.scalar]: binary32 with round-to-nearest-even, built on the
      executable specification of the Standard Library ([SpecFloat] at
      precision 24 and maximal exponent 128).  This is the arithmetic the
      compiled code performs; every operation is rounded to binary32.
    - [Exact.scalar]: the rationals, that is the same formulas with no
      rounding and no overflow.

    Library functions of <cmath> whose results IEEE 754 does not pin down
    ([sinf], [cosf], [acosf], [logf], [expf]) are parameters of the code
    that calls them ([Libm]). *)

From Stdlib Require Import ZArith Bool String List QArith Qabs Lia Lqa Field.
From Stdlib Require Import SpecFloat.

Set Implicit Arguments.

(** ** The scalar interface *)

Class Scalar (F : Type) : Type := {
  ldexp : Z -> Z -> F;          (* the literal m * 2^e, rounded into F *)
  add : F -> F -> F;
  sub : F -> F -> F;
  mul : F -> F -> F;
  div : F -> F -> F;
  neg : F -> F;
  fabs : F -> F;                (* std::abs *)
  ltb : F -> F -> bool;         (* a < b *)
  leb : F -> F -> bool;         (* a <= b *)
  eqb : F -> F -> bool          (* a == b *)
}.

(** Functions of <cmath>. *)
Class Libm (F : Type) : Type := {
  sqrtf : F -> F;
  fmodf : F -> F -> F;
  sinf : F -> F;
  cosf : F -> F;
  acosf : F -> F;
  logf : F -> F;
  expf : F -> F
}.

Declare Scope flt_scope.
Delimit Scope flt_scope with flt.

Notation "x + y" := (add x y) : flt_scope.
Notation "x - y" := (sub x y) : flt_scope.
Notation "x * y" := (mul x y) : flt_scope.
Notation "x / y" := (div x y) : flt_scope.
Notation "- x" := (neg x) : flt_scope.
Notation "x <? y" := (ltb x y) : flt_scope.
Notation "x <=? y" := (leb x y) : flt_scope.
Notation "x >? y" := (ltb y x) (only parsing) : flt_scope.
Notation "x >=? y" := (leb y x) (only parsing) : flt_scope.
Notation "x =? y" := (eqb x y) : flt_scope.

(** An integer literal converted to the scalar type. *)
Definition ofZ {F} `{Scalar F} (n : Z) : F := ldexp n 0.

Notation "$ n" := (ofZ n%Z) (at level 1, n at level 0, format "$ n") : flt_scope.

(** A decimal literal [n/d] with the suffix f: the scalar nearest to the
    quotient (the division of two exactly represented integers is correctly
    rounded). *)
Definition lit {F} `{Scalar F} (n d : Z) : F := div (ofZ n) (ofZ d).

(** ** binary32 *)

Module Binary32.

Definition prec : Z := 24.
Definition emax : Z := 128.

Abbreviation float32 := spec_float.

(** [fmodf x y]: the exact remainder of the truncating division, with the
    sign of [x] (C11 7.12.10.1 and Annex F.10.7.1). *)
Definition fmod (x y : float32) : float32 :=
  match x, y with
  | S754_nan, _ | _, S754_nan => S754_nan
  | S754_infinity _, _ => S754_nan
  | _, S754_zero _ => S754_nan
  | S754_zero _, _ => x
  | S754_finite _ _ _, S754_infinity _ => x
  | S754_finite sx mx ex, S754_finite _ my ey =>
      let ez := Z.min ex ey in
      let ax := Zpos (fst (shl_align mx ex ez)) in
      let ay := Zpos (fst (shl_align my ey ez)) in
      binary_normalize prec emax (cond_Zopp sx (Z.rem ax ay)) ez sx
  end.

#[export] Instance scalar : Scalar float32 := {
  ldexp m e := binary_normalize prec emax m e false;
  add := SFadd prec emax;
  sub := SFsub prec emax;
  mul := SFmul prec emax;
  div := SFdiv prec emax;
  neg := SFopp;
  fabs := SFabs;
  ltb := SFltb;
  leb := SFleb;
  eqb := SFeqb
}.

(** The part of <cmath> that IEEE 754 fixes ([sqrtf] is correctly rounded,
    [fmodf] is exact); the transcendental functions stay parameters. *)
Definition libm (sin cos acos log exp : float32 -> float32) : Libm float32 := {|
  sqrtf := SFsqrt prec emax;
  fmodf := fmod;
  sinf := sin;
  cosf := cos;
  acosf := acos;
  logf := log;
  expf := exp
|}.

Definition is_nan (x : float32) : bool :=
  match x with S754_nan => true | _ => false end.

Definition is_finite (x : float32) : bool :=
  match x with S754_zero _ | S754_finite _ _ _ => true | _ => false end.

End Binary32.

(** ** Exact arithmetic *)

Module Exact.

#[export] Instance scalar : Scalar Q := {
  ldexp m e := (inject_Z m * 2 ^ e)%Q;
  add := Qplus;
  sub := Qminus;
  mul := Qmult;
  div := Qdiv;
  neg := Qopp;
  fabs := Qabs;
  ltb x y := negb (Qle_bool y x);
  leb := Qle_bool;
  eqb := Qeq_bool
}.

End Exact.

(** ** The structs of the headers

    Every struct is a plain record of scalars; [Matrix] is row-major. *)

Record Vector2 (F : Type) : Type := mkVector2 { v2X : F; v2Y : F }.

Record Vector3 (F : Type) : Type := mkVector3 { v3X : F; v3Y : F; v3Z : F }.

Record Vector4 (F : Type) : Type :=
  mkVector4 { v4X : F; v4Y : F; v4Z : F; v4W : F }.

Record Quaternion (F : Type) : Type :=
  mkQuaternion { qX : F; qY : F; qZ : F; qW : F }.

Record Matrix (F : Type) : Type := mkMatrix {
  M11 : F; M12 : F; M13 : F; M14 : F;
  M21 : F; M22 : F; M23 : F; M24 : F;
  M31 : F; M32 : F; M33 : F; M34 : F;
  M41 : F; M42 : F; M43 : F; M44 : F
}.

(** A call either returns or throws [std::out_of_range] with its message. *)
Inductive result (A : Type) : Type :=
| Returns (a : A)
| OutOfRange (what : string).

Arguments Returns {A} a.
Arguments OutOfRange {A} what.

Definition throws {A} (r : result A) : bool :=
  match r with Returns _ => false | OutOfRange _ => true end.

Local Open Scope flt_scope.

(** ** MathHelper.cpp *)

Module MathHelper.
Section WithScalar.
Context {F : Type} {SF : Scalar F}.

(** [M_PI] of <cmath>, the double 0x400921FB54442D18. *)
Definition M_PI_mantissa : Z := 7074237752028440.
Definition M_PI_exponent : Z := -51.

(** [static_cast<float>(M_PI)] *)
Definition Pi : F := ldexp M_PI_mantissa M_PI_exponent.

Definition TwoPi : F := $2 * Pi.

Definition Max (val1 val2 : F) : F :=
  if val1 >? val2 then val1 else val2.

Definition Min (val1 val2 : F) : F :=
  if val1 <? val2 then val1 else val2.

Definition Clamp (val min max : F) : F :=
  Max min (Min max val).

Definition Lerp (val1 val2 t : F) : F :=
  val1 + (val2 - val1) * t.

(** Modelled from the spec: [EqualWithinEpsilon] is declared in
    MathHelper.h but its definition, and that of the global [Epsilon], are
    not in the sources; the header documents the result as
    "true if |val1 - val2| < MathHelper::Epsilon, false otherwise".  The
    mutable global [Epsilon] is passed explicitly. *)
Definition EqualWithinEpsilon (Epsilon : F) (val1 val2 : F) : bool :=
  fabs (val1 - val2) <? Epsilon.

Definition Barycentric (vert1 vert2 vert3 weight2 weight3 : F) : F :=
  let weight2 := Clamp weight2 $0 $1 in
  let weight3 := Clamp weight3 $0 $1 in
  ($1 - weight2 - weight3) * vert1 + weight2 * vert2 + weight3 * vert3.

Definition CatmullRom (p1 p2 p3 p4 t : F) : F :=
  let threeHalves := lit 15 10 * t in
  let oneHalf := t / $2 in
  let c1 := (- lit 5 10 + t * ($1 - oneHalf)) * p1 in
  let c2 := ($1 + (t * t * (- lit 25 10 + threeHalves))) * p2 in
  let c3 := (lit 5 10 + t * ($2 - threeHalves)) * p3 in
  let c4 := (- lit 5 10 + oneHalf) * t * p4 in
  c2 + t * (c1 + c3 + c4).

Definition Distance (val1 val2 : F) : F :=
  fabs (val1 - val2).

Definition SmoothStep (val1 val2 t : F) : F :=
  let t := Clamp t $0 $1 in
  Lerp val1 val2 (t * t * ($3 - $2 * t)).

(** [Sign] returns an [int]. *)
Definition Sign (v : F) : Z :=
  if v >? $0 then 1%Z else if v =? $0 then 0%Z else (-1)%Z.

Context {LM : Libm F}.

Definition WrapAngle (val : F) : F :=
  let val := fmodf val TwoPi in
  if val >? Pi then - (TwoPi - val) else val.

End WithScalar.
End MathHelper.

(** ** Vector2.cpp *)

Module Vector2.
Section WithScalar.
Context {F : Type} {SF : Scalar F}.

Definition op_sub_assign (this rhs : Vector2 F) : Vector2 F :=
  let this := mkVector2 (this.(v2X) - rhs.(v2X)) this.(v2Y) in
  let this := mkVector2 (this.(v2X) - rhs.(v2Y)) this.(v2Y) in
  this.

Definition op_add (lhs rhs : Vector2 F) : Vector2 F :=
  mkVector2 (lhs.(v2X) + rhs.(v2X)) (lhs.(v2Y) + rhs.(v2Y)).

Definition op_sub (lhs rhs : Vector2 F) : Vector2 F :=
  mkVector2 (lhs.(v2X) - rhs.(v2X)) (lhs.(v2Y) - rhs.(v2Y)).

Definition op_mul_scalar (lhs : Vector2 F) (rhs : F) : Vector2 F :=
  mkVector2 (lhs.(v2X) * rhs) (lhs.(v2Y) * rhs).

Definition op_eq (lhs rhs : Vector2 F) : bool :=
  (lhs.(v2X) =? rhs.(v2X)) && (lhs.(v2Y) =? rhs.(v2Y)).

Definition Lerp (v1 v2 : Vector2 F) (t : F) : Vector2 F :=
  op_add v1 (op_mul_scalar (op_sub v2 v1) t).

Definition op_div_assign_scalar (this : Vector2 F) (rhs : F) : Vector2 F :=
  mkVector2 (this.(v2X) / rhs) (this.(v2Y) / rhs).

(** [operator*(float, const Vector2&)] *)
Definition op_scalar_mul (lhs : F) (rhs : Vector2 F) : Vector2 F :=
  op_mul_scalar rhs lhs.

Definition Dot (v1 v2 : Vector2 F) : F :=
  v1.(v2X) * v2.(v2X) + v1.(v2Y) * v2.(v2Y).

Definition LengthSquared (this : Vector2 F) : F :=
  Dot this this.

Definition Barycentric (p1 p2 p3 : Vector2 F) (b2 b3 : F) : Vector2 F :=
  op_add (op_add (op_scalar_mul ($1 - b2 - b3) p1) (op_scalar_mul b2 p2))
         (op_scalar_mul b3 p3).

Definition DistanceSquared (p1 p2 : Vector2 F) : F :=
  LengthSquared (op_sub p1 p2).

Definition Reflect (vec normal : Vector2 F) : Vector2 F :=
  let projection := op_scalar_mul (Dot vec normal) normal in
  let perp := op_sub projection vec in
  op_add vec (op_scalar_mul $2 perp).

(** [Transform(const Vector2&, const Matrix&)] *)
Definition Transform (v : Vector2 F) (m : Matrix F) : Vector2 F :=
  mkVector2 (v.(v2X) * m.(M11) + v.(v2Y) * m.(M21) + m.(M41))
            (v.(v2X) * m.(M12) + v.(v2Y) * m.(M22) + m.(M42)).

Definition TransformNormal (normal : Vector2 F) (mat : Matrix F) : Vector2 F :=
  mkVector2 (normal.(v2X) * mat.(M11) + normal.(v2Y) * mat.(M21))
            (normal.(v2X) * mat.(M12) + normal.(v2Y) * mat.(M22)).

Context {LM : Libm F}.

Definition Length (this : Vector2 F) : F :=
  sqrtf (LengthSquared this).

(** The in-place [Normalize()]; the static [Normalize] calls it on a copy. *)
Definition Normalize (this : Vector2 F) : Vector2 F :=
  op_div_assign_scalar this (Length this).

Definition Distance (p1 p2 : Vector2 F) : F :=
  Length (op_sub p1 p2).

End WithScalar.
End Vector2.

(** ** Vector3.cpp *)

Module Vector3.
Section WithScalar.
Context {F : Type} {SF : Scalar F}.

Definition LengthSquared (this : Vector3 F) : F :=
  this.(v3X) * this.(v3X) + this.(v3Y) * this.(v3Y) + this.(v3Z) * this.(v3Z).

Definition Transform (vec : Vector3 F) (mat : Matrix F) : Vector3 F :=
  mkVector3
    (vec.(v3X) * mat.(M11) + vec.(v3Y) * mat.(M21) + vec.(v3Z) * mat.(M31) + mat.(M41))
    (vec.(v3X) * mat.(M12) + vec.(v3Y) * mat.(M22) + vec.(v3Z) * mat.(M32) + mat.(M42))
    (vec.(v3X) * mat.(M13) + vec.(v3Y) * mat.(M23) + vec.(v3Z) * mat.(M33) + mat.(M41)).

Definition op_sub_assign (this v : Vector3 F) : Vector3 F :=
  let this := mkVector3 (this.(v3X) - v.(v3X)) this.(v3Y) this.(v3Z) in
  let this := mkVector3 this.(v3X) (this.(v3Y) - v.(v3Y)) this.(v3Z) in
  let this := mkVector3 this.(v3X) this.(v3Y) (this.(v3Z) - v.(v3Z)) in
  this.

Definition op_add (lhs rhs : Vector3 F) : Vector3 F :=
  mkVector3 (lhs.(v3X) + rhs.(v3X)) (lhs.(v3Y) + rhs.(v3Y)) (lhs.(v3Z) + rhs.(v3Z)).

Definition op_neg (rhs : Vector3 F) : Vector3 F :=
  mkVector3 (- rhs.(v3X)) (- rhs.(v3Y)) (- rhs.(v3Z)).

Definition op_sub (lhs rhs : Vector3 F) : Vector3 F :=
  op_add lhs (op_neg rhs).

Definition op_mul_scalar (lhs : Vector3 F) (rhs : F) : Vector3 F :=
  mkVector3 (lhs.(v3X) * rhs) (lhs.(v3Y) * rhs) (lhs.(v3Z) * rhs).

Definition op_div_scalar (lhs : Vector3 F) (rhs : F) : Vector3 F :=
  mkVector3 (lhs.(v3X) / rhs) (lhs.(v3Y) / rhs) (lhs.(v3Z) / rhs).

Definition op_eq (lhs rhs : Vector3 F) : bool :=
  (lhs.(v3X) =? rhs.(v3X)) && (lhs.(v3Y) =? rhs.(v3Y)) && (lhs.(v3Z) =? rhs.(v3Z)).

(** [operator*(float, const Vector3&)] *)
Definition op_scalar_mul (lhs : F) (rhs : Vector3 F) : Vector3 F :=
  op_mul_scalar rhs lhs.

Definition Barycentric (p1 p2 p3 : Vector3 F) (b2 b3 : F) : Vector3 F :=
  op_add (op_add (op_scalar_mul ($1 - b2 - b3) p1) (op_scalar_mul b2 p2))
         (op_scalar_mul b3 p3).

Definition Clamp (val min max : Vector3 F) : Vector3 F :=
  let x := MathHelper.Clamp val.(v3X) min.(v3X) max.(v3X) in
  let y := MathHelper.Clamp val.(v3Y) min.(v3Y) max.(v3Y) in
  let z := MathHelper.Clamp val.(v3Z) min.(v3Z) max.(v3Z) in
  mkVector3 x y z.

Definition Cross (v1 v2 : Vector3 F) : Vector3 F :=
  let x := v1.(v3Y) * v2.(v3Z) - v1.(v3Z) * v2.(v3Y) in
  let y := v1.(v3Z) * v2.(v3X) - v1.(v3X) * v2.(v3Z) in
  let z := v1.(v3X) * v2.(v3Y) - v1.(v3Y) * v2.(v3X) in
  mkVector3 x y z.

Definition DistanceSquared (p1 p2 : Vector3 F) : F :=
  LengthSquared (op_sub p1 p2).

Definition Dot (v1 v2 : Vector3 F) : F :=
  v1.(v3X) * v2.(v3X) + v1.(v3Y) * v2.(v3Y) + v1.(v3Z) * v2.(v3Z).

Definition Reflect (vec norm : Vector3 F) : Vector3 F :=
  let projection := op_scalar_mul (Dot vec norm) norm in
  let perp := op_sub projection vec in
  op_add vec (op_scalar_mul $2 perp).

Definition TransformNormal (norm : Vector3 F) (mat : Matrix F) : Vector3 F :=
  mkVector3
    (norm.(v3X) * mat.(M11) + norm.(v3Y) * mat.(M21) + norm.(v3Z) * mat.(M31))
    (norm.(v3X) * mat.(M12) + norm.(v3Y) * mat.(M22) + norm.(v3Z) * mat.(M32))
    (norm.(v3X) * mat.(M13) + norm.(v3Y) * mat.(M23) + norm.(v3Z) * mat.(M33)).

Definition op_gt (lhs rhs : Vector3 F) : bool :=
  (lhs.(v3X) >? rhs.(v3X)) && (lhs.(v3Y) >? rhs.(v3Y)) && (lhs.(v3Z) >? rhs.(v3Z)).

Definition op_lt (lhs rhs : Vector3 F) : bool :=
  (lhs.(v3X) <? rhs.(v3X)) && (lhs.(v3Y) <? rhs.(v3Y)) && (lhs.(v3Z) <? rhs.(v3Z)).

Definition op_ge (lhs rhs : Vector3 F) : bool :=
  (lhs.(v3X) >=? rhs.(v3X)) && (lhs.(v3Y) >=? rhs.(v3Y)) && (lhs.(v3Z) >=? rhs.(v3Z)).

Definition op_le (lhs rhs : Vector3 F) : bool :=
  (lhs.(v3X) <=? rhs.(v3X)) && (lhs.(v3Y) <=? rhs.(v3Y)) && (lhs.(v3Z) <=? rhs.(v3Z)).

Context {LM : Libm F}.

Definition Length (this : Vector3 F) : F :=
  sqrtf (LengthSquared this).

(** The in-place [Normalize()]; the static [Normalize] calls it on a copy. *)
Definition Normalize (this : Vector3 F) : Vector3 F :=
  let len := Length this in
  mkVector3 (this.(v3X) / len) (this.(v3Y) / len) (this.(v3Z) / len).

Definition Distance (p1 p2 : Vector3 F) : F :=
  sqrtf (DistanceSquared p1 p2).

End WithScalar.
End Vector3.

(** ** Vector4.cpp *)

Module Vector4.
Section WithScalar.
Context {F : Type} {SF : Scalar F}.

Definition Clamp (val min max : Vector4 F) : Vector4 F :=
  mkVector4 (MathHelper.Clamp val.(v4X) min.(v4X) max.(v4X))
            (MathHelper.Clamp val.(v4X) min.(v4X) max.(v4X))
            (MathHelper.Clamp val.(v4X) min.(v4X) max.(v4X))
            (MathHelper.Clamp val.(v4X) min.(v4X) max.(v4X)).

Definition Lerp (f to : Vector4 F) (t : F) : Vector4 F :=
  mkVector4 (MathHelper.Lerp f.(v4X) to.(v4X) t)
            (MathHelper.Lerp f.(v4Y) to.(v4Y) t)
            (MathHelper.Lerp f.(v4Z) to.(v4Z) t)
            (MathHelper.Lerp f.(v4W) to.(v4W) t).

Definition op_sub_assign (this v : Vector4 F) : Vector4 F :=
  let this := mkVector4 (this.(v4X) / v.(v4X)) this.(v4Y) this.(v4Z) this.(v4W) in
  let this := mkVector4 this.(v4X) (this.(v4Y) / v.(v4Y)) this.(v4Z) this.(v4W) in
  let this := mkVector4 this.(v4X) this.(v4Y) (this.(v4Z) / v.(v4Z)) this.(v4W) in
  let this := mkVector4 this.(v4X) this.(v4Y) this.(v4Z) (this.(v4W) / v.(v4W)) in
  this.

Definition op_sub (lhs rhs : Vector4 F) : Vector4 F :=
  let lhs := op_sub_assign lhs rhs in
  lhs.

Definition op_eq (lhs rhs : Vector4 F) : bool :=
  (lhs.(v4X) =? rhs.(v4X)) && (lhs.(v4Y) =? rhs.(v4Y))
  && (lhs.(v4Z) =? rhs.(v4Z)) && (lhs.(v4W) =? rhs.(v4W)).

Definition op_add_assign (this v : Vector4 F) : Vector4 F :=
  mkVector4 (this.(v4X) + v.(v4X)) (this.(v4Y) + v.(v4Y))
            (this.(v4Z) + v.(v4Z)) (this.(v4W) + v.(v4W)).

Definition op_mul_assign_scalar (this : Vector4 F) (f : F) : Vector4 F :=
  mkVector4 (this.(v4X) * f) (this.(v4Y) * f) (this.(v4Z) * f) (this.(v4W) * f).

Definition op_div_assign_scalar (this : Vector4 F) (f : F) : Vector4 F :=
  mkVector4 (this.(v4X) / f) (this.(v4Y) / f) (this.(v4Z) / f) (this.(v4W) / f).

Definition op_add (lhs rhs : Vector4 F) : Vector4 F :=
  op_add_assign lhs rhs.

(** [operator*(float, Vector4)] *)
Definition op_scalar_mul (lhs : F) (rhs : Vector4 F) : Vector4 F :=
  op_mul_assign_scalar rhs lhs.

Definition LengthSquared (this : Vector4 F) : F :=
  this.(v4X) * this.(v4X) + this.(v4Y) * this.(v4Y)
  + this.(v4Z) * this.(v4Z) + this.(v4W) * this.(v4W).

Definition Barycentric (p1 p2 p3 : Vector4 F) (b2 b3 : F) : Vector4 F :=
  op_add (op_add (op_scalar_mul ($1 - b2 - b3) p1) (op_scalar_mul b2 p2))
         (op_scalar_mul b3 p3).

Definition Dot (v1 v2 : Vector4 F) : F :=
  v1.(v4X) * v2.(v4X) + v1.(v4Y) * v2.(v4Y) + v1.(v4Z) * v2.(v4Z) + v1.(v4W) * v2.(v4W).

(** [Transform(const Vector4&, const Matrix&)] *)
Definition Transform (v : Vector4 F) (m : Matrix F) : Vector4 F :=
  let x := v.(v4X) * m.(M11) + v.(v4Y) * m.(M21) + v.(v4Z) * m.(M31) + v.(v4W) * m.(M41) in
  let y := v.(v4X) * m.(M12) + v.(v4Y) * m.(M22) + v.(v4Z) * m.(M32) + v.(v4W) * m.(M42) in
  let z := v.(v4X) * m.(M13) + v.(v4Y) * m.(M23) + v.(v4Z) * m.(M33) + v.(v4W) * m.(M43) in
  let w := v.(v4X) * m.(M14) + v.(v4Y) * m.(M24) + v.(v4Z) * m.(M34) + v.(v4W) * m.(M44) in
  mkVector4 x y z w.

Definition TransformNormal (norm : Vector4 F) (mat : Matrix F) : Vector4 F :=
  let x := norm.(v4X) * mat.(M11) + norm.(v4Y) * mat.(M21) + norm.(v4Z) * mat.(M31) in
  let y := norm.(v4X) * mat.(M12) + norm.(v4Y) * mat.(M22) + norm.(v4Z) * mat.(M32) in
  let z := norm.(v4X) * mat.(M13) + norm.(v4Y) * mat.(M23) + norm.(v4Z) * mat.(M33) in
  let w := norm.(v4X) * mat.(M14) + norm.(v4Y) * mat.(M24) + norm.(v4Z) * mat.(M34) in
  mkVector4 x y z $0.

Context {LM : Libm F}.

Definition Length (this : Vector4 F) : F :=
  sqrtf (LengthSquared this).

(** The in-place [Normalize()]; the static [Normalize] calls it on a copy. *)
Definition Normalize (this : Vector4 F) : Vector4 F :=
  op_div_assign_scalar this (Length this).

End WithScalar.
End Vector4.

(** ** Quaternion.cpp *)

Module Quaternion.
Section WithScalar.
Context {F : Type} {SF : Scalar F}.

Definition Identity : Quaternion F := mkQuaternion $0 $0 $0 $1.

(** [Quaternion(Vector3 xyz, float w)] *)
Definition of_xyz_w (xyz : Vector3 F) (w : F) : Quaternion F :=
  mkQuaternion xyz.(v3X) xyz.(v3Y) xyz.(v3Z) w.

(** The in-place [Conjugate()]. *)
Definition Conjugate (this : Quaternion F) : Quaternion F :=
  mkQuaternion (- this.(qX)) (- this.(qY)) (- this.(qZ)) this.(qW).

Definition LengthSquared (this : Quaternion F) : F :=
  this.(qX) * this.(qX) + this.(qY) * this.(qY)
  + this.(qZ) * this.(qZ) + this.(qW) * this.(qW).

Definition Dot (q1 q2 : Quaternion F) : F :=
  q1.(qX) * q2.(qX) + q1.(qY) * q2.(qY) + q1.(qZ) * q2.(qZ) + q1.(qW) * q2.(qW).

Definition op_mul_assign (this q : Quaternion F) : Quaternion F :=
  let x := this.(qW) * q.(qX) + this.(qX) * q.(qW) + this.(qY) * q.(qZ) - this.(qZ) * q.(qY) in
  let y := this.(qW) * q.(qY) - this.(qX) * q.(qZ) + this.(qY) * q.(qW) + this.(qZ) * q.(qX) in
  let z := this.(qW) * q.(qZ) + this.(qX) * q.(qY) - this.(qY) * q.(qX) + this.(qZ) * q.(qW) in
  let w := this.(qW) * q.(qW) - this.(qX) * q.(qX) - this.(qY) * q.(qY) - this.(qZ) * q.(qZ) in
  mkQuaternion x y z w.

Definition op_mul_assign_scalar (this : Quaternion F) (f : F) : Quaternion F :=
  mkQuaternion (this.(qX) * f) (this.(qY) * f) (this.(qZ) * f) (this.(qW) * f).

Definition op_div_assign_scalar (this : Quaternion F) (f : F) : Quaternion F :=
  mkQuaternion (this.(qX) / f) (this.(qY) / f) (this.(qZ) / f) (this.(qW) / f).

Definition op_mul (lhs rhs : Quaternion F) : Quaternion F :=
  op_mul_assign lhs rhs.

Definition op_mul_scalar (lhs : Quaternion F) (rhs : F) : Quaternion F :=
  op_mul_assign_scalar lhs rhs.

Definition Inverse (q : Quaternion F) : Quaternion F :=
  let q := Conjugate q in
  let q := op_div_assign_scalar q (LengthSquared q) in
  q.

Definition Lerp (from to : Quaternion F) (t : F) : Quaternion F :=
  mkQuaternion (MathHelper.Lerp from.(qX) to.(qX) t)
               (MathHelper.Lerp from.(qY) to.(qY) t)
               (MathHelper.Lerp from.(qZ) to.(qZ) t)
               (MathHelper.Lerp from.(qW) to.(qW) t).

(** [operator==]; it reads the global [MathHelper::Epsilon]. *)
Definition op_eq (Epsilon : F) (lhs rhs : Quaternion F) : bool :=
  MathHelper.EqualWithinEpsilon Epsilon lhs.(qX) rhs.(qX)
  && MathHelper.EqualWithinEpsilon Epsilon lhs.(qY) rhs.(qY)
  && MathHelper.EqualWithinEpsilon Epsilon lhs.(qZ) rhs.(qZ)
  && MathHelper.EqualWithinEpsilon Epsilon lhs.(qW) rhs.(qW).

Definition op_div_assign (this q : Quaternion F) : Quaternion F :=
  let len := LengthSquared q in
  let x := q.(qW) * this.(qX) - q.(qX) * this.(qW) - q.(qY) * this.(qZ) + q.(qZ) * this.(qY) in
  let y := q.(qW) * this.(qY) + q.(qX) * this.(qZ) - q.(qY) * this.(qW) - q.(qZ) * this.(qX) in
  let z := q.(qW) * this.(qZ) - q.(qX) * this.(qY) + q.(qY) * this.(qX) - q.(qZ) * this.(qW) in
  let w := this.(qW) * q.(qW) + this.(qX) * q.(qX) + this.(qY) * q.(qY) + this.(qZ) * q.(qZ) in
  mkQuaternion (x / len) (y / len) (z / len) (w / len).

Definition op_div (lhs rhs : Quaternion F) : Quaternion F :=
  op_div_assign lhs rhs.

(** The unary [operator-]: [Conjugate()], then [W = -W]. *)
Definition op_neg (rhs : Quaternion F) : Quaternion F :=
  let rhs := Conjugate rhs in
  mkQuaternion rhs.(qX) rhs.(qY) rhs.(qZ) (- rhs.(qW)).

Definition Concatenate (f s : Quaternion F) : Quaternion F :=
  op_mul s f.

Context {LM : Libm F}.

Definition Length (this : Quaternion F) : F :=
  sqrtf (LengthSquared this).

Definition CreateFromRotationMatrix (m : Matrix F) : Quaternion F :=
  let w := lit 5 10 * sqrtf ($1 + m.(M11) - m.(M22) - m.(M33)) in
  let inv := $1 / ($4 * w) in
  mkQuaternion (inv * (m.(M23) - m.(M32)))
               (inv * (m.(M31) - m.(M13)))
               (inv * (m.(M12) - m.(M21)))
               w.

Definition QLn (q : Quaternion F) : Quaternion F :=
  let len := Length q in
  let theta := q.(qW) / len in
  let v := mkVector3 q.(qX) q.(qY) q.(qZ) in
  of_xyz_w (Vector3.op_mul_scalar v (acosf theta)) (logf len).

Definition QExp (q : Quaternion F) : Quaternion F :=
  let v := mkVector3 q.(qX) q.(qY) q.(qZ) in
  let len := Vector3.Length v in
  op_mul_scalar
    (of_xyz_w (Vector3.op_mul_scalar (Vector3.op_div_scalar v len) (sinf len)) (cosf len))
    (expf q.(qW)).

Definition QPow (q : Quaternion F) (p : F) : Quaternion F :=
  QExp (op_mul_scalar (QLn q) p).

Definition Slerp (from to : Quaternion F) (t : F) : Quaternion F :=
  let d := Dot from to in
  (* If the quaternions are very close, use cheaper Lerp *)
  if d <? lit 999 1000 then Lerp from to t
  else op_mul (QPow (op_mul to (Inverse from)) t) from.

(** The in-place [Normalize()]. *)
Definition Normalize (this : Quaternion F) : Quaternion F :=
  let len := Length this in
  mkQuaternion (this.(qX) / len) (this.(qY) / len) (this.(qZ) / len) (this.(qW) / len).

End WithScalar.
End Quaternion.

(** ** Matrix.cpp *)

Module Matrix.
Section WithScalar.
Context {F : Type} {SF : Scalar F}.

Definition Identity : Matrix F :=
  mkMatrix $1 $0 $0 $0
           $0 $1 $0 $0
           $0 $0 $1 $0
           $0 $0 $0 $1.

Definition Determinant (this : Matrix F) : F :=
  let s0 := this.(M11) * this.(M22) - this.(M12) * this.(M21) in
  let s1 := this.(M11) * this.(M23) - this.(M13) * this.(M21) in
  let s2 := this.(M11) * this.(M24) - this.(M14) * this.(M21) in
  let s3 := this.(M12) * this.(M23) - this.(M13) * this.(M22) in
  let s4 := this.(M12) * this.(M24) - this.(M14) * this.(M22) in
  let s5 := this.(M13) * this.(M24) - this.(M14) * this.(M23) in
  let c0 := this.(M31) * this.(M42) - this.(M32) * this.(M41) in
  let c1 := this.(M31) * this.(M43) - this.(M33) * this.(M41) in
  let c2 := this.(M31) * this.(M44) - this.(M34) * this.(M41) in
  let c3 := this.(M32) * this.(M43) - this.(M33) * this.(M42) in
  let c4 := this.(M32) * this.(M44) - this.(M34) * this.(M42) in
  let c5 := this.(M33) * this.(M44) - this.(M34) * this.(M43) in
  s0 * c5 - s1 * c4 + s2 * c3 + s3 * c2 - s4 * c1 + s5 * c0.

Definition CreateScale (scale : F) : Matrix F :=
  mkMatrix scale $0 $0 $0
           $0 scale $0 $0
           $0 $0 scale $0
           $0 $0 $0 $1.

Definition CreateTranslation (xT yT zT : F) : Matrix F :=
  mkMatrix $1 $0 $0 $0
           $0 $1 $0 $0
           $0 $0 $1 $0
           xT yT zT $1.

Definition op_mul_assign (this m : Matrix F) : Matrix F :=
  let m11 := this.(M11) * m.(M11) + this.(M12) * m.(M21) + this.(M13) * m.(M31) + this.(M14) * m.(M41) in
  let m12 := this.(M11) * m.(M12) + this.(M12) * m.(M22) + this.(M13) * m.(M32) + this.(M14) * m.(M42) in
  let m13 := this.(M11) * m.(M13) + this.(M12) * m.(M23) + this.(M13) * m.(M33) + this.(M14) * m.(M43) in
  let m14 := this.(M11) * m.(M14) + this.(M12) * m.(M24) + this.(M13) * m.(M34) + this.(M14) * m.(M44) in
  let m21 := this.(M21) * m.(M11) + this.(M22) * m.(M21) + this.(M23) * m.(M31) + this.(M24) * m.(M41) in
  let m22 := this.(M21) * m.(M12) + this.(M22) * m.(M22) + this.(M23) * m.(M32) + this.(M24) * m.(M42) in
  let m23 := this.(M21) * m.(M13) + this.(M22) * m.(M23) + this.(M23) * m.(M33) + this.(M24) * m.(M43) in
  let m24 := this.(M21) * m.(M14) + this.(M22) * m.(M24) + this.(M23) * m.(M34) + this.(M24) * m.(M44) in
  let m31 := this.(M31) * m.(M11) + this.(M32) * m.(M21) + this.(M33) * m.(M31) + this.(M34) * m.(M41) in
  let m32 := this.(M31) * m.(M12) + this.(M32) * m.(M22) + this.(M33) * m.(M32) + this.(M34) * m.(M42) in
  let m33 := this.(M31) * m.(M13) + this.(M32) * m.(M23) + this.(M33) * m.(M33) + this.(M34) * m.(M43) in
  let m34 := this.(M31) * m.(M14) + this.(M32) * m.(M24) + this.(M33) * m.(M34) + this.(M34) * m.(M44) in
  let m41 := this.(M41) * m.(M11) + this.(M42) * m.(M21) + this.(M43) * m.(M31) + this.(M44) * m.(M41) in
  let m42 := this.(M41) * m.(M12) + this.(M42) * m.(M22) + this.(M43) * m.(M32) + this.(M44) * m.(M42) in
  let m43 := this.(M41) * m.(M13) + this.(M42) * m.(M23) + this.(M43) * m.(M33) + this.(M44) * m.(M43) in
  let m44 := this.(M41) * m.(M14) + this.(M42) * m.(M24) + this.(M43) * m.(M34) + this.(M44) * m.(M44) in
  mkMatrix m11 m12 m13 m14 m21 m22 m23 m24 m31 m32 m33 m34 m41 m42 m43 m44.

Definition op_mul_assign_scalar (this : Matrix F) (f : F) : Matrix F :=
  mkMatrix (this.(M11) * f) (this.(M12) * f) (this.(M13) * f) (this.(M14) * f)
           (this.(M21) * f) (this.(M22) * f) (this.(M23) * f) (this.(M24) * f)
           (this.(M31) * f) (this.(M32) * f) (this.(M33) * f) (this.(M34) * f)
           (this.(M41) * f) (this.(M42) * f) (this.(M43) * f) (this.(M44) * f).

Definition op_mul (lhs rhs : Matrix F) : Matrix F :=
  op_mul_assign lhs rhs.

Definition op_mul_scalar (lhs : Matrix F) (rhs : F) : Matrix F :=
  op_mul_assign_scalar lhs rhs.

Definition op_scalar_mul (lhs : F) (rhs : Matrix F) : Matrix F :=
  op_mul_scalar rhs lhs.

Definition Invert (m : Matrix F) : Matrix F :=
  let s0 := m.(M11) * m.(M22) - m.(M12) * m.(M21) in
  let s1 := m.(M11) * m.(M23) - m.(M13) * m.(M21) in
  let s2 := m.(M11) * m.(M24) - m.(M14) * m.(M21) in
  let s3 := m.(M12) * m.(M23) - m.(M13) * m.(M22) in
  let s4 := m.(M12) * m.(M24) - m.(M14) * m.(M22) in
  let s5 := m.(M13) * m.(M24) - m.(M14) * m.(M23) in
  let c0 := m.(M31) * m.(M42) - m.(M32) * m.(M41) in
  let c1 := m.(M31) * m.(M43) - m.(M33) * m.(M41) in
  let c2 := m.(M31) * m.(M44) - m.(M34) * m.(M41) in
  let c3 := m.(M32) * m.(M43) - m.(M33) * m.(M42) in
  let c4 := m.(M32) * m.(M44) - m.(M34) * m.(M42) in
  let c5 := m.(M33) * m.(M44) - m.(M34) * m.(M43) in
  let det := s0 * c5 - s1 * c4 + s2 * c3 + s3 * c2 - s4 * c1 + s5 * c0 in
  let adj := mkMatrix
    (m.(M22) * c5 - m.(M23) * c4 + m.(M24) * c3) (- m.(M12) * c5 + m.(M13) * c4 - m.(M14) * c3)
      (m.(M42) * s5 - m.(M43) * s4 + m.(M44) * s3) (- m.(M32) * s5 + m.(M33) * s4 - m.(M34) * s3)
    (- m.(M21) * c5 + m.(M23) * c2 - m.(M24) * c1) (m.(M11) * c5 - m.(M13) * c2 + m.(M14) * c1)
      (- m.(M41) * s5 + m.(M43) * s2 - m.(M44) * s1) (m.(M31) * s5 - m.(M33) * s2 + m.(M34) * s1)
    (m.(M21) * c4 - m.(M22) * c2 + m.(M24) * c0) (- m.(M11) * c4 + m.(M12) * c2 - m.(M14) * c0)
      (m.(M41) * s4 - m.(M42) * s2 + m.(M44) * s0) (- m.(M31) * s4 + m.(M32) * s2 - m.(M34) * s0)
    (- m.(M21) * c3 + m.(M22) * c1 - m.(M23) * c0) (m.(M11) * c3 - m.(M12) * c1 + m.(M13) * c0)
      (- m.(M41) * s3 + m.(M42) * s1 - m.(M43) * s0) (m.(M31) * s3 - m.(M32) * s1 + m.(M33) * s0) in
  op_scalar_mul ($1 / det) adj.

Definition Lerp (from to : Matrix F) (t : F) : Matrix F :=
  mkMatrix (MathHelper.Lerp from.(M11) to.(M11) t) (MathHelper.Lerp from.(M12) to.(M12) t)
           (MathHelper.Lerp from.(M13) to.(M13) t) (MathHelper.Lerp from.(M14) to.(M14) t)
           (MathHelper.Lerp from.(M21) to.(M21) t) (MathHelper.Lerp from.(M22) to.(M22) t)
           (MathHelper.Lerp from.(M23) to.(M23) t) (MathHelper.Lerp from.(M24) to.(M24) t)
           (MathHelper.Lerp from.(M31) to.(M31) t) (MathHelper.Lerp from.(M32) to.(M32) t)
           (MathHelper.Lerp from.(M33) to.(M33) t) (MathHelper.Lerp from.(M34) to.(M34) t)
           (MathHelper.Lerp from.(M41) to.(M41) t) (MathHelper.Lerp from.(M42) to.(M42) t)
           (MathHelper.Lerp from.(M43) to.(M43) t) (MathHelper.Lerp from.(M44) to.(M44) t).

Definition op_eq (lhs rhs : Matrix F) : bool :=
  (lhs.(M11) =? rhs.(M11)) && (lhs.(M12) =? rhs.(M12))
  && (lhs.(M13) =? rhs.(M13)) && (lhs.(M14) =? rhs.(M14))
  && (lhs.(M21) =? rhs.(M21)) && (lhs.(M22) =? rhs.(M22))
  && (lhs.(M23) =? rhs.(M23)) && (lhs.(M24) =? rhs.(M24))
  && (lhs.(M31) =? rhs.(M31)) && (lhs.(M32) =? rhs.(M32))
  && (lhs.(M33) =? rhs.(M33)) && (lhs.(M34) =? rhs.(M34))
  && (lhs.(M41) =? rhs.(M41)) && (lhs.(M42) =? rhs.(M42))
  && (lhs.(M43) =? rhs.(M43)) && (lhs.(M44) =? rhs.(M44)).

(** The accessors of the basis rows: the getter [Backward()] and the
    setter [Backward(source)], which returns the matrix it leaves. *)
Definition Backward (this : Matrix F) : Vector3 F :=
  mkVector3 this.(M31) this.(M32) this.(M33).

Definition set_Backward (this : Matrix F) (source : Vector3 F) : Matrix F :=
  mkMatrix this.(M11) this.(M12) this.(M13) this.(M14)
           this.(M21) this.(M22) this.(M23) this.(M24)
           source.(v3X) source.(v3Y) source.(v3Z) this.(M34)
           this.(M41) this.(M42) this.(M43) this.(M44).

Definition Down (this : Matrix F) : Vector3 F :=
  mkVector3 (- this.(M21)) (- this.(M22)) (- this.(M23)).

Definition set_Down (this : Matrix F) (source : Vector3 F) : Matrix F :=
  mkMatrix this.(M11) this.(M12) this.(M13) this.(M14)
           source.(v3X) source.(v3Y) source.(v3Z) this.(M24)
           this.(M31) this.(M32) this.(M33) this.(M34)
           this.(M41) this.(M42) this.(M43) this.(M44).

Definition Forward (this : Matrix F) : Vector3 F :=
  Vector3.op_neg (Backward this).

Definition set_Forward (this : Matrix F) (source : Vector3 F) : Matrix F :=
  set_Backward this source.

Definition Left (this : Matrix F) : Vector3 F :=
  mkVector3 (- this.(M11)) (- this.(M12)) (- this.(M13)).

Definition set_Left (this : Matrix F) (source : Vector3 F) : Matrix F :=
  mkMatrix source.(v3X) source.(v3Y) source.(v3Z) this.(M14)
           this.(M21) this.(M22) this.(M23) this.(M24)
           this.(M31) this.(M32) this.(M33) this.(M34)
           this.(M41) this.(M42) this.(M43) this.(M44).

Definition Right (this : Matrix F) : Vector3 F :=
  Vector3.op_neg (Left this).

Definition set_Right (this : Matrix F) (source : Vector3 F) : Matrix F :=
  set_Left this source.

Definition Translation (this : Matrix F) : Vector3 F :=
  mkVector3 this.(M41) this.(M42) this.(M43).

Definition set_Translation (this : Matrix F) (source : Vector3 F) : Matrix F :=
  mkMatrix this.(M11) this.(M12) this.(M13) this.(M14)
           this.(M21) this.(M22) this.(M23) this.(M24)
           this.(M31) this.(M32) this.(M33) this.(M34)
           source.(v3X) source.(v3Y) source.(v3Z) this.(M44).

Definition Up (this : Matrix F) : Vector3 F :=
  Vector3.op_neg (Down this).

Definition set_Up (this : Matrix F) (source : Vector3 F) : Matrix F :=
  set_Down this source.

Definition CreateFromQuaternion (q : Quaternion F) : Matrix F :=
  let x := q.(qX) in
  let y := q.(qY) in
  let z := q.(qZ) in
  let w := q.(qW) in
  mkMatrix ($1 - $2 * y * y - $2 * z * z) ($2 * x * y + $2 * z * w) ($2 * x * z - $2 * y * w) $0
           ($2 * x * y - $2 * z * w) ($1 - $2 * x * x - $2 * z * z) ($2 * y * z + $2 * x * w) $0
           ($2 * x * z + $2 * y * w) ($2 * y * z - $2 * x * w) ($1 - $2 * x * x - $2 * y * y) $0
           $0 $0 $0 $1.

Definition CreateOrthographic (w h zN zF : F) : Matrix F :=
  mkMatrix ($2 / w) $0 $0 $0
           $0 ($2 / h) $0 $0
           $0 $0 ($1 / (zN - zF)) $0
           $0 $0 (zN / (zN - zF)) $1.

Definition CreatePerspective (w h zN zF : F) : result (Matrix F) :=
  if zN >? zF then
    OutOfRange "zNear must be less than or equal to zFar"
  else if (zN <? $0) || (zF <? $0) then
    OutOfRange "zNear and zFar must be greater than 0"
  else
    Returns (mkMatrix ($2 * zN / w) $0 $0 $0
                      $0 ($2 * zN / h) $0 $0
                      $0 $0 (zF / (zN - zF)) (- $1)
                      $0 $0 (zN * zF / (zN - zF)) $0).

Definition CreatePerspectiveOffCenter (l r b t zN zF : F) : result (Matrix F) :=
  if zN >? zF then
    OutOfRange "zNear must be less than or equal to zFar"
  else if (zN <? $0) || (zF <? $0) then
    OutOfRange "zNear and zFar must be greater than 0"
  else
    Returns (mkMatrix ($2 * zN / (r - l)) $0 $0 $0
                      $0 ($2 * zN / (t - b)) $0 $0
                      ((l + r) / (r - l)) ((t + b) / (t - b)) (zF / (zN - zF)) (- $1)
                      $0 $0 (zN * zF / (zN - zF)) $0).

(** [CreateTranslation(const Vector3&)] *)
Definition CreateTranslation_vec (vec : Vector3 F) : Matrix F :=
  CreateTranslation vec.(v3X) vec.(v3Y) vec.(v3Z).

Definition Transpose (m : Matrix F) : Matrix F :=
  mkMatrix m.(M11) m.(M21) m.(M31) m.(M41)
           m.(M12) m.(M22) m.(M32) m.(M42)
           m.(M13) m.(M23) m.(M33) m.(M43)
           m.(M14) m.(M24) m.(M34) m.(M44).

Context {LM : Libm F}.

(** [Decompose] writes through three references; the model takes the
    values the references hold at the call and returns the flag together
    with the values they hold afterwards. *)
Definition Decompose (this : Matrix F) (s : Vector3 F) (r : Quaternion F) (t : Vector3 F)
  : bool * (Vector3 F * Quaternion F * Vector3 F) :=
  let scaleX := sqrtf (this.(M11) * this.(M11) + this.(M12) * this.(M12) + this.(M13) * this.(M13)) in
  let scaleY := sqrtf (this.(M21) * this.(M21) + this.(M22) * this.(M22) + this.(M23) * this.(M23)) in
  let scaleZ := sqrtf (this.(M31) * this.(M31) + this.(M32) * this.(M32) + this.(M33) * this.(M33)) in
  if (scaleX =? $0) || (scaleY =? $0) || (scaleZ =? $0) then
    let r := Quaternion.Identity in
    (false, (s, r, t))
  else
    let r := Quaternion.CreateFromRotationMatrix
      (mkMatrix (this.(M11) / scaleX) (this.(M12) / scaleX) (this.(M13) / scaleX) $0
                (this.(M21) / scaleY) (this.(M22) / scaleY) (this.(M23) / scaleY) $0
                (this.(M31) / scaleZ) (this.(M32) / scaleZ) (this.(M33) / scaleZ) $0
                $0 $0 $0 $1) in
    let s := mkVector3 scaleX scaleY scaleZ in
    let t := mkVector3 this.(M41) this.(M42) this.(M43) in
    (true, (s, r, t)).

Definition CreatePerspectiveFieldOfView (fov aR zN zF : F) : result (Matrix F) :=
  if negb ((fov >=? $0) && (fov <=? MathHelper.Pi)) then
    OutOfRange "fieldOfView must be between 0 and Pi radians (0 and 180 degrees)"
  else if zN >? zF then
    OutOfRange "zNear must be less than or equal to zFar"
  else if (zN <? $0) || (zF <? $0) then
    OutOfRange "zNear and zFar must be greater than 0"
  else
    let yScale := cosf (fov / $2) / sinf (fov / $2) in
    let xScale := yScale / aR in
    Returns (mkMatrix xScale $0 $0 $0
                      $0 yScale $0 $0
                      $0 $0 (zF / (zN - zF)) (- $1)
                      $0 $0 (zN * zF / (zN - zF)) $0).

End WithScalar.
End Matrix.

(** ** The overloads of Transform on quaternions and on std::vector

    They call into Quaternion.cpp and Matrix.cpp, so they come after both. *)

Module VectorTransform.
Section WithScalar.
Context {F : Type} {SF : Scalar F}.

(** [Vector2::Transform(const Vector2&, const Quaternion&)] *)
Definition Vector2_Transform (v : Vector2 F) (q : Quaternion F) : Vector2 F :=
  let vQ := mkQuaternion $0 v.(v2X) v.(v2Y) $0 in
  let res := Quaternion.op_mul (Quaternion.op_mul q vQ) (Quaternion.Conjugate q) in
  mkVector2 res.(qX) res.(qY).

(** [Vector3::Transform(const Vector3&, const Quaternion&)] *)
Definition Vector3_Transform (vec : Vector3 F) (q : Quaternion F) : Vector3 F :=
  let vQ := mkQuaternion $0 vec.(v3X) vec.(v3Y) vec.(v3Z) in
  let res := Quaternion.op_mul (Quaternion.op_mul q vQ) (Quaternion.Conjugate q) in
  mkVector3 res.(qX) res.(qY) res.(qZ).

(** [Vector4::Transform(const Vector4&, const Quaternion&)] *)
Definition Vector4_Transform (v : Vector4 F) (q : Quaternion F) : Vector4 F :=
  let vQ := mkQuaternion v.(v4X) v.(v4Y) v.(v4Z) v.(v4W) in
  let res := Quaternion.op_mul (Quaternion.op_mul q vQ) (Quaternion.Inverse q) in
  mkVector4 res.(qX) res.(qY) res.(qZ) res.(qW).

End WithScalar.

(** [int], and [i32] in Vector3.cpp: a signed integer of 32 bits.  An
    addition or subtraction whose result does not fit is undefined
    behaviour, which the model reports as [None]. *)
Definition in_int (z : Z) : bool := (- 2 ^ 31 <=? z)%Z && (z <? 2 ^ 31)%Z.

Definition int_add (a b : Z) : option Z :=
  if in_int (a + b) then Some (a + b)%Z else None.

Definition int_sub (a b : Z) : option Z :=
  if in_int (a - b) then Some (a - b)%Z else None.

(** [source.size()] passed for an [int] parameter: the conversion is modulo
    2^32. *)
Definition int_of_size (n : nat) : Z :=
  ((Z.of_nat n + 2 ^ 31) mod 2 ^ 32 - 2 ^ 31)%Z.

(** The vectors of the caller.  [source] and [dest] are references: they may
    name two vectors or the same one, and then an element written to [dest]
    is what a later [source[i]] reads. *)
Definition ref : Set := nat.

Definition store (A : Type) : Type := ref -> list A.

Section Arrays.
Context {A : Type}.

Definition update (st : store A) (r : ref) (v : list A) : store A :=
  fun r' => if Nat.eqb r' r then v else st r'.

(** [v[i]] on a [std::vector]: the element when [0 <= i < v.size()]; any
    other index is undefined behaviour, [None]. *)
Definition at_index (v : list A) (i : Z) : option A :=
  if (0 <=? i)%Z then nth_error v (Z.to_nat i) else None.

(** [v[i] = x] *)
Definition assign_index (v : list A) (i : Z) (x : A) : option (list A) :=
  if (0 <=? i)%Z && (i <? Z.of_nat (length v))%Z
  then Some (firstn (Z.to_nat i) v ++ x :: skipn (S (Z.to_nat i)) v)
  else None.

(** The body [dest[destIdx + (i - sourceIdx)] = f(source[i])] followed by
    [i++], run [n] times from [i] on. *)
Fixpoint transform_loop (f : A -> A) (source : ref) (sourceIdx : Z) (dest : ref)
    (destIdx : Z) (n : nat) (i : Z) (st : store A) : option (store A) :=
  match n with
  | O => Some st
  | S n' =>
      match at_index (st source) i, int_sub i sourceIdx with
      | Some x, Some k =>
          match int_add destIdx k with
          | Some j =>
              match assign_index (st dest) j (f x), int_add i 1 with
              | Some v, Some i' =>
                  transform_loop f source sourceIdx dest destIdx n' i' (update st dest v)
              | _, _ => None
              end
          | None => None
          end
      | _, _ => None
      end
  end.

(** [for (auto i = sourceIdx; i < sourceIdx + count; i++)] on the [int]
    parameters [sourceIdx], [destIdx] and [count] (a number out of the range
    of [int] is no argument of a call): the bound [sourceIdx + count] is
    computed in [int]; the body runs [count] times, and not at all when
    [count <= 0]. *)
Definition transform_range (f : A -> A) (st : store A) (source : ref) (sourceIdx : Z)
    (dest : ref) (destIdx count : Z) : option (store A) :=
  if in_int sourceIdx && in_int destIdx && in_int count
  then match int_add sourceIdx count with
       | Some _ =>
           transform_loop f source sourceIdx dest destIdx (Z.to_nat count) sourceIdx st
       | None => None
       end
  else None.

End Arrays.

Section WithScalar.
Context {F : Type} {SF : Scalar F}.

(** [Vector3::Transform(source, sourceIdx, mat, dest, destIdx, count)] and
    [Vector3::Transform(source, mat, dest)]: the vectors after the call. *)
Definition Vector3_Transform_range (st : store (Vector3 F)) (source : ref)
    (sourceIdx : Z) (mat : Matrix F) (dest : ref) (destIdx count : Z)
  : option (store (Vector3 F)) :=
  transform_range (fun v => Vector3.Transform v mat) st source sourceIdx dest destIdx count.

Definition Vector3_Transform_all (st : store (Vector3 F)) (source : ref)
    (mat : Matrix F) (dest : ref) : option (store (Vector3 F)) :=
  Vector3_Transform_range st source 0 mat dest 0 (int_of_size (length (st source))).

(** [Vector4::Transform(source, sourceIdx, q, dest, destIdx, count)] and
    [Vector4::Transform(source, q, dest)]. *)
Definition Vector4_Transform_range (st : store (Vector4 F)) (source : ref)
    (sourceIdx : Z) (q : Quaternion F) (dest : ref) (destIdx count : Z)
  : option (store (Vector4 F)) :=
  transform_range (fun v => Vector4_Transform v q) st source sourceIdx dest destIdx count.

Definition Vector4_Transform_all (st : store (Vector4 F)) (source : ref)
    (q : Quaternion F) (dest : ref) : option (store (Vector4 F)) :=
  Vector4_Transform_range st source 0 q dest 0 (int_of_size (length (st source))).

(** [Vector2::TransformNormal(source, sourceIdx, mat, dest, destIdx, count)]
    and [Vector2::TransformNormal(source, mat, dest)]. *)
Definition Vector2_TransformNormal_range (st : store (Vector2 F)) (source : ref)
    (sourceIdx : Z) (mat : Matrix F) (dest : ref) (destIdx count : Z)
  : option (store (Vector2 F)) :=
  transform_range (fun v => Vector2.TransformNormal v mat) st source sourceIdx
    dest destIdx count.

Definition Vector2_TransformNormal_all (st : store (Vector2 F)) (source : ref)
    (mat : Matrix F) (dest : ref) : option (store (Vector2 F)) :=
  Vector2_TransformNormal_range st source 0 mat dest 0 (int_of_size (length (st source))).

End WithScalar.
End VectorTransform.

(** ** Vocabulary of the statements *)

Unset Implicit Arguments.

Import Binary32.
Import Exact.

(** The value of a finite binary32 number in units of 2^-149, the spacing of
    the subnormal numbers: an integer for every valid binary32 number. *)
Definition units (x : float32) : Z :=
  match x with
  | S754_finite s m e => cond_Zopp s (Zpos m * 2 ^ (e + 149))
  | _ => 0
  end.

(** Neither negative nor NaN: +0, -0, a positive finite number or +infinity. *)
Definition nonneg (x : float32) : bool :=
  match x with
  | S754_zero _ | S754_finite false _ _ | S754_infinity false => true
  | _ => false
  end.

(** The sign of a number that is not NaN. *)
Definition signed (s : bool) (x : float32) : bool :=
  match x with
  | S754_zero s' | S754_infinity s' | S754_finite s' _ _ => Bool.eqb s' s
  | S754_nan => false
  end.

(** The three basis rows of a matrix: rows 1 to 3, columns 1 to 3. *)
Definition basis_row1 (m : Matrix float32) : Vector3 float32 :=
  mkVector3 m.(M11) m.(M12) m.(M13).
Definition basis_row2 (m : Matrix float32) : Vector3 float32 :=
  mkVector3 m.(M21) m.(M22) m.(M23).
Definition basis_row3 (m : Matrix float32) : Vector3 float32 :=
  mkVector3 m.(M31) m.(M32) m.(M33).

(** Their lengths as binary32 computes them: sqrtf(X*X + Y*Y + Z*Z). *)
Definition row_lengths {LM : Libm float32} (m : Matrix float32) : Vector3 float32 :=
  mkVector3 (Vector3.Length (basis_row1 m)) (Vector3.Length (basis_row2 m))
            (Vector3.Length (basis_row3 m)).

Definition some_zero (v : Vector3 float32) : bool :=
  (v.(v3X) =? $0) || (v.(v3Y) =? $0) || (v.(v3Z) =? $0).

Definition no_nan (v : Vector3 float32) : bool :=
  negb (is_nan v.(v3X) || is_nan v.(v3Y) || is_nan v.(v3Z)).

Definition all_nonneg (v : Vector3 float32) : bool :=
  ($0 <=? v.(v3X)) && ($0 <=? v.(v3Y)) && ($0 <=? v.(v3Z)).

Definition none_negative (v : Vector3 float32) : bool :=
  negb (v.(v3X) <? $0) && negb (v.(v3Y) <? $0) && negb (v.(v3Z) <? $0).

(** What a call of [Decompose] leaves: the flag it returns and the values
    of the three references. *)
Definition Decomposed : Type :=
  (bool * (Vector3 float32 * Quaternion float32 * Vector3 float32))%type.
Definition flag_of (d : Decomposed) : bool := fst d.
Definition scale_of (d : Decomposed) : Vector3 float32 := fst (fst (snd d)).
Definition rotation_of (d : Decomposed) : Quaternion float32 := snd (fst (snd d)).
Definition translation_of (d : Decomposed) : Vector3 float32 := snd (snd d).

(** The number of binary digits of a mantissa. *)
Definition dg (p : positive) : Z := Zpos (digits2_pos p).

(** [units] of the positive finite number with mantissa [m] and exponent
    [e]; of TwoPi; of Pi. *)
Definition U (m : positive) (e : Z) : Z := (Zpos m * 2 ^ (e + 149))%Z.
Definition UT : Z := (13176795 * 2 ^ 128)%Z.
Definition UP : Z := (13176795 * 2 ^ 127)%Z.

(** A stand-in for the functions of <cmath> that a computation does not
    call. *)
Definition unused (x : float32) : float32 := x.

(** A zero of either sign, or NaN. *)
Definition zero_or_nan (x : float32) : bool :=
  match x with S754_zero _ | S754_nan => true | _ => false end.

(** Every entry of [p] is within [Epsilon] of the entry of the identity. *)
Definition approx_Identity {F} `{Scalar F} (Epsilon : F) (p : Matrix F) : bool :=
  MathHelper.EqualWithinEpsilon Epsilon p.(M11) $1
  && MathHelper.EqualWithinEpsilon Epsilon p.(M12) $0
  && MathHelper.EqualWithinEpsilon Epsilon p.(M13) $0
  && MathHelper.EqualWithinEpsilon Epsilon p.(M14) $0
  && MathHelper.EqualWithinEpsilon Epsilon p.(M21) $0
  && MathHelper.EqualWithinEpsilon Epsilon p.(M22) $1
  && MathHelper.EqualWithinEpsilon Epsilon p.(M23) $0
  && MathHelper.EqualWithinEpsilon Epsilon p.(M24) $0
  && MathHelper.EqualWithinEpsilon Epsilon p.(M31) $0
  && MathHelper.EqualWithinEpsilon Epsilon p.(M32) $0
  && MathHelper.EqualWithinEpsilon Epsilon p.(M33) $1
  && MathHelper.EqualWithinEpsilon Epsilon p.(M34) $0
  && MathHelper.EqualWithinEpsilon Epsilon p.(M41) $0
  && MathHelper.EqualWithinEpsilon Epsilon p.(M42) $0
  && MathHelper.EqualWithinEpsilon Epsilon p.(M43) $0
  && MathHelper.EqualWithinEpsilon Epsilon p.(M44) $1.

(** Entrywise equality of rational matrices. *)
Definition Matrix_Qeq (a b : Matrix Q) : Prop :=
  (a.(M11) == b.(M11) /\ a.(M12) == b.(M12) /\ a.(M13) == b.(M13) /\ a.(M14) == b.(M14)
   /\ a.(M21) == b.(M21) /\ a.(M22) == b.(M22) /\ a.(M23) == b.(M23) /\ a.(M24) == b.(M24)
   /\ a.(M31) == b.(M31) /\ a.(M32) == b.(M32) /\ a.(M33) == b.(M33) /\ a.(M34) == b.(M34)
   /\ a.(M41) == b.(M41) /\ a.(M42) == b.(M42) /\ a.(M43) == b.(M43) /\ a.(M44) == b.(M44))%Q.

(** Concrete inputs. *)
Definition v4 (x y z w : Z) : Vector4 float32 := mkVector4 $x $y $z $w.
Definition v3 (x y z : Z) : Vector3 float32 := mkVector3 $x $y $z.
Definition v2 (x y : Z) : Vector2 float32 := mkVector2 $x $y.

(** The diagonal matrix diag(2^-70, 2^-70, 1, 1): its determinant 2^-140 is
    a nonzero (subnormal) binary32 number whose reciprocal overflows. *)
Definition tiny_diagonal : Matrix float32 :=
  mkMatrix (ldexp 1 (-70)) $0 $0 $0
           $0 (ldexp 1 (-70)) $0 $0
           $0 $0 $1 $0
           $0 $0 $0 $1.

(** The differences [b - a] of all components are finite binary32 numbers:
    no operand is NaN or infinite and no subtraction overflows. *)
Definition finite_difference (a b : float32) : bool := is_finite (b - a).

Definition Vector2_finite_difference (a b : Vector2 float32) : bool :=
  finite_difference a.(v2X) b.(v2X) && finite_difference a.(v2Y) b.(v2Y).

Definition Vector4_finite_difference (a b : Vector4 float32) : bool :=
  finite_difference a.(v4X) b.(v4X) && finite_difference a.(v4Y) b.(v4Y)
  && finite_difference a.(v4Z) b.(v4Z) && finite_difference a.(v4W) b.(v4W).

Definition Quaternion_finite_difference (a b : Quaternion float32) : bool :=
  finite_difference a.(qX) b.(qX) && finite_difference a.(qY) b.(qY)
  && finite_difference a.(qZ) b.(qZ) && finite_difference a.(qW) b.(qW).

Definition Matrix_finite_difference (a b : Matrix float32) : bool :=
  finite_difference a.(M11) b.(M11) && finite_difference a.(M12) b.(M12)
  && finite_difference a.(M13) b.(M13) && finite_difference a.(M14) b.(M14)
  && finite_difference a.(M21) b.(M21) && finite_difference a.(M22) b.(M22)
  && finite_difference a.(M23) b.(M23) && finite_difference a.(M24) b.(M24)
  && finite_difference a.(M31) b.(M31) && finite_difference a.(M32) b.(M32)
  && finite_difference a.(M33) b.(M33) && finite_difference a.(M34) b.(M34)
  && finite_difference a.(M41) b.(M41) && finite_difference a.(M42) b.(M42)
  && finite_difference a.(M43) b.(M43) && finite_difference a.(M44) b.(M44).

(** 2^-30 and 2^127. *)
Definition small : float32 := ldexp 1 (-30).
Definition huge : float32 := ldexp 1 127.

Definition q_of (x : float32) : Quaternion float32 := mkQuaternion x x x x.

(** The literal 0.5f and the quaternion (1, 0, 0, 0). *)
Definition half : float32 := lit 5 10.
Definition q_100 : Quaternion float32 := mkQuaternion $1 $0 $0 $0.
Definition q_Identity : Quaternion float32 := Quaternion.Identity.

(** diag(2, 4, 8, 1) over the rationals. *)
Definition exact_diagonal : Matrix Q :=
  mkMatrix $2 $0 $0 $0
           $0 $4 $0 $0
           $0 $0 $8 $0
           $0 $0 $0 $1.

(** *** Vocabulary of the further properties *)

(** A finite binary32 number in its canonical representation. *)
Definition finite32 (x : float32) : bool :=
  valid_binary prec emax x && is_finite x.

Definition Vector2_finite32 (v : Vector2 float32) : bool :=
  finite32 v.(v2X) && finite32 v.(v2Y).

Definition Vector3_finite32 (v : Vector3 float32) : bool :=
  finite32 v.(v3X) && finite32 v.(v3Y) && finite32 v.(v3Z).

Definition Vector4_finite32 (v : Vector4 float32) : bool :=
  finite32 v.(v4X) && finite32 v.(v4Y) && finite32 v.(v4Z) && finite32 v.(v4W).

Definition Matrix_finite32 (m : Matrix float32) : bool :=
  finite32 m.(M11) && finite32 m.(M12) && finite32 m.(M13) && finite32 m.(M14)
  && finite32 m.(M21) && finite32 m.(M22) && finite32 m.(M23) && finite32 m.(M24)
  && finite32 m.(M31) && finite32 m.(M32) && finite32 m.(M33) && finite32 m.(M34)
  && finite32 m.(M41) && finite32 m.(M42) && finite32 m.(M43) && finite32 m.(M44).

(** A zero of either sign. *)
Definition is_zero (x : float32) : bool :=
  match x with S754_zero _ => true | _ => false end.

(** The same number: identical, or two zeros whatever their signs. *)
Definition same_number (a x : float32) : Prop :=
  a = x \/ (is_zero a = true /\ is_zero x = true).

(** Componentwise equality of rational vectors and quaternions. *)
Definition Vector2_Qeq (a b : Vector2 Q) : Prop :=
  (a.(v2X) == b.(v2X) /\ a.(v2Y) == b.(v2Y))%Q.

Definition Vector3_Qeq (a b : Vector3 Q) : Prop :=
  (a.(v3X) == b.(v3X) /\ a.(v3Y) == b.(v3Y) /\ a.(v3Z) == b.(v3Z))%Q.

Definition Vector4_Qeq (a b : Vector4 Q) : Prop :=
  (a.(v4X) == b.(v4X) /\ a.(v4Y) == b.(v4Y) /\ a.(v4Z) == b.(v4Z) /\ a.(v4W) == b.(v4W))%Q.

Definition Quaternion_Qeq (a b : Quaternion Q) : Prop :=
  (a.(qX) == b.(qX) /\ a.(qY) == b.(qY) /\ a.(qZ) == b.(qZ) /\ a.(qW) == b.(qW))%Q.

Definition Quaternion_finite32 (q : Quaternion float32) : bool :=
  finite32 q.(qX) && finite32 q.(qY) && finite32 q.(qZ) && finite32 q.(qW).

Definition Quaternion_same (p q : Quaternion float32) : Prop :=
  same_number p.(qX) q.(qX) /\ same_number p.(qY) q.(qY)
  /\ same_number p.(qZ) q.(qZ) /\ same_number p.(qW) q.(qW).

(** No component is a finite number: each one is NaN or an infinity. *)
Definition Vector2_none_finite (v : Vector2 float32) : bool :=
  negb (is_finite v.(v2X)) && negb (is_finite v.(v2Y)).

Definition Vector3_none_finite (v : Vector3 float32) : bool :=
  negb (is_finite v.(v3X)) && negb (is_finite v.(v3Y)) && negb (is_finite v.(v3Z)).

Definition Vector4_none_finite (v : Vector4 float32) : bool :=
  negb (is_finite v.(v4X)) && negb (is_finite v.(v4Y))
  && negb (is_finite v.(v4Z)) && negb (is_finite v.(v4W)).

Definition Quaternion_none_finite (q : Quaternion float32) : bool :=
  negb (is_finite q.(qX)) && negb (is_finite q.(qY))
  && negb (is_finite q.(qZ)) && negb (is_finite q.(qW)).

(** The binary32 number [n]. *)
Definition f32 (n : Z) : float32 := $n.

(** 2^-80, whose square underflows to zero. *)
Definition minute : float32 := ldexp 1 (-80).

(** (-0, -0, -0, 1): the conjugate and the inverse of the identity. *)
Definition q_Identity_conj : Quaternion float32 :=
  mkQuaternion (- $0) (- $0) (- $0) $1.

(** *** Magnitudes of the rows of a matrix *)

(** A finite number of magnitude at most 2^-75, that is 2^74 units of
    2^-149: zero included. *)
Definition tiny (x : float32) : bool :=
  is_finite x && (Z.abs (units x) <=? 2 ^ 74)%Z.

(** The exponent of a finite number is at least -149, that of the subnormal
    numbers. *)
Definition emin_ok (x : float32) : bool :=
  match x with S754_finite _ _ e => (-149 <=? e)%Z | _ => true end.

(** Every component is a zero of either sign. *)
Definition Vector3_all_zero (v : Vector3 float32) : bool :=
  is_zero v.(v3X) && is_zero v.(v3Y) && is_zero v.(v3Z).

Definition tiny_row (v : Vector3 float32) : bool :=
  tiny v.(v3X) && tiny v.(v3Y) && tiny v.(v3Z).

Definition valid_row (v : Vector3 float32) : bool :=
  valid_binary prec emax v.(v3X) && valid_binary prec emax v.(v3Y)
  && valid_binary prec emax v.(v3Z).

(** Some basis row has only components of magnitude at most 2^-75; some
    basis row is zero; the nine entries of the basis rows are binary32
    numbers in their canonical representation (NaN and the infinities are). *)
Definition some_tiny_row (m : Matrix float32) : bool :=
  tiny_row (basis_row1 m) || tiny_row (basis_row2 m) || tiny_row (basis_row3 m).

Definition some_zero_row (m : Matrix float32) : bool :=
  Vector3_all_zero (basis_row1 m) || Vector3_all_zero (basis_row2 m)
  || Vector3_all_zero (basis_row3 m).

Definition valid_basis (m : Matrix float32) : bool :=
  valid_row (basis_row1 m) && valid_row (basis_row2 m) && valid_row (basis_row3 m).

(** The real number that a finite binary32 number stands for. *)
Definition exact_value (x : float32) : Q :=
  match x with
  | S754_finite s m e => (inject_Z (cond_Zopp s (Zpos m)) * 2 ^ e)%Q
  | _ => 0%Q
  end.

(** The square of the Euclidean length of a vector of finite numbers. *)
Definition Euclidean_length_squared (v : Vector3 float32) : Q :=
  (exact_value v.(v3X) * exact_value v.(v3X)
   + exact_value v.(v3Y) * exact_value v.(v3Y)
   + exact_value v.(v3Z) * exact_value v.(v3Z))%Q.

(** The identity matrix with M11 replaced by 2^-80, and by 2^100. *)
Definition underflow_matrix : Matrix float32 :=
  mkMatrix minute $0 $0 $0
           $0 $1 $0 $0
           $0 $0 $1 $0
           $0 $0 $0 $1.

Definition overflow_matrix : Matrix float32 :=
  mkMatrix (ldexp 1 100) $0 $0 $0
           $0 $1 $0 $0
           $0 $0 $1 $0
           $0 $0 $0 $1.

(** *** Vectors of the caller *)

(** Two vectors, of three and of four elements, under the references 0
    and 1. *)
Definition two_vectors : VectorTransform.store (Vector3 float32) :=
  fun r => match r with
           | O => v3 1 0 0 :: v3 0 1 0 :: v3 0 0 1 :: nil
           | _ => v3 7 7 7 :: v3 8 8 8 :: v3 9 9 9 :: v3 5 5 5 :: nil
           end.

Definition two_vectors4 : VectorTransform.store (Vector4 float32) :=
  fun r => match r with
           | O => v4 1 2 3 4 :: v4 5 6 7 8 :: nil
           | _ => v4 0 0 0 0 :: nil
           end.

Definition two_vectors2 : VectorTransform.store (Vector2 float32) :=
  fun r => match r with
           | O => v2 1 2 :: nil
           | _ => v2 0 0 :: v2 3 3 :: nil
           end.

(** ** Subtraction of vectors (C4) *)

Section Subtraction.
Context {F : Type} {SF : Scalar F}.

Lemma Vector3_op_sub_assign_components (a b : Vector3 F) :
  Vector3.op_sub_assign a b
  = mkVector3 (a.(v3X) - b.(v3X)) (a.(v3Y) - b.(v3Y)) (a.(v3Z) - b.(v3Z)).
Proof. reflexivity. Qed.

Lemma Vector2_op_sub_components (a b : Vector2 F) :
  Vector2.op_sub a b = mkVector2 (a.(v2X) - b.(v2X)) (a.(v2Y) - b.(v2Y)).
Proof. reflexivity. Qed.

Lemma Vector2_op_sub_assign_components (a b : Vector2 F) :
  Vector2.op_sub_assign a b = mkVector2 (a.(v2X) - b.(v2X) - b.(v2Y)) a.(v2Y).
Proof. reflexivity. Qed.

Lemma Vector4_op_sub_assign_components (a b : Vector4 F) :
  Vector4.op_sub_assign a b
  = mkVector4 (a.(v4X) / b.(v4X)) (a.(v4Y) / b.(v4Y))
              (a.(v4Z) / b.(v4Z)) (a.(v4W) / b.(v4W)).
Proof. reflexivity. Qed.

End Subtraction.

(** In binary32 [x + (-y)] and [x - y] are the same number, so the binary
    [operator-] of Vector3, written [lhs + (-rhs)], is the difference. *)
Lemma add_neg_sub (x y : float32) : (x + - y = x - y)%flt.
Proof.
  destruct x as [sx|sx| |sx mx ex], y as [sy|sy| |sy my ey]; cbn;
    try reflexivity; destruct sx, sy; reflexivity.
Qed.

Lemma Vector3_op_sub_components (a b : Vector3 float32) :
  Vector3.op_sub a b
  = mkVector3 (a.(v3X) - b.(v3X))%flt (a.(v3Y) - b.(v3Y))%flt (a.(v3Z) - b.(v3Z))%flt.
Proof.
  unfold Vector3.op_sub, Vector3.op_add, Vector3.op_neg; cbn [v3X v3Y v3Z].
  now rewrite !add_neg_sub.
Qed.

(** C4: the compound subtraction of Vector4 divides component by component
    and the binary [operator-] of Vector4, built on it, inherits the
    division; the compound subtraction of Vector2 subtracts both components
    of the right-hand side from X and leaves Y alone.  The binary
    [operator-] of Vector2 and both subtractions of Vector3 are the
    component-wise difference.  At (6,6,6,6) - (2,2,2,2) the code returns
    (3,3,3,3), not (4,4,4,4), and (10,10) -= (1,2) leaves (7,10), not
    (9,8). *)
Theorem C4_sub_assign_is_not_componentwise_difference
    (a4 b4 : Vector4 float32) (a2 b2 : Vector2 float32) (a3 b3 : Vector3 float32) :
  (Vector4.op_sub_assign a4 b4
   = mkVector4 (a4.(v4X) / b4.(v4X)) (a4.(v4Y) / b4.(v4Y))
               (a4.(v4Z) / b4.(v4Z)) (a4.(v4W) / b4.(v4W))
   /\ Vector4.op_sub a4 b4 = Vector4.op_sub_assign a4 b4
   /\ Vector2.op_sub_assign a2 b2
      = mkVector2 (a2.(v2X) - b2.(v2X) - b2.(v2Y)) a2.(v2Y)
   /\ Vector2.op_sub a2 b2 = mkVector2 (a2.(v2X) - b2.(v2X)) (a2.(v2Y) - b2.(v2Y))
   /\ Vector3.op_sub_assign a3 b3
      = mkVector3 (a3.(v3X) - b3.(v3X)) (a3.(v3Y) - b3.(v3Y)) (a3.(v3Z) - b3.(v3Z))
   /\ Vector3.op_sub a3 b3
      = mkVector3 (a3.(v3X) - b3.(v3X)) (a3.(v3Y) - b3.(v3Y)) (a3.(v3Z) - b3.(v3Z)))
  /\ (Vector4.op_sub_assign (v4 6 6 6 6) (v4 2 2 2 2) = v4 3 3 3 3
      /\ Vector4.op_sub (v4 6 6 6 6) (v4 2 2 2 2) = v4 3 3 3 3
      /\ Vector4.op_eq (Vector4.op_sub (v4 6 6 6 6) (v4 2 2 2 2)) (v4 4 4 4 4) = false
      /\ Vector2.op_sub_assign (v2 10 10) (v2 1 2) = v2 7 10
      /\ Vector2.op_eq (Vector2.op_sub_assign (v2 10 10) (v2 1 2)) (v2 9 8) = false).
Proof.
  split.
  - repeat apply conj; try reflexivity. apply Vector3_op_sub_components.
  - repeat apply conj; vm_compute; reflexivity.
Qed.

(** ** Vector4::Clamp (C5) *)

(** C5: the four components of the result are all the clamped X, for
    every val, min and max; at val = (1,2,3,4), min = (0,0,0,0),
    max = (10,10,10,10) the code returns (1,1,1,1) where the clamp of each
    component is (1,2,3,4). *)
Theorem C5_Clamp_repeats_X (val min max : Vector4 float32) :
  Vector4.Clamp val min max
  = mkVector4 (MathHelper.Clamp val.(v4X) min.(v4X) max.(v4X))
              (MathHelper.Clamp val.(v4X) min.(v4X) max.(v4X))
              (MathHelper.Clamp val.(v4X) min.(v4X) max.(v4X))
              (MathHelper.Clamp val.(v4X) min.(v4X) max.(v4X))
  /\ Vector4.Clamp (v4 1 2 3 4) (v4 0 0 0 0) (v4 10 10 10 10) = v4 1 1 1 1
  /\ mkVector4 (MathHelper.Clamp $1 $0 $10) (MathHelper.Clamp $2 $0 $10)
               (MathHelper.Clamp $3 $0 $10) (MathHelper.Clamp $4 $0 $10) = v4 1 2 3 4
  /\ Vector4.op_eq (Vector4.Clamp (v4 1 2 3 4) (v4 0 0 0 0) (v4 10 10 10 10))
                   (v4 1 2 3 4) = false.
Proof.
  split; [reflexivity|].
  repeat apply conj; vm_compute; reflexivity.
Qed.

(** ** Vector3::Transform by a matrix (C6) *)

(** C6: for every vector and matrix the Z component of the result adds M41
    where the row-vector product adds M43 (X and Y are as the product has
    them); the origin transformed by the translation (1,2,3) comes out as
    (1,2,1), not (1,2,3). *)
Theorem C6_Transform_Z_uses_M41 (v : Vector3 float32) (m : Matrix float32) :
  (Vector3.Transform v m).(v3X)
  = v.(v3X) * m.(M11) + v.(v3Y) * m.(M21) + v.(v3Z) * m.(M31) + m.(M41)
  /\ (Vector3.Transform v m).(v3Y)
     = v.(v3X) * m.(M12) + v.(v3Y) * m.(M22) + v.(v3Z) * m.(M32) + m.(M42)
  /\ (Vector3.Transform v m).(v3Z)
     = v.(v3X) * m.(M13) + v.(v3Y) * m.(M23) + v.(v3Z) * m.(M33) + m.(M41)
  /\ Vector3.Transform (v3 0 0 0) (Matrix.CreateTranslation $1 $2 $3) = v3 1 2 1
  /\ Vector3.op_eq (Vector3.Transform (v3 0 0 0) (Matrix.CreateTranslation $1 $2 $3))
                   (v3 1 2 3) = false.
Proof.
  repeat apply conj; try reflexivity; vm_compute; reflexivity.
Qed.

(** ** Comparisons of binary32 numbers *)

Lemma SFcompare_antisym (x y : float32) :
  SFcompare y x = option_map CompOpp (SFcompare x y).
Proof.
  destruct x as [sx|sx| |sx mx ex], y as [sy|sy| |sy my ey]; cbn;
    try reflexivity; try (destruct sx; reflexivity); try (destruct sy; reflexivity);
    try (destruct sx, sy; reflexivity).
  destruct sx, sy; try reflexivity;
    rewrite (Z.compare_antisym ex ey); destruct (ex ?= ey)%Z; cbn; try reflexivity;
    rewrite (Pos.compare_cont_antisym mx my Eq); reflexivity.
Qed.

Lemma SFcompare_None (x y : float32) :
  SFcompare x y = None <-> is_nan x = true \/ is_nan y = true.
Proof.
  destruct x as [sx|sx| |sx mx ex], y as [sy|sy| |sy my ey]; cbn;
    try (destruct sx); try (destruct sy); intuition discriminate.
Qed.

(** [x <= y] fails exactly when an operand is NaN or [y < x]. *)
Lemma leb_false_iff (x y : float32) :
  SFleb x y = false <-> is_nan x = true \/ is_nan y = true \/ SFltb y x = true.
Proof.
  unfold SFleb, SFltb. rewrite (SFcompare_antisym x y).
  pose proof (SFcompare_None x y) as HN.
  destruct (SFcompare x y) as [[ | | ]|]; cbn; intuition discriminate.
Qed.

Lemma ltb_false_iff (x y : float32) :
  SFltb x y = false <-> is_nan x = true \/ is_nan y = true \/ SFleb y x = true.
Proof.
  unfold SFleb, SFltb. rewrite (SFcompare_antisym x y).
  pose proof (SFcompare_None x y) as HN.
  destruct (SFcompare x y) as [[ | | ]|]; cbn; intuition discriminate.
Qed.

Lemma Pi_binary32 : (MathHelper.Pi : float32) = S754_finite false 13176795 (-22).
Proof. vm_compute. reflexivity. Qed.

Lemma TwoPi_binary32 : (MathHelper.TwoPi : float32) = S754_finite false 13176795 (-21).
Proof. vm_compute. reflexivity. Qed.

(** ** CreatePerspectiveFieldOfView (C3) *)

Section PerspectiveFieldOfView.
Context {F : Type} {SF : Scalar F} {LM : Libm F}.

Lemma CreatePerspectiveFieldOfView_throws (fov aR zN zF : F) :
  throws (Matrix.CreatePerspectiveFieldOfView fov aR zN zF)
  = negb ((fov >=? $0) && (fov <=? MathHelper.Pi))
    || (zN >? zF) || ((zN <? $0) || (zF <? $0)).
Proof.
  unfold Matrix.CreatePerspectiveFieldOfView.
  destruct (negb ((fov >=? $0) && (fov <=? MathHelper.Pi))); [reflexivity|].
  destruct (zN >? zF); [reflexivity|].
  destruct ((zN <? $0) || (zF <? $0)); reflexivity.
Qed.

End PerspectiveFieldOfView.

(** C3, as the code has it: the call throws exactly when the field of view
    is NaN, below 0 or above Pi (the closed interval [0, Pi] is accepted), or
    zNear > zFar, or a depth is negative. *)
Theorem C3_CreatePerspectiveFieldOfView_throws_iff
    (LM : Libm float32) (fov aR zN zF : float32) :
  throws (Matrix.CreatePerspectiveFieldOfView fov aR zN zF) = true
  <-> (is_nan fov = true \/ (fov <? $0) = true \/ (fov >? MathHelper.Pi) = true)
      \/ (zN >? zF) = true
      \/ (zN <? $0) = true \/ (zF <? $0) = true.
Proof.
  rewrite CreatePerspectiveFieldOfView_throws.
  rewrite !orb_true_iff, negb_true_iff, andb_false_iff.
  change (@leb float32 Binary32.scalar) with SFleb.
  change (@ltb float32 Binary32.scalar) with SFltb.
  rewrite !leb_false_iff.
  assert (Hz : is_nan ($0 : float32) = false) by reflexivity.
  assert (Hp : is_nan (MathHelper.Pi : float32) = false) by reflexivity.
  rewrite Hz, Hp. intuition discriminate.
Qed.

(** C3, the boundary: at fieldOfView = Pi (and at 0) with depths 1 and 2 the
    call returns a matrix, whatever <cmath> computes. *)
Lemma C3_fov_Pi_does_not_throw :
  ~ (exists LM : Libm float32,
       throws (Matrix.CreatePerspectiveFieldOfView MathHelper.Pi $1 $1 $2) = true)
  /\ ~ (exists LM : Libm float32,
       throws (Matrix.CreatePerspectiveFieldOfView $0 $1 $1 $2) = true).
Proof.
  split; intros [LM H]; rewrite CreatePerspectiveFieldOfView_throws in H;
    vm_compute in H; discriminate H.
Qed.

(** ** The equality operators (C10) *)

Section Equality.
Context {F : Type} {SF : Scalar F}.

Lemma Quaternion_op_eq_iff (Epsilon : F) (a b : Quaternion F) :
  Quaternion.op_eq Epsilon a b = true
  <-> (fabs (a.(qX) - b.(qX)) <? Epsilon) = true
      /\ (fabs (a.(qY) - b.(qY)) <? Epsilon) = true
      /\ (fabs (a.(qZ) - b.(qZ)) <? Epsilon) = true
      /\ (fabs (a.(qW) - b.(qW)) <? Epsilon) = true.
Proof.
  unfold Quaternion.op_eq, MathHelper.EqualWithinEpsilon.
  rewrite !andb_true_iff. tauto.
Qed.

Lemma Vector2_op_eq_iff (a b : Vector2 F) :
  Vector2.op_eq a b = true
  <-> (a.(v2X) =? b.(v2X)) = true /\ (a.(v2Y) =? b.(v2Y)) = true.
Proof. unfold Vector2.op_eq. rewrite !andb_true_iff. tauto. Qed.

Lemma Vector3_op_eq_iff (a b : Vector3 F) :
  Vector3.op_eq a b = true
  <-> (a.(v3X) =? b.(v3X)) = true /\ (a.(v3Y) =? b.(v3Y)) = true
      /\ (a.(v3Z) =? b.(v3Z)) = true.
Proof. unfold Vector3.op_eq. rewrite !andb_true_iff. tauto. Qed.

Lemma Vector4_op_eq_iff (a b : Vector4 F) :
  Vector4.op_eq a b = true
  <-> (a.(v4X) =? b.(v4X)) = true /\ (a.(v4Y) =? b.(v4Y)) = true
      /\ (a.(v4Z) =? b.(v4Z)) = true /\ (a.(v4W) =? b.(v4W)) = true.
Proof. unfold Vector4.op_eq. rewrite !andb_true_iff. tauto. Qed.

Lemma Matrix_op_eq_iff (a b : Matrix F) :
  Matrix.op_eq a b = true
  <-> ((a.(M11) =? b.(M11)) = true /\ (a.(M12) =? b.(M12)) = true
       /\ (a.(M13) =? b.(M13)) = true /\ (a.(M14) =? b.(M14)) = true)
      /\ ((a.(M21) =? b.(M21)) = true /\ (a.(M22) =? b.(M22)) = true
       /\ (a.(M23) =? b.(M23)) = true /\ (a.(M24) =? b.(M24)) = true)
      /\ ((a.(M31) =? b.(M31)) = true /\ (a.(M32) =? b.(M32)) = true
       /\ (a.(M33) =? b.(M33)) = true /\ (a.(M34) =? b.(M34)) = true)
      /\ ((a.(M41) =? b.(M41)) = true /\ (a.(M42) =? b.(M42)) = true
       /\ (a.(M43) =? b.(M43)) = true /\ (a.(M44) =? b.(M44)) = true).
Proof. unfold Matrix.op_eq. rewrite !andb_true_iff. tauto. Qed.

End Equality.

(** C10: the quaternions [a == b] exactly when each of the four differences
    is, in absolute value, strictly below the current [Epsilon]; the answer
    changes with [Epsilon] (the quaternions (0,0,0,1) and (0,0,0,2) are equal
    under Epsilon = 2 and different under Epsilon = 1); the vectors and the
    matrices compare each component with the exact [==] of the scalars. *)
Theorem C10_equality_operators (Epsilon : float32) (a b : Quaternion float32)
    (u2 w2 : Vector2 float32) (u3 w3 : Vector3 float32) (u4 w4 : Vector4 float32)
    (m n : Matrix float32) :
  (Quaternion.op_eq Epsilon a b = true
   <-> (fabs (a.(qX) - b.(qX)) <? Epsilon) = true
       /\ (fabs (a.(qY) - b.(qY)) <? Epsilon) = true
       /\ (fabs (a.(qZ) - b.(qZ)) <? Epsilon) = true
       /\ (fabs (a.(qW) - b.(qW)) <? Epsilon) = true)
  /\ (Quaternion.op_eq $2 (mkQuaternion $0 $0 $0 $1) (mkQuaternion $0 $0 $0 $2) = true
      /\ Quaternion.op_eq $1 (mkQuaternion $0 $0 $0 $1) (mkQuaternion $0 $0 $0 $2) = false)
  /\ (Vector2.op_eq u2 w2 = true
      <-> (u2.(v2X) =? w2.(v2X)) = true /\ (u2.(v2Y) =? w2.(v2Y)) = true)
  /\ (Vector3.op_eq u3 w3 = true
      <-> (u3.(v3X) =? w3.(v3X)) = true /\ (u3.(v3Y) =? w3.(v3Y)) = true
          /\ (u3.(v3Z) =? w3.(v3Z)) = true)
  /\ (Vector4.op_eq u4 w4 = true
      <-> (u4.(v4X) =? w4.(v4X)) = true /\ (u4.(v4Y) =? w4.(v4Y)) = true
          /\ (u4.(v4Z) =? w4.(v4Z)) = true /\ (u4.(v4W) =? w4.(v4W)) = true)
  /\ (Matrix.op_eq m n = true
      <-> ((m.(M11) =? n.(M11)) = true /\ (m.(M12) =? n.(M12)) = true
           /\ (m.(M13) =? n.(M13)) = true /\ (m.(M14) =? n.(M14)) = true)
          /\ ((m.(M21) =? n.(M21)) = true /\ (m.(M22) =? n.(M22)) = true
           /\ (m.(M23) =? n.(M23)) = true /\ (m.(M24) =? n.(M24)) = true)
          /\ ((m.(M31) =? n.(M31)) = true /\ (m.(M32) =? n.(M32)) = true
           /\ (m.(M33) =? n.(M33)) = true /\ (m.(M34) =? n.(M34)) = true)
          /\ ((m.(M41) =? n.(M41)) = true /\ (m.(M42) =? n.(M42)) = true
           /\ (m.(M43) =? n.(M43)) = true /\ (m.(M44) =? n.(M44)) = true)).
Proof.
  split; [apply Quaternion_op_eq_iff|].
  split; [split; vm_compute; reflexivity|].
  split; [apply Vector2_op_eq_iff|].
  split; [apply Vector3_op_eq_iff|].
  split; [apply Vector4_op_eq_iff|].
  apply Matrix_op_eq_iff.
Qed.

(** ** Matrix::Invert (C2) *)

Lemma ofZ_exact (n : Z) : (($n : Q) == inject_Z n)%Q.
Proof. unfold ofZ; cbn. ring. Qed.

Lemma EqualWithinEpsilon_exact (eps x y : Q) :
  (x == y)%Q -> (0 < eps)%Q -> MathHelper.EqualWithinEpsilon eps x y = true.
Proof.
  intros Hxy Heps. unfold MathHelper.EqualWithinEpsilon.
  change (negb (Qle_bool eps (Qabs (x - y)%Q)) = true).
  apply negb_true_iff. destruct (Qle_bool eps (Qabs (x - y)%Q)) eqn:E; [|reflexivity].
  apply Qle_bool_iff in E.
  assert (H0 : (x - y == 0)%Q) by (rewrite Hxy; ring).
  rewrite H0 in E. change (Qabs 0) with 0%Q in E. lra.
Qed.

(** In exact arithmetic the formulas of [Invert] and of the matrix product
    give the identity, entry by entry. *)
Lemma Invert_exact (M : Matrix Q) :
  ~ (Matrix.Determinant M == 0)%Q ->
  Matrix_Qeq (Matrix.op_mul M (Matrix.Invert M)) Matrix.Identity.
Proof.
  destruct M as [a11 a12 a13 a14 a21 a22 a23 a24 a31 a32 a33 a34 a41 a42 a43 a44].
  intros Hdet.
  cbv [Matrix.Determinant Matrix_Qeq Matrix.op_mul Matrix.op_mul_assign Matrix.Invert
       Matrix.op_scalar_mul Matrix.op_mul_scalar Matrix.op_mul_assign_scalar
       Matrix.Identity M11 M12 M13 M14 M21 M22 M23 M24 M31 M32 M33 M34 M41 M42 M43 M44
       add sub mul div neg Exact.scalar] in *.
  change (@ofZ Q _ 1) with 1%Q. change (@ofZ Q _ 0) with 0%Q.
  repeat apply conj; field; exact Hdet.
Qed.

(** C2, in exact arithmetic: with the rationals in place of binary32, for every
    matrix of nonzero determinant the product M * Invert(M) is the identity
    entry by entry, hence within every positive Epsilon of it. *)
Theorem C2_Invert_exact (M : Matrix Q) (Epsilon : Q) :
  ~ (Matrix.Determinant M == 0)%Q ->
  (0 < Epsilon)%Q ->
  Matrix_Qeq (Matrix.op_mul M (Matrix.Invert M)) Matrix.Identity
  /\ approx_Identity Epsilon (Matrix.op_mul M (Matrix.Invert M)) = true.
Proof.
  intros Hdet Heps. pose proof (Invert_exact M Hdet) as HI.
  split; [exact HI|].
  unfold Matrix_Qeq in HI. cbn [Matrix.Identity M11 M12 M13 M14 M21 M22 M23 M24
    M31 M32 M33 M34 M41 M42 M43 M44] in HI.
  unfold approx_Identity.
  repeat (apply andb_true_intro; split);
    apply EqualWithinEpsilon_exact; solve [exact Heps | intuition].
Qed.

Lemma C2_Invert_exact_witness :
  Matrix_Qeq (Matrix.op_mul exact_diagonal (Matrix.Invert exact_diagonal)) Matrix.Identity
  /\ approx_Identity (1 # 1000)%Q
       (Matrix.op_mul exact_diagonal (Matrix.Invert exact_diagonal)) = true.
Proof.
  apply (C2_Invert_exact exact_diagonal (1 # 1000)%Q).
  - vm_compute. discriminate.
  - reflexivity.
Defined.

(** C2, in binary32: diag(2^-70, 2^-70, 1, 1) has the nonzero finite
    determinant 2^-140, yet entries of M * Invert(M) are NaN, which no
    Epsilon accepts. *)
Lemma C2_Invert_binary32_counterexample :
  (Matrix.Determinant tiny_diagonal =? $0) = false
  /\ is_finite (Matrix.Determinant tiny_diagonal) = true
  /\ (Matrix.op_mul tiny_diagonal (Matrix.Invert tiny_diagonal)).(M33) = S754_nan
  /\ ~ (exists Epsilon : float32,
          approx_Identity Epsilon
            (Matrix.op_mul tiny_diagonal (Matrix.Invert tiny_diagonal)) = true).
Proof.
  split; [vm_compute; reflexivity|].
  split; [vm_compute; reflexivity|].
  assert (H33 : (Matrix.op_mul tiny_diagonal (Matrix.Invert tiny_diagonal)).(M33) = S754_nan)
    by (vm_compute; reflexivity).
  split; [exact H33|].
  intros [eps H]. unfold approx_Identity in H.
  rewrite !andb_true_iff in H.
  destruct H as [[[[[[_ H] _] _] _] _] _].
  rewrite H33 in H. discriminate H.
Qed.

(** ** Lerp at the end points (C8) *)

Lemma sub_finite_inv (x y : float32) :
  is_finite (x - y) = true -> is_finite x = true /\ is_finite y = true.
Proof.
  destruct x as [sx|sx| |sx mx ex], y as [sy|sy| |sy my ey];
    try (intros _; split; reflexivity); cbn;
    try discriminate; try (destruct sx; discriminate);
    try (destruct sx, sy; discriminate).
Qed.

Lemma eqb_refl_finite (x : float32) : is_finite x = true -> (x =? x) = true.
Proof.
  destruct x as [sx|sx| |sx mx ex]; try discriminate; intros _; [reflexivity|].
  cbn. unfold SFeqb; cbn.
  rewrite Z.compare_refl, Pos.compare_cont_refl. now destruct sx.
Qed.

Lemma mul_zero_r (d : float32) :
  is_finite d = true -> exists s, (d * $0 = S754_zero s)%flt.
Proof.
  destruct d as [sd|sd| |sd md ed]; try discriminate; intros _;
    eexists; reflexivity.
Qed.

Lemma add_zero_r (a : float32) (s : bool) :
  is_finite a = true -> (a + S754_zero s =? a) = true.
Proof.
  destruct a as [sa|sa| |sa ma ea]; try discriminate; intros _.
  - now destruct sa, s.
  - change (S754_finite sa ma ea + S754_zero s)%flt with (S754_finite sa ma ea).
    now apply eqb_refl_finite.
Qed.

(** In binary32, [Lerp(a, b, 0) == a] as soon as [b - a] is finite. *)
Lemma Lerp_0_binary32 (a b : float32) :
  finite_difference a b = true -> (MathHelper.Lerp a b $0 =? a) = true.
Proof.
  unfold finite_difference, MathHelper.Lerp. intros Hd.
  destruct (sub_finite_inv _ _ Hd) as [_ Ha].
  destruct (mul_zero_r _ Hd) as [s Hs]. rewrite Hs.
  now apply add_zero_r.
Qed.

Lemma sub_self_finite (a : float32) :
  is_finite a = true -> exists s, (a - a = S754_zero s)%flt.
Proof.
  destruct a as [sa|sa| |sa ma ea]; try discriminate; intros _.
  - exists false. now destruct sa.
  - exists false.
    change (SFsub prec emax (S754_finite sa ma ea) (S754_finite sa ma ea) = S754_zero false).
    unfold SFsub. rewrite Z.sub_diag. reflexivity.
Qed.

Lemma eqb_finite_inv (sx sa : bool) (mx ma : positive) (ex ea : Z) :
  SFeqb (S754_finite sx mx ex) (S754_finite sa ma ea) = true ->
  sx = sa /\ mx = ma /\ ex = ea.
Proof.
  unfold SFeqb, SFcompare.
  destruct sx, sa; try discriminate;
    destruct (Z.compare_spec ex ea) as [He|He|He]; try discriminate;
    change (Pos.compare_cont Eq mx ma) with (Pos.compare mx ma);
    destruct (Pos.compare_spec mx ma) as [Hm|Hm|Hm]; try discriminate;
    intros _; auto.
Qed.

Lemma eqb_sub_zero (x a : float32) :
  is_finite a = true -> (x =? a) = true -> exists s, (x - a = S754_zero s)%flt.
Proof.
  intros Ha Hx. change (SFeqb x a = true) in Hx.
  destruct a as [sa|sa| |sa ma ea]; try discriminate Ha.
  - destruct x as [sx|sx| |sx mx ex]; try discriminate Hx;
      try (destruct sx; discriminate Hx).
    destruct sx, sa; eexists; reflexivity.
  - destruct x as [sx|sx| |sx mx ex]; try discriminate Hx;
      try (destruct sx, sa; discriminate Hx).
    apply eqb_finite_inv in Hx. destruct Hx as (-> & -> & ->).
    apply (sub_self_finite (S754_finite sa ma ea)); reflexivity.
Qed.

(** Two scalars that compare equal are within every positive Epsilon. *)
Lemma EqualWithinEpsilon_of_eqb (eps x a : float32) :
  is_finite a = true -> (x =? a) = true -> ($0 <? eps) = true ->
  MathHelper.EqualWithinEpsilon eps x a = true.
Proof.
  intros Ha Hx Heps. unfold MathHelper.EqualWithinEpsilon.
  destruct (eqb_sub_zero x a Ha Hx) as [s Hs]. rewrite Hs.
  destruct eps as [se|se| |se me ee], s; cbn in *;
    try discriminate; try reflexivity; destruct se; try discriminate; reflexivity.
Qed.

Lemma Lerp_0_within_Epsilon (eps a b : float32) :
  finite_difference a b = true -> ($0 <? eps) = true ->
  MathHelper.EqualWithinEpsilon eps (MathHelper.Lerp a b $0) a = true.
Proof.
  intros Hd Heps. apply EqualWithinEpsilon_of_eqb; [|now apply Lerp_0_binary32|exact Heps].
  now destruct (sub_finite_inv _ _ Hd).
Qed.

Lemma Lerp_exact (a b : Q) :
  (MathHelper.Lerp a b $0 == a)%Q /\ (MathHelper.Lerp a b $1 == b)%Q.
Proof.
  unfold MathHelper.Lerp. rewrite !ofZ_exact.
  unfold add, sub, mul. cbn [Exact.scalar]. split; ring.
Qed.

Lemma Lerp_exact_eqb (a b : Q) :
  (MathHelper.Lerp a b $0 =? a) = true /\ (MathHelper.Lerp a b $1 =? b) = true.
Proof.
  destruct (Lerp_exact a b) as [H0 H1].
  split; apply Qeq_bool_iff; assumption.
Qed.

Lemma Vector2_Lerp_components {F} `{Scalar F} (v1 v2 : Vector2 F) (t : F) :
  Vector2.Lerp v1 v2 t
  = mkVector2 (MathHelper.Lerp v1.(v2X) v2.(v2X) t) (MathHelper.Lerp v1.(v2Y) v2.(v2Y) t).
Proof. reflexivity. Qed.

(** C8, the end points.  In binary32, [Lerp(a, b, 0) == a] holds for the vector,
    quaternion (under every positive Epsilon) and matrix Lerp whenever every
    component difference [b - a] is finite.  In exact arithmetic both end
    points hold for all arguments: [Lerp(a, b, 0) == a] and
    [Lerp(a, b, 1) == b]. *)
Theorem C8_Lerp_endpoints
    (a2 b2 : Vector2 float32) (a4 b4 : Vector4 float32)
    (qa qb : Quaternion float32) (ma mb : Matrix float32) (Epsilon : float32)
    (x2 y2 : Vector2 Q) (x4 y4 : Vector4 Q) (qx qy : Quaternion Q)
    (mx my : Matrix Q) (eps : Q) :
  Vector2_finite_difference a2 b2 = true ->
  Vector4_finite_difference a4 b4 = true ->
  Quaternion_finite_difference qa qb = true ->
  Matrix_finite_difference ma mb = true ->
  ($0 <? Epsilon) = true ->
  (0 < eps)%Q ->
  (Vector2.op_eq (Vector2.Lerp a2 b2 $0) a2 = true
   /\ Vector4.op_eq (Vector4.Lerp a4 b4 $0) a4 = true
   /\ Quaternion.op_eq Epsilon (Quaternion.Lerp qa qb $0) qa = true
   /\ Matrix.op_eq (Matrix.Lerp ma mb $0) ma = true)
  /\ (Vector2.op_eq (Vector2.Lerp x2 y2 $0) x2 = true
      /\ Vector4.op_eq (Vector4.Lerp x4 y4 $0) x4 = true
      /\ Quaternion.op_eq eps (Quaternion.Lerp qx qy $0) qx = true
      /\ Matrix.op_eq (Matrix.Lerp mx my $0) mx = true)
  /\ (Vector2.op_eq (Vector2.Lerp x2 y2 $1) y2 = true
      /\ Vector4.op_eq (Vector4.Lerp x4 y4 $1) y4 = true
      /\ Quaternion.op_eq eps (Quaternion.Lerp qx qy $1) qy = true
      /\ Matrix.op_eq (Matrix.Lerp mx my $1) my = true).
Proof.
  intros H2 H4 Hq Hm HE He.
  unfold Vector2_finite_difference in H2. unfold Vector4_finite_difference in H4.
  unfold Quaternion_finite_difference in Hq. unfold Matrix_finite_difference in Hm.
  repeat rewrite andb_true_iff in H2. repeat rewrite andb_true_iff in H4.
  repeat rewrite andb_true_iff in Hq. repeat rewrite andb_true_iff in Hm.
  split; [|split].
  - rewrite Vector2_Lerp_components.
    unfold Vector2.op_eq, Vector4.op_eq, Quaternion.op_eq, Matrix.op_eq,
      Vector4.Lerp, Quaternion.Lerp, Matrix.Lerp.
    cbn [v2X v2Y v4X v4Y v4Z v4W qX qY qZ qW
         M11 M12 M13 M14 M21 M22 M23 M24 M31 M32 M33 M34 M41 M42 M43 M44].
    rewrite !andb_true_iff.
    repeat apply conj;
      first [apply Lerp_0_binary32 | apply Lerp_0_within_Epsilon; [|exact HE]];
      tauto.
  - rewrite Vector2_Lerp_components.
    unfold Vector2.op_eq, Vector4.op_eq, Quaternion.op_eq, Matrix.op_eq,
      Vector4.Lerp, Quaternion.Lerp, Matrix.Lerp.
    cbn [v2X v2Y v4X v4Y v4Z v4W qX qY qZ qW
         M11 M12 M13 M14 M21 M22 M23 M24 M31 M32 M33 M34 M41 M42 M43 M44].
    rewrite !andb_true_iff.
    repeat apply conj;
      first [apply Lerp_exact_eqb
            | apply EqualWithinEpsilon_exact; [apply Lerp_exact|exact He]].
  - rewrite Vector2_Lerp_components.
    unfold Vector2.op_eq, Vector4.op_eq, Quaternion.op_eq, Matrix.op_eq,
      Vector4.Lerp, Quaternion.Lerp, Matrix.Lerp.
    cbn [v2X v2Y v4X v4Y v4Z v4W qX qY qZ qW
         M11 M12 M13 M14 M21 M22 M23 M24 M31 M32 M33 M34 M41 M42 M43 M44].
    rewrite !andb_true_iff.
    repeat apply conj;
      first [apply Lerp_exact_eqb
            | apply EqualWithinEpsilon_exact; [apply Lerp_exact|exact He]].
Qed.

Lemma C8_Lerp_endpoints_witness :
  (Vector2.op_eq (Vector2.Lerp (v2 1 2) (v2 3 5) $0) (v2 1 2) = true
   /\ Vector4.op_eq (Vector4.Lerp (v4 1 2 3 4) (v4 5 6 7 9) $0) (v4 1 2 3 4) = true
   /\ Quaternion.op_eq small
        (Quaternion.Lerp (q_of $1) (q_of small) $0) (q_of $1) = true
   /\ Matrix.op_eq
        (Matrix.Lerp Matrix.Identity (Matrix.CreateScale small) $0) Matrix.Identity = true)
  /\ (Vector2.op_eq (Vector2.Lerp (mkVector2 $1 $2) (mkVector2 $3 $5) $0)
        (mkVector2 $1 $2 : Vector2 Q) = true
      /\ Vector4.op_eq (Vector4.Lerp (mkVector4 $1 $2 $3 $4) (mkVector4 $5 $6 $7 $9) $0)
           (mkVector4 $1 $2 $3 $4 : Vector4 Q) = true
      /\ Quaternion.op_eq (1 # 1000)%Q
           (Quaternion.Lerp (mkQuaternion $0 $0 $0 $1) (mkQuaternion $1 $0 $0 $0) $0)
           (mkQuaternion $0 $0 $0 $1) = true
      /\ Matrix.op_eq (Matrix.Lerp Matrix.Identity exact_diagonal $0) Matrix.Identity = true)
  /\ (Vector2.op_eq (Vector2.Lerp (mkVector2 $1 $2) (mkVector2 $3 $5) $1)
        (mkVector2 $3 $5 : Vector2 Q) = true
      /\ Vector4.op_eq (Vector4.Lerp (mkVector4 $1 $2 $3 $4) (mkVector4 $5 $6 $7 $9) $1)
           (mkVector4 $5 $6 $7 $9 : Vector4 Q) = true
      /\ Quaternion.op_eq (1 # 1000)%Q
           (Quaternion.Lerp (mkQuaternion $0 $0 $0 $1) (mkQuaternion $1 $0 $0 $0) $1)
           (mkQuaternion $1 $0 $0 $0) = true
      /\ Matrix.op_eq (Matrix.Lerp Matrix.Identity exact_diagonal $1) exact_diagonal = true).
Proof.
  apply (C8_Lerp_endpoints
           (v2 1 2) (v2 3 5) (v4 1 2 3 4) (v4 5 6 7 9)
           (q_of $1) (q_of small) Matrix.Identity (Matrix.CreateScale small) small
           (mkVector2 $1 $2) (mkVector2 $3 $5)
           (mkVector4 $1 $2 $3 $4) (mkVector4 $5 $6 $7 $9)
           (mkQuaternion $0 $0 $0 $1) (mkQuaternion $1 $0 $0 $0)
           Matrix.Identity exact_diagonal (1 # 1000)%Q);
    vm_compute; reflexivity.
Defined.

(** C8, in binary32.  [Lerp(1, 2^-30, 1)] is 0, not 2^-30, because
    [2^-30 - 1] rounds to -1; so [Lerp(a, b, 1) == b] fails for the vectors
    and the matrices.  With a = -2^127 and b = 2^127 the difference
    overflows: [Lerp(a, b, 1)] is +infinity and [Lerp(a, b, 0)] is NaN, which
    no Epsilon accepts as equal to [b] or to [a]. *)
Lemma C8_Lerp_binary32_counterexample :
  MathHelper.Lerp $1 small $1 = S754_zero false
  /\ Vector2.op_eq (Vector2.Lerp (v2 1 1) (mkVector2 small small) $1)
       (mkVector2 small small) = false
  /\ Vector4.op_eq (Vector4.Lerp (v4 1 1 1 1) (mkVector4 small small small small) $1)
       (mkVector4 small small small small) = false
  /\ Matrix.op_eq (Matrix.Lerp Matrix.Identity (Matrix.CreateScale small) $1)
       (Matrix.CreateScale small) = false
  /\ ~ (exists Epsilon : float32,
          Quaternion.op_eq Epsilon
            (Quaternion.Lerp (q_of (- huge)) (q_of huge) $1) (q_of huge) = true)
  /\ ~ (exists Epsilon : float32,
          Quaternion.op_eq Epsilon
            (Quaternion.Lerp (q_of (- huge)) (q_of huge) $0) (q_of (- huge)) = true)
  /\ Matrix.op_eq (Matrix.Lerp (Matrix.CreateScale (- huge)) (Matrix.CreateScale huge) $0)
       (Matrix.CreateScale (- huge)) = false.
Proof.
  assert (H1 : MathHelper.Lerp (- huge) huge $1 = S754_infinity false)
    by (vm_compute; reflexivity).
  assert (H0 : MathHelper.Lerp (- huge) huge $0 = S754_nan)
    by (vm_compute; reflexivity).
  repeat apply conj; try (vm_compute; reflexivity).
  - intros [eps H]. apply Quaternion_op_eq_iff in H. destruct H as [H _].
    cbn [Quaternion.Lerp q_of qX] in H. rewrite H1 in H.
    destruct eps as [s|s| |s m e]; try destruct s; discriminate H.
  - intros [eps H]. apply Quaternion_op_eq_iff in H. destruct H as [H _].
    cbn [Quaternion.Lerp q_of qX] in H. rewrite H0 in H.
    destruct eps as [s|s| |s m e]; try destruct s; discriminate H.
Qed.

(** ** Quaternion::Slerp (C1) *)

Lemma mul_nan_l (x : float32) : (S754_nan * x = S754_nan)%flt.
Proof. reflexivity. Qed.

Lemma add_nan_l (x : float32) : (S754_nan + x = S754_nan)%flt.
Proof. reflexivity. Qed.

Lemma add_nan_r (x : float32) : (x + S754_nan = S754_nan)%flt.
Proof. now destruct x. Qed.

Lemma sub_nan_l (x : float32) : (S754_nan - x = S754_nan)%flt.
Proof. reflexivity. Qed.

Lemma zero_or_nan_mul (x y : float32) :
  zero_or_nan x = true -> zero_or_nan (x * y) = true.
Proof. destruct x, y; try discriminate; reflexivity. Qed.

Lemma zero_or_nan_add (x y : float32) :
  zero_or_nan x = true -> zero_or_nan y = true -> zero_or_nan (x + y) = true.
Proof. destruct x as [[|]| | |], y as [[|]| | |]; try discriminate; reflexivity. Qed.

Lemma zero_or_nan_sqrt (x : float32) :
  zero_or_nan x = true -> zero_or_nan (SFsqrt prec emax x) = true.
Proof. destruct x; try discriminate; reflexivity. Qed.

Lemma zero_or_nan_div (x y : float32) :
  zero_or_nan x = true -> zero_or_nan y = true -> (x / y = S754_nan)%flt.
Proof. destruct x, y; try discriminate; reflexivity. Qed.

(** The two branches of [Slerp], as written. *)
Lemma Slerp_branches {F} `{Scalar F} `{Libm F} (from to : Quaternion F) (t : F) :
  Quaternion.Slerp from to t
  = if Quaternion.Dot from to <? lit 999 1000
    then Quaternion.Lerp from to t
    else Quaternion.op_mul
           (Quaternion.QPow (Quaternion.op_mul to (Quaternion.Inverse from)) t) from.
Proof. reflexivity. Qed.

(** With [from = to = Identity] the logarithm of [to * Inverse(from)] has a
    zero vector part, whose normalisation in [QExp] divides 0 by 0. *)
Lemma Slerp_Identity_X_nan (sin cos acos log exp : float32 -> float32) :
  (Quaternion.Slerp (LM := libm sin cos acos log exp) q_Identity q_Identity half).(qX)
  = S754_nan.
Proof.
  rewrite Slerp_branches.
  assert (Hd : (Quaternion.Dot q_Identity q_Identity <? lit 999 1000) = false)
    by (vm_compute; reflexivity).
  rewrite Hd.
  let v := eval vm_compute in (Quaternion.op_mul q_Identity (Quaternion.Inverse q_Identity))
  in change (Quaternion.op_mul q_Identity (Quaternion.Inverse q_Identity)) with v.
  unfold Quaternion.QPow, Quaternion.QLn. cbv zeta.
  cbn [qX qY qZ qW].
  set (A := acosf _). set (L := logf _).
  cbv [Quaternion.QExp Quaternion.op_mul_scalar Quaternion.op_mul_assign_scalar
       Quaternion.of_xyz_w Vector3.op_mul_scalar Vector3.op_div_scalar Vector3.Length
       Vector3.LengthSquared Quaternion.op_mul Quaternion.op_mul_assign
       q_Identity Quaternion.Identity qX qY qZ qW v3X v3Y v3Z].
  set (z := S754_zero false).
  assert (Hx : zero_or_nan (z * A * half) = true)
    by (do 2 apply zero_or_nan_mul; reflexivity).
  set (x := z * A * half) in *.
  set (len := sqrtf _).
  assert (Hlen : zero_or_nan len = true).
  { subst len. cbn [sqrtf libm]. apply zero_or_nan_sqrt.
    repeat apply zero_or_nan_add; apply zero_or_nan_mul; exact Hx. }
  rewrite (zero_or_nan_div x len Hx Hlen).
  rewrite ?mul_nan_l, ?add_nan_r, ?add_nan_l, ?sub_nan_l.
  reflexivity.
Qed.

(** C1: the test of [Slerp] is the wrong way round: Lerp is returned when
    the dot product is below 0.999f and the logarithm/exponential form
    otherwise.  The identity quaternion with itself has the dot product
    1 >= 0.999f, yet the code takes the logarithm/exponential branch (and
    returns NaN components where Lerp returns the identity); the
    quaternions (0,0,0,1) and (1,0,0,0), whose dot product 0 is below the
    threshold, get Lerp. *)
Theorem C1_Slerp_threshold_inverted (sin cos acos log exp : float32 -> float32)
    (from to : Quaternion float32) (t : float32) :
  Quaternion.Slerp (LM := libm sin cos acos log exp) from to t
  = (if Quaternion.Dot from to <? lit 999 1000
     then Quaternion.Lerp from to t
     else Quaternion.op_mul
            (Quaternion.QPow (LM := libm sin cos acos log exp)
               (Quaternion.op_mul to (Quaternion.Inverse from)) t) from)
  /\ (Quaternion.Dot q_Identity q_Identity >=? lit 999 1000) = true
  /\ Quaternion.Lerp q_Identity q_Identity half = mkQuaternion $0 $0 $0 $1
  /\ (Quaternion.Slerp (LM := libm sin cos acos log exp) q_Identity q_Identity half).(qX)
     = S754_nan
  /\ Quaternion.Slerp (LM := libm sin cos acos log exp) q_Identity q_Identity half
     <> Quaternion.Lerp q_Identity q_Identity half
  /\ (Quaternion.Dot q_Identity q_100 <? lit 999 1000) = true
  /\ Quaternion.Slerp (LM := libm sin cos acos log exp) q_Identity q_100 half
     = Quaternion.Lerp q_Identity q_100 half.
Proof.
  assert (HL : Quaternion.Lerp q_Identity q_Identity half = mkQuaternion $0 $0 $0 $1)
    by (vm_compute; reflexivity).
  pose proof (Slerp_Identity_X_nan sin cos acos log exp) as HX.
  repeat apply conj.
  - reflexivity.
  - vm_compute; reflexivity.
  - exact HL.
  - exact HX.
  - intros E. rewrite E, HL in HX. discriminate HX.
  - vm_compute; reflexivity.
  - rewrite Slerp_branches.
    assert (Hd : (Quaternion.Dot q_Identity q_100 <? lit 999 1000) = true)
      by (vm_compute; reflexivity).
    now rewrite Hd.
Qed.

(** ** Matrix::Decompose: the computed lengths *)

Lemma shr_1_nonneg (mrs : shr_record) :
  (0 <= shr_m mrs)%Z -> (0 <= shr_m (shr_1 mrs))%Z.
Proof.
  destruct mrs as [m r s]. cbn [shr_m]. 
  destruct m as [|[p|p|]|p]; cbn; lia.
Qed.

Lemma iter_pos_shr_1_nonneg (p : positive) :
  forall mrs, (0 <= shr_m mrs)%Z -> (0 <= shr_m (iter_pos shr_1 p mrs))%Z.
Proof.
  induction p as [p IH|p IH|]; intros mrs H; cbn [iter_pos].
  - apply IH, IH, shr_1_nonneg, H.
  - apply IH, IH, H.
  - apply shr_1_nonneg, H.
Qed.

Lemma shr_fexp_nonneg (m e : Z) (l : location) :
  (0 <= m)%Z -> (0 <= shr_m (fst (shr_fexp prec emax m e l)))%Z.
Proof.
  intros H. unfold shr_fexp, shr.
  assert (H0 : (0 <= shr_m (shr_record_of_loc m l))%Z) by (destruct l as [|[]]; exact H).
  destruct (fexp prec emax (Zdigits2 m + e) - e)%Z; cbn [fst]; try exact H0.
  now apply iter_pos_shr_1_nonneg.
Qed.

Lemma round_nearest_even_nonneg (m : Z) (l : location) :
  (0 <= m)%Z -> (0 <= round_nearest_even m l)%Z.
Proof.
  intros H. destruct l as [|[]]; cbn; try exact H; try lia.
  destruct (Z.even m); lia.
Qed.

Lemma binary_round_aux_signed (s : bool) (m e : Z) (l : location) :
  (0 <= m)%Z -> signed s (binary_round_aux prec emax s m e l) = true.
Proof.
  intros H. unfold binary_round_aux.
  pose proof (shr_fexp_nonneg m e l H) as H1.
  destruct (shr_fexp prec emax m e l) as [mrs' e']. cbn [fst] in H1.
  pose proof (round_nearest_even_nonneg (shr_m mrs') (loc_of_shr_record mrs') H1) as H2.
  pose proof (shr_fexp_nonneg _ e' loc_Exact H2) as H3.
  destruct (shr_fexp prec emax _ e' loc_Exact) as [mrs'' e'']. cbn [fst] in H3.
  destruct (shr_m mrs'') as [|p|p].
  - cbn. apply eqb_reflx.
  - destruct (e'' <=? emax - prec)%Z; cbn; apply eqb_reflx.
  - lia.
Qed.

Lemma mul_self_nonneg (x : float32) :
  is_nan x = false -> nonneg (x * x) = true.
Proof.
  destruct x as [s|s| |s m e]; try discriminate; intros _.
  - now destruct s.
  - now destruct s.
  - change (nonneg (binary_round_aux prec emax (xorb s s) (Z.pos (m * m)) (e + e) loc_Exact) = true).
    rewrite xorb_nilpotent.
    pose proof (binary_round_aux_signed false (Z.pos (m * m)) (e + e) loc_Exact ltac:(lia)) as H.
    destruct (binary_round_aux _ _ _ _ _ _) as [s'|s'| |s' m' e']; try discriminate H;
      cbn in H; destruct s'; try discriminate H; reflexivity.
Qed.

Lemma add_nonneg (x y : float32) :
  nonneg x = true -> nonneg y = true -> nonneg (x + y) = true.
Proof.
  destruct x as [sx|[|]| |[|] mx ex], y as [sy|[|]| |[|] my ey]; try discriminate; intros _ _;
    try reflexivity.
  - now destruct sx, sy.
  - change (nonneg (binary_normalize prec emax
      (Z.pos (fst (shl_align mx ex (Z.min ex ey))) + Z.pos (fst (shl_align my ey (Z.min ex ey))))
      (Z.min ex ey) false) = true).
    cbn [Z.add]. unfold binary_normalize, binary_round.
    destruct (shl_align _ _ _) as [mz ez].
    pose proof (binary_round_aux_signed false (Z.pos mz) ez loc_Exact ltac:(lia)) as H.
    destruct (binary_round_aux _ _ _ _ _ _) as [s'|s'| |s' m' e']; try discriminate H;
      cbn in H; destruct s'; try discriminate H; reflexivity.
Qed.

Lemma sqrt_nonneg (x : float32) :
  nonneg x = true -> nonneg (SFsqrt prec emax x) = true.
Proof.
  destruct x as [s|[|]| |[|] m e]; try discriminate; intros _; try reflexivity.
  unfold SFsqrt.
  destruct (SFsqrt_core_binary prec emax (Z.pos m) e) as [[mz ez] lz] eqn:E.
  assert (Hmz : (0 <= mz)%Z).
  { unfold SFsqrt_core_binary in E.
    destruct (Z.sqrtrem _) as [q r] eqn:Eq. inversion E; subst.
    pose proof (Z.sqrtrem_sqrt) as Hs. 
    match type of Eq with Z.sqrtrem ?a = _ => specialize (Hs a); rewrite Eq in Hs end.
    cbn [fst] in Hs. rewrite Hs. apply Z.sqrt_nonneg. }
  pose proof (binary_round_aux_signed false mz ez lz Hmz) as H.
  destruct (binary_round_aux _ _ _ _ _ _) as [s'|s'| |s' m' e']; try discriminate H;
    cbn in H; destruct s'; try discriminate H; reflexivity.
Qed.

Lemma nonneg_not_nan (x : float32) : nonneg x = true -> is_nan x = false.
Proof. now destruct x. Qed.

Lemma nonneg_leb (x : float32) : nonneg x = true -> ($0 <=? x) = true.
Proof. destruct x as [s|[|]| |[|] m e]; try discriminate; reflexivity. Qed.

Lemma Length_nan (sin cos acos log exp : float32 -> float32) (v : Vector3 float32) :
  is_nan (Vector3.Length (LM := libm sin cos acos log exp) v)
  = is_nan v.(v3X) || is_nan v.(v3Y) || is_nan v.(v3Z).
Proof.
  destruct v as [x y z]. unfold Vector3.Length, Vector3.LengthSquared. cbn [v3X v3Y v3Z sqrtf libm].
  destruct (is_nan x) eqn:Ex.
  { destruct x; try discriminate. reflexivity. }
  destruct (is_nan y) eqn:Ey.
  { destruct y; try discriminate. rewrite mul_nan_l, add_nan_r. reflexivity. }
  destruct (is_nan z) eqn:Ez.
  { destruct z; try discriminate. rewrite mul_nan_l, add_nan_r. reflexivity. }
  apply nonneg_not_nan, sqrt_nonneg. repeat apply add_nonneg; now apply mul_self_nonneg.
Qed.

Lemma Length_nonneg (sin cos acos log exp : float32 -> float32) (v : Vector3 float32) :
  ($0 <=? Vector3.Length (LM := libm sin cos acos log exp) v)
  = negb (is_nan (Vector3.Length (LM := libm sin cos acos log exp) v)).
Proof.
  destruct (is_nan (Vector3.Length v)) eqn:E.
  - destruct (Vector3.Length v); try discriminate. reflexivity.
  - rewrite Length_nan in E. apply orb_false_iff in E. destruct E as [E Ez].
    apply orb_false_iff in E. destruct E as [Ex Ey].
    apply nonneg_leb. destruct v as [x y z]. cbn [v3X v3Y v3Z] in *.
    unfold Vector3.Length, Vector3.LengthSquared. cbn [v3X v3Y v3Z sqrtf libm].
    apply sqrt_nonneg. repeat apply add_nonneg; now apply mul_self_nonneg.
Qed.
Lemma Length_not_negative (sin cos acos log exp : float32 -> float32)
    (v : Vector3 float32) :
  (Vector3.Length (LM := libm sin cos acos log exp) v <? $0) = false.
Proof.
  pose proof (Length_nonneg sin cos acos log exp v) as H.
  destruct (is_nan (Vector3.Length v)) eqn:E.
  - destruct (Vector3.Length v); try discriminate E. reflexivity.
  - apply ltb_false_iff. right. right. exact H.
Qed.

(** [Decompose] on the lengths as the code computes them: it returns false
    exactly when sqrtf(X*X + Y*Y + Z*Z) of one of the three basis rows
    compares equal to zero; then the rotation is set to the identity
    quaternion and the scale and the translation keep the values they had.
    Otherwise it returns true, the scale is the three computed lengths and
    the translation is (M41, M42, M43).  No computed length is negative; the
    three are >= 0 exactly when no entry of the basis rows is NaN (a NaN
    entry gives a NaN length). *)
Lemma Decompose_computed_lengths (sin cos acos log exp : float32 -> float32)
    (m : Matrix float32) (s : Vector3 float32) (r : Quaternion float32)
    (t : Vector3 float32) :
  let LM := libm sin cos acos log exp in
  let d : Decomposed := Matrix.Decompose m s r t in
  (flag_of d = false <-> some_zero (row_lengths m) = true)
  /\ scale_of d = (if flag_of d then row_lengths m else s)
  /\ translation_of d = (if flag_of d then mkVector3 m.(M41) m.(M42) m.(M43) else t)
  /\ (if flag_of d then True else rotation_of d = Quaternion.Identity)
  /\ none_negative (row_lengths m) = true
  /\ all_nonneg (row_lengths m)
     = no_nan (basis_row1 m) && no_nan (basis_row2 m) && no_nan (basis_row3 m).
Proof.
  intros LM d.
  assert (Hd : d = if some_zero (row_lengths m)
                   then (false, (s, Quaternion.Identity, t))
                   else (true, (row_lengths m, rotation_of d,
                                mkVector3 m.(M41) m.(M42) m.(M43)))).
  { subst d. unfold Matrix.Decompose. cbv zeta.
    change (sqrtf (M11 m * M11 m + M12 m * M12 m + M13 m * M13 m))
      with (v3X (row_lengths m)).
    change (sqrtf (M21 m * M21 m + M22 m * M22 m + M23 m * M23 m))
      with (v3Y (row_lengths m)).
    change (sqrtf (M31 m * M31 m + M32 m * M32 m + M33 m * M33 m))
      with (v3Z (row_lengths m)).
    fold (some_zero (row_lengths m)).
    destruct (some_zero (row_lengths m)); reflexivity. }
  split; [|split; [|split; [|split; [|split]]]].
  - rewrite Hd. destruct (some_zero (row_lengths m)); cbn; intuition discriminate.
  - rewrite Hd. now destruct (some_zero (row_lengths m)).
  - rewrite Hd. now destruct (some_zero (row_lengths m)).
  - rewrite Hd. now destruct (some_zero (row_lengths m)).
  - subst d LM. unfold none_negative, row_lengths. cbn [v3X v3Y v3Z].
    now rewrite !Length_not_negative.
  - subst d LM. unfold all_nonneg, row_lengths, no_nan. cbn [v3X v3Y v3Z].
    rewrite !Length_nonneg, !Length_nan. reflexivity.
Qed.

(** ** MathHelper::WrapAngle (C7) *)

Local Open Scope Z_scope.

Lemma dg_bounds (p : positive) : 2 ^ (dg p - 1) <= Zpos p < 2 ^ dg p.
Proof.
  unfold dg. induction p as [p IH|p IH|]; cbn [digits2_pos].
  - rewrite Pos2Z.inj_succ.
    replace (Z.succ (Z.pos (digits2_pos p)) - 1) with (Z.succ (Z.pos (digits2_pos p) - 1)) by lia.
    rewrite !Z.pow_succ_r by lia. lia.
  - rewrite Pos2Z.inj_succ.
    replace (Z.succ (Z.pos (digits2_pos p)) - 1) with (Z.succ (Z.pos (digits2_pos p) - 1)) by lia.
    rewrite !Z.pow_succ_r by lia. lia.
  - cbn. lia.
Qed.

Lemma dg_le (p : positive) (n : Z) : Zpos p < 2 ^ n -> dg p <= n.
Proof.
  intros H. destruct (dg_bounds p) as [H1 _].
  destruct (Z.le_gt_cases (dg p) n) as [|Hgt]; [assumption|].
  assert (2 ^ n <= 2 ^ (dg p - 1)) by (apply Z.pow_le_mono_r; lia).
  lia.
Qed.

Lemma dg_shift (p d : positive) : dg (Pos.iter xO p d) = dg p + Zpos d.
Proof.
  unfold dg. revert p. induction d as [|d IH] using Pos.peano_ind; intros p.
  - cbn. lia.
  - rewrite Pos.iter_succ. cbn [digits2_pos]. rewrite Pos2Z.inj_succ, IH. lia.
Qed.

Lemma Zpos_shift (p d : positive) : Zpos (Pos.iter xO p d) = Zpos p * 2 ^ Zpos d.
Proof.
  revert p. induction d as [|d IH] using Pos.peano_ind; intros p.
  - cbn. lia.
  - rewrite Pos.iter_succ, Pos2Z.inj_xO, IH, Pos2Z.inj_succ, Z.pow_succ_r by lia. lia.
Qed.

(** [shl_align]: the mantissa at the smaller of the two exponents. *)
Lemma shl_align_spec (m : positive) (e e' : Z) :
  snd (shl_align m e e') = Z.min e e'
  /\ Zpos (fst (shl_align m e e')) = Zpos m * 2 ^ (e - Z.min e e')
  /\ dg (fst (shl_align m e e')) = dg m + (e - Z.min e e').
Proof.
  unfold shl_align. destruct (e' - e) as [|d|d] eqn:E; cbn [fst snd].
  - replace (Z.min e e') with e by lia. rewrite Z.sub_diag. cbn. lia.
  - replace (Z.min e e') with e by lia. rewrite Z.sub_diag. cbn. lia.
  - replace (Z.min e e') with e' by lia.
    replace (e - e') with (Zpos d) by lia.
    rewrite Zpos_shift, dg_shift. lia.
Qed.

Lemma fexp_32 (x : Z) : fexp prec emax x = Z.max (x - 24) (-149).
Proof. reflexivity. Qed.

(** A canonical mantissa is left as it is by the rounding. *)
Lemma binary_round_aux_canonical (s : bool) (m : positive) (e : Z) :
  bounded prec emax m e = true ->
  binary_round_aux prec emax s (Zpos m) e loc_Exact = S754_finite s m e.
Proof.
  unfold bounded, canonical_mantissa. intros H.
  apply andb_true_iff in H. destruct H as [Hc He].
  apply Z.eqb_eq in Hc.
  unfold binary_round_aux, shr_fexp. cbn [Zdigits2 shr_record_of_loc].
  rewrite Hc, Z.sub_diag. cbn [shr shr_m loc_of_shr_record round_nearest_even Zdigits2].
  rewrite Hc, Z.sub_diag. cbn [shr shr_m].
  now rewrite He.
Qed.

Lemma bounded_spec (m : positive) (e : Z) :
  bounded prec emax m e = true <-> (Z.max (dg m + e - 24) (-149) = e /\ e <= 104).
Proof.
  unfold bounded, canonical_mantissa. rewrite andb_true_iff, Z.eqb_eq, Z.leb_le.
  rewrite fexp_32. unfold dg. change (emax - prec) with 104. reflexivity.
Qed.

(** Rounding a number of at most 24 digits that is a multiple of 2^-149
    and below 2^128 is exact. *)
Lemma binary_round_exact (s : bool) (m : positive) (e : Z) :
  dg m <= 24 -> -149 <= e -> dg m + e <= 128 ->
  exists m' e',
    binary_round prec emax s m e = S754_finite s m' e'
    /\ bounded prec emax m' e' = true
    /\ Zpos m' * 2 ^ (e' + 149) = Zpos m * 2 ^ (e + 149).
Proof.
  intros Hd He Hmax. unfold binary_round.
  change (Z.pos (digits2_pos m)) with (dg m).
  set (e0 := fexp prec emax (dg m + e)).
  assert (He0 : e0 = Z.max (dg m + e - 24) (-149)) by reflexivity.
  destruct (shl_align_spec m e e0) as (H1 & H2 & H3).
  destruct (shl_align m e e0) as [mz ez]. cbn [fst snd] in *.
  assert (Hmin : Z.min e e0 = e0) by lia.
  rewrite Hmin in *. subst ez.
  assert (Hb : bounded prec emax mz e0 = true).
  { apply bounded_spec. rewrite H3. split; lia. }
  exists mz, e0. split; [now apply binary_round_aux_canonical|].
  split; [exact Hb|].
  rewrite H2, <- Z.mul_assoc, <- Z.pow_add_r by lia. f_equal. f_equal. lia.
Qed.

Lemma bounded_emin (m : positive) (e : Z) : bounded prec emax m e = true -> -149 <= e.
Proof. intros H. apply bounded_spec in H. lia. Qed.

Lemma bounded_dg (m : positive) (e : Z) : bounded prec emax m e = true -> dg m <= 24.
Proof. intros H. apply bounded_spec in H. lia. Qed.

Lemma bounded_lt_24 (m : positive) (e : Z) :
  bounded prec emax m e = true -> Zpos m < 2 ^ 24.
Proof.
  intros H. apply bounded_dg in H. destruct (dg_bounds m) as [_ H2].
  assert (2 ^ dg m <= 2 ^ 24) by (apply Z.pow_le_mono_r; lia). lia.
Qed.

Lemma U_lt_of_exp (m1 m2 : positive) (e1 e2 : Z) :
  bounded prec emax m1 e1 = true -> bounded prec emax m2 e2 = true ->
  e1 < e2 -> U m1 e1 < U m2 e2.
Proof.
  intros H1 H2 Hlt.
  pose proof (bounded_lt_24 m1 e1 H1) as Hm1.
  apply bounded_spec in H1. apply bounded_spec in H2.
  assert (Hd2 : dg m2 = 24) by lia.
  destruct (dg_bounds m2) as [Hm2 _]. rewrite Hd2 in Hm2.
  unfold U.
  assert (P : 0 < 2 ^ (e1 + 149)) by (apply Z.pow_pos_nonneg; lia).
  assert (K : 0 < 2 ^ (e2 - e1 - 1)) by (apply Z.pow_pos_nonneg; lia).
  replace (e2 + 149) with ((e2 - e1 - 1) + 1 + (e1 + 149)) by lia.
  rewrite (Z.pow_add_r 2 (e2 - e1 - 1 + 1) (e1 + 149)), (Z.pow_add_r 2 (e2 - e1 - 1) 1) by lia.
  change (2 ^ 24) with 16777216 in Hm1. change (2 ^ (24 - 1)) with 8388608 in Hm2.
  change (2 ^ 1) with 2.
  set (p := 2 ^ (e1 + 149)) in *. set (k := 2 ^ (e2 - e1 - 1)) in *.
  assert (Z.pos m1 * p < 16777216 * p) by nia.
  assert (16777216 * p <= Z.pos m2 * (2 * p)) by nia.
  assert (Z.pos m2 * (2 * p) <= Z.pos m2 * (k * 2 * p)) by nia.
  lia.
Qed.

(** On valid positive numbers the comparison is that of the values. *)
Lemma SFcompare_units (m1 m2 : positive) (e1 e2 : Z) :
  bounded prec emax m1 e1 = true -> bounded prec emax m2 e2 = true ->
  SFcompare (S754_finite false m1 e1) (S754_finite false m2 e2)
  = Some (U m1 e1 ?= U m2 e2).
Proof.
  intros H1 H2. cbn [SFcompare].
  destruct (Z.compare_spec e1 e2) as [He|He|He].
  - subst e2. unfold U.
    change (Pos.compare_cont Eq m1 m2) with (Z.pos m1 ?= Z.pos m2).
    f_equal. apply Zmult_compare_compat_r.
    apply Z.lt_gt, Z.pow_pos_nonneg; [lia|]. apply bounded_emin in H1. lia.
  - f_equal. symmetry. apply Z.compare_lt_iff. now apply U_lt_of_exp.
  - f_equal. symmetry. apply Z.compare_gt_iff. now apply U_lt_of_exp.
Qed.

Lemma SFcompare_neg (m1 m2 : positive) (e1 e2 : Z) :
  SFcompare (S754_finite true m1 e1) (S754_finite true m2 e2)
  = SFcompare (S754_finite false m2 e2) (S754_finite false m1 e1).
Proof.
  rewrite (SFcompare_antisym (S754_finite false m1 e1) (S754_finite false m2 e2)).
  cbn. destruct (e1 ?= e2); reflexivity.
Qed.

Lemma UT_UP : UT = 2 * UP.
Proof. reflexivity. Qed.

Lemma pow2_pos (n : Z) : 0 <= n -> 0 < 2 ^ n.
Proof. intros. apply Z.pow_pos_nonneg; lia. Qed.

Lemma pow2_split (a b : Z) : 0 <= a -> 0 <= b -> 2 ^ (a + b) = 2 ^ a * 2 ^ b.
Proof. intros. apply Z.pow_add_r; lia. Qed.

(** [fmodf(val, TwoPi)] of a valid positive number: exact, below TwoPi, and
    congruent to [val]. *)
Lemma fmod_TwoPi_spec (mx : positive) (ex : Z) :
  bounded prec emax mx ex = true ->
  exists q, 0 <= q /\
    ((fmod (S754_finite false mx ex) (S754_finite false 13176795 (-21)) = S754_zero false
      /\ U mx ex = q * UT)
     \/ (exists m' e',
           fmod (S754_finite false mx ex) (S754_finite false 13176795 (-21))
           = S754_finite false m' e'
           /\ bounded prec emax m' e' = true
           /\ U m' e' < UT
           /\ U mx ex = q * UT + U m' e')).
Proof.
  intros Hb.
  pose proof (bounded_emin mx ex Hb) as Hex.
  pose proof (bounded_lt_24 mx ex Hb) as Hmx.
  unfold fmod. cbv zeta.
  set (ez := Z.min ex (-21)).
  destruct (shl_align_spec mx ex ez) as (_ & Hax & _).
  destruct (shl_align_spec 13176795 (-21) ez) as (_ & Hay & _).
  replace (Z.min ex ez) with ez in Hax by lia.
  replace (Z.min (-21) ez) with ez in Hay by lia.
  set (ax := Z.pos (fst (shl_align mx ex ez))) in *.
  set (ay := Z.pos (fst (shl_align 13176795 (-21) ez))) in *.
  assert (Hax0 : 0 < ax) by (subst ax; lia).
  assert (Hay0 : 0 < ay) by (subst ay; lia).
  pose proof (Z.quot_rem' ax ay) as Hqr.
  pose proof (Z.rem_bound_pos ax ay ltac:(lia) Hay0) as HR.
  pose proof (Z.quot_pos ax ay ltac:(lia) Hay0) as Hq.
  set (q := Z.quot ax ay) in *. set (R := Z.rem ax ay) in *.
  assert (Pz : 0 < 2 ^ (ez + 149)) by (apply pow2_pos; lia).
  assert (HU : U mx ex = ax * 2 ^ (ez + 149)).
  { unfold U. rewrite Hax, <- Z.mul_assoc, <- pow2_split by lia. do 2 f_equal. lia. }
  assert (HT : UT = ay * 2 ^ (ez + 149)).
  { unfold UT. rewrite Hay, <- Z.mul_assoc, <- pow2_split by lia. do 2 f_equal. lia. }
  exists q. split; [exact Hq|].
  cbn [cond_Zopp].
  destruct R as [|r|r] eqn:ER.
  - left. split; [reflexivity|]. rewrite HU, HT, Hqr. ring.
  - right. cbn [binary_normalize].
    assert (Hr24 : Z.pos r < 2 ^ 24).
    { destruct (Z.le_gt_cases (-21) ex) as [Hc|Hc].
      - assert (ay = 13176795) by (rewrite Hay; replace (-21 - ez) with 0 by lia; reflexivity).
        change (2 ^ 24) with 16777216. lia.
      - assert (ax = Z.pos mx) by (rewrite Hax; replace (ex - ez) with 0 by lia; lia).
        assert (0 <= ay * q) by (apply Z.mul_nonneg_nonneg; lia). lia. }
    destruct (binary_round_exact false r ez) as (m' & e' & H1 & H2 & H3).
    + now apply dg_le.
    + lia.
    + pose proof (dg_le r 24 Hr24). lia.
    + exists m', e'. split; [exact H1|]. split; [exact H2|].
      unfold U at 1 3. rewrite H3, HU, HT. split; [nia|]. rewrite Hqr. ring.
  - lia.
Qed.

(** [TwoPi - v] for a valid [v] strictly between Pi and TwoPi: exact. *)
Lemma sub_TwoPi_spec (m' : positive) (e' : Z) :
  bounded prec emax m' e' = true -> UP < U m' e' -> U m' e' < UT ->
  exists mg eg,
    SFsub prec emax (S754_finite false 13176795 (-21)) (S754_finite false m' e')
    = S754_finite false mg eg
    /\ bounded prec emax mg eg = true
    /\ U mg eg = UT - U m' e'.
Proof.
  intros Hb Hlo Hhi.
  pose proof (bounded_emin m' e' Hb) as He.
  pose proof (bounded_lt_24 m' e' Hb) as Hm.
  assert (He22 : -22 <= e').
  { destruct (Z.le_gt_cases (-22) e') as [|Hc]; [assumption|exfalso].
    unfold U, UP in Hlo.
    assert (2 ^ (e' + 149) <= 2 ^ 126) by (apply Z.pow_le_mono_r; lia).
    assert (0 < 2 ^ (e' + 149)) by (apply pow2_pos; lia).
    change (2 ^ 24) with 16777216 in Hm.
    assert (Z.pos m' * 2 ^ (e' + 149) <= 16777216 * 2 ^ 126) by nia.
    change (2 ^ 127) with (2 * 2 ^ 126) in Hlo.
    assert (0 < 2 ^ 126) by (apply pow2_pos; lia).
    lia. }
  unfold SFsub. cbv zeta. cbn [cond_Zopp].
  set (ez := Z.min (-21) e').
  destruct (shl_align_spec 13176795 (-21) ez) as (_ & Ha1 & _).
  destruct (shl_align_spec m' e' ez) as (_ & Ha2 & _).
  replace (Z.min (-21) ez) with ez in Ha1 by lia.
  replace (Z.min e' ez) with ez in Ha2 by lia.
  set (a1 := Z.pos (fst (shl_align 13176795 (-21) ez))) in *.
  set (a2 := Z.pos (fst (shl_align m' e' ez))) in *.
  assert (Pz : 0 < 2 ^ (ez + 149)) by (apply pow2_pos; lia).
  assert (HT : UT = a1 * 2 ^ (ez + 149)).
  { unfold UT. rewrite Ha1, <- Z.mul_assoc, <- pow2_split by lia. do 2 f_equal. lia. }
  assert (HU : U m' e' = a2 * 2 ^ (ez + 149)).
  { unfold U. rewrite Ha2, <- Z.mul_assoc, <- pow2_split by lia. do 2 f_equal. lia. }
  assert (HD : (a1 - a2) * 2 ^ (ez + 149) = UT - U m' e') by (rewrite HT, HU; ring).
  assert (HD0 : 0 < a1 - a2) by nia.
  assert (HD24 : a1 - a2 < 2 ^ 24).
  { assert (H127 : 2 ^ 127 <= 2 ^ (ez + 149)) by (apply Z.pow_le_mono_r; lia).
    assert (HUP : UT - U m' e' < 16777216 * 2 ^ 127).
    { rewrite UT_UP. unfold UP in *. assert (0 < 2 ^ 127) by (apply pow2_pos; lia). lia. }
    change (2 ^ 24) with 16777216.
    assert (0 < 2 ^ 127) by (apply pow2_pos; lia).
    nia. }
  destruct (a1 - a2) as [|d|d] eqn:ED; try lia.
  cbn [binary_normalize].
  destruct (binary_round_exact false d ez) as (mg & eg & H1 & H2 & H3).
  - now apply dg_le.
  - lia.
  - pose proof (dg_le d 24 HD24). lia.
  - exists mg, eg. split; [exact H1|]. split; [exact H2|].
    unfold U at 1. rewrite H3. exact HD.
Qed.

Lemma units_TwoPi : units (S754_finite false 13176795 (-21)) = UT.
Proof. reflexivity. Qed.

Lemma U_Pi : U 13176795 (-22) = UP.
Proof. reflexivity. Qed.

Lemma bounded_Pi : bounded prec emax 13176795 (-22) = true.
Proof. reflexivity. Qed.

Lemma SFltb_units (m1 m2 : positive) (e1 e2 : Z) :
  bounded prec emax m1 e1 = true -> bounded prec emax m2 e2 = true ->
  SFltb (S754_finite false m1 e1) (S754_finite false m2 e2) = (U m1 e1 <? U m2 e2).
Proof.
  intros H1 H2. unfold SFltb, Z.ltb. rewrite (SFcompare_units _ _ _ _ H1 H2).
  now destruct (U m1 e1 ?= U m2 e2).
Qed.

Lemma SFleb_units (m1 m2 : positive) (e1 e2 : Z) :
  bounded prec emax m1 e1 = true -> bounded prec emax m2 e2 = true ->
  SFleb (S754_finite false m1 e1) (S754_finite false m2 e2) = (U m1 e1 <=? U m2 e2).
Proof.
  intros H1 H2. unfold SFleb, Z.leb. rewrite (SFcompare_units _ _ _ _ H1 H2).
  now destruct (U m1 e1 ?= U m2 e2).
Qed.

Lemma SFltb_neg (m1 m2 : positive) (e1 e2 : Z) :
  SFltb (S754_finite true m1 e1) (S754_finite true m2 e2)
  = SFltb (S754_finite false m2 e2) (S754_finite false m1 e1).
Proof. unfold SFltb. now rewrite SFcompare_neg. Qed.

Local Close Scope Z_scope.

(** C7, on non-negative inputs: for every valid finite binary32 input [val >= 0] the
    result of [WrapAngle] is a valid finite number in the half-open interval
    (-Pi, Pi] and [val] minus the result is a non-negative integer multiple
    of TwoPi, for the binary32 constants Pi and TwoPi of MathHelper. *)
Theorem C7_WrapAngle_nonnegative (sin cos acos log exp : float32 -> float32)
    (val : float32) :
  valid_binary prec emax val = true ->
  is_finite val = true ->
  ($0 <=? val) = true ->
  let w := MathHelper.WrapAngle (LM := libm sin cos acos log exp) val in
  (- MathHelper.Pi <? w) = true
  /\ (w <=? MathHelper.Pi) = true
  /\ valid_binary prec emax w = true
  /\ is_finite w = true
  /\ exists k : Z, (0 <= k)%Z /\ (units val - units w = k * units MathHelper.TwoPi)%Z.
Proof.
  intros Hv Hf H0 w. subst w.
  unfold MathHelper.WrapAngle. cbv zeta. cbn [fmodf libm].
  rewrite TwoPi_binary32, Pi_binary32.
  change (@ltb float32 Binary32.scalar) with SFltb.
  change (@leb float32 Binary32.scalar) with SFleb.
  change (@neg float32 Binary32.scalar) with SFopp.
  change (@sub float32 Binary32.scalar) with (SFsub prec emax).
  rewrite units_TwoPi.
  destruct val as [s|s| |s mx ex]; try discriminate Hf.
  - (* a zero *)
    change (fmod (S754_zero s) (S754_finite false 13176795 (-21))) with (S754_zero s).
    change (SFltb (S754_finite false 13176795 (-22)) (S754_zero s)) with false.
    cbv iota. repeat apply conj; try reflexivity.
    exists 0%Z. split; [lia|reflexivity].
  - (* a finite number, which is positive *)
    destruct s; [discriminate H0|].
    cbn [valid_binary] in Hv.
    destruct (fmod_TwoPi_spec mx ex Hv) as (q & Hq & [(Hm & HU) | (m' & e' & Hm & Hb & Hlt & HU)]);
      rewrite Hm.
    + change (SFltb (S754_finite false 13176795 (-22)) (S754_zero false)) with false.
      cbv iota. repeat apply conj; try reflexivity.
      exists q. split; [exact Hq|]. cbn [units cond_Zopp]. fold (U mx ex). lia.
    + rewrite (SFltb_units _ _ _ _ bounded_Pi Hb), U_Pi.
      destruct (Z.ltb_spec UP (U m' e')) as [Hc|Hc].
      * (* the remainder is above Pi *)
        destruct (sub_TwoPi_spec m' e' Hb Hc Hlt) as (mg & eg & Hs & Hbg & HUg).
        rewrite Hs. cbn [SFopp negb].
        repeat apply conj; try reflexivity.
        -- rewrite SFltb_neg, (SFltb_units _ _ _ _ Hbg bounded_Pi), U_Pi.
           apply Z.ltb_lt. rewrite HUg, UT_UP. lia.
        -- exact Hbg.
        -- exists (q + 1)%Z. split; [lia|]. cbn [units cond_Zopp].
           fold (U mx ex) (U mg eg). lia.
      * (* the remainder is at most Pi *)
        repeat apply conj; try reflexivity.
        -- rewrite (SFleb_units _ _ _ _ Hb bounded_Pi), U_Pi. now apply Z.leb_le.
        -- exact Hb.
        -- exists q. split; [exact Hq|]. cbn [units cond_Zopp]. fold (U mx ex) (U m' e'). lia.
Qed.

Lemma C7_WrapAngle_nonnegative_witness :
  let w := MathHelper.WrapAngle (LM := libm unused unused unused unused unused) $4 in
  (- MathHelper.Pi <? w) = true
  /\ (w <=? MathHelper.Pi) = true
  /\ valid_binary prec emax w = true
  /\ is_finite w = true
  /\ exists k : Z, (0 <= k)%Z /\ (units $4 - units w = k * units MathHelper.TwoPi)%Z.
Proof.
  apply (C7_WrapAngle_nonnegative unused unused unused unused unused $4); reflexivity.
Defined.

(** C7, on a negative input: -4 is a finite binary32 number and
    [WrapAngle(-4)] is -4 itself, which is not above -Pi. *)
Lemma C7_WrapAngle_negative_counterexample :
  valid_binary prec emax (- $4) = true
  /\ is_finite (- $4) = true
  /\ MathHelper.WrapAngle (LM := libm unused unused unused unused unused) (- $4) = - $4
  /\ ~ (exists sin cos acos log exp : float32 -> float32,
          (- MathHelper.Pi <? MathHelper.WrapAngle (LM := libm sin cos acos log exp) (- $4))
          = true).
Proof.
  repeat apply conj; try (vm_compute; reflexivity).
  intros (sin & cos & acos & log & exp & H).
  vm_compute in H. discriminate H.
Qed.

(** ** Matrix::Decompose: the rows whose length computes to zero (C9) *)

Local Open Scope Z_scope.

Lemma iter_pos_nat {T : Type} (f : T -> T) (p : positive) (x : T) :
  iter_pos f p x = Nat.iter (Pos.to_nat p) f x.
Proof.
  revert x. induction p as [p IH|p IH|]; intros x; cbn [iter_pos].
  - rewrite !IH, Pos2Nat.inj_xI, <- Nat.iter_succ_r.
    replace (S (2 * Pos.to_nat p))%nat with (Pos.to_nat p + S (Pos.to_nat p))%nat by lia.
    now rewrite Nat.iter_add.
  - rewrite !IH, Pos2Nat.inj_xO.
    replace (2 * Pos.to_nat p)%nat with (Pos.to_nat p + Pos.to_nat p)%nat by lia.
    now rewrite Nat.iter_add.
  - reflexivity.
Qed.

Lemma shr_1_spec (m : Z) (r s : bool) :
  0 <= m -> shr_1 (Build_shr_record m r s) = Build_shr_record (m / 2) (Z.odd m) (r || s).
Proof.
  intros H. rewrite <- Z.div2_div.
  destruct m as [|[p|p|]|p]; try lia; reflexivity.
Qed.

(** [n] shifts divide the mantissa by 2^n. *)
Lemma shr_iter_m (n : nat) (m : Z) (r s : bool) :
  0 <= m ->
  shr_m (Nat.iter n shr_1 (Build_shr_record m r s)) = m / 2 ^ Z.of_nat n.
Proof.
  intros H. revert m r s H. induction n as [|n IH]; intros m r s H.
  - cbn. now rewrite Z.div_1_r.
  - rewrite Nat.iter_succ_r, shr_1_spec, IH by assumption || (apply Z.div_pos; lia).
    rewrite Nat2Z.inj_succ, Z.pow_succ_r by lia.
    rewrite Z.div_div by lia. reflexivity.
Qed.

(** The round and sticky bits after [n + 1] shifts of an exact mantissa. *)
Lemma shr_iter_exact (n : nat) (m : Z) :
  0 <= m ->
  Nat.iter (S n) shr_1 (Build_shr_record m false false)
  = Build_shr_record (m / 2 ^ Z.of_nat (S n)) (Z.odd (m / 2 ^ Z.of_nat n))
      (negb (m mod 2 ^ Z.of_nat n =? 0)).
Proof.
  intros H. induction n as [|n IH].
  - cbn [Nat.iter]. rewrite shr_1_spec by assumption.
    change (2 ^ Z.of_nat 0) with 1. change (2 ^ Z.of_nat 1) with 2.
    now rewrite Z.div_1_r, Z.mod_1_r.
  - change (Nat.iter (S (S n)) shr_1 ?x) with (shr_1 (Nat.iter (S n) shr_1 x)).
    rewrite IH.
    assert (P : 0 < 2 ^ Z.of_nat n) by (apply Z.pow_pos_nonneg; lia).
    rewrite shr_1_spec by (apply Z.div_pos; [lia|apply Z.pow_pos_nonneg; lia]).
    f_equal.
    + rewrite (Nat2Z.inj_succ (S n)), (Z.pow_succ_r 2 (Z.of_nat (S n))) by lia.
      rewrite Z.div_div by (try apply Z.pow_pos_nonneg; lia).
      f_equal. lia.
    + rewrite (Nat2Z.inj_succ n), Z.pow_succ_r by lia.
      rewrite (Z.mul_comm 2), Z.rem_mul_r by lia.
      pose proof (Z.mod_pos_bound m (2 ^ Z.of_nat n) P) as Hb.
      rewrite Zodd_mod.
      pose proof (Z.mod_pos_bound (m / 2 ^ Z.of_nat n) 2 ltac:(lia)) as Hc.
      destruct (Z.eqb_spec ((m / 2 ^ Z.of_nat n) mod 2) 1) as [E|E];
        destruct (Z.eqb_spec (m mod 2 ^ Z.of_nat n) 0) as [E0|E0]; cbn;
        symmetry; try (apply negb_true_iff, Z.eqb_neq; nia).
      apply negb_false_iff, Z.eqb_eq. nia.
Qed.

Lemma shr_pos (mrs : shr_record) (e : Z) (p : positive) :
  shr mrs e (Zpos p) = (Nat.iter (Pos.to_nat p) shr_1 mrs, e + Zpos p).
Proof. cbn [shr]. now rewrite iter_pos_nat. Qed.

Lemma Zdigits2_dg (p : positive) : Zdigits2 (Zpos p) = dg p.
Proof. reflexivity. Qed.

Lemma shr_record_of_loc_m (m : Z) (l : location) : shr_m (shr_record_of_loc m l) = m.
Proof. now destruct l as [|[]]. Qed.

(** One stage of the rounding keeps a positive mantissa positive when the
    exponent is at least that of the subnormal numbers. *)
Lemma shr_fexp_pos (p : positive) (e : Z) (l : location) :
  -149 <= e ->
  1 <= shr_m (fst (shr_fexp prec emax (Zpos p) e l))
  /\ -149 <= snd (shr_fexp prec emax (Zpos p) e l).
Proof.
  intros He. unfold shr_fexp. rewrite Zdigits2_dg, fexp_32.
  destruct (dg_bounds p) as [Hlo Hhi].
  assert (Hd : 1 <= dg p) by (unfold dg; lia).
  destruct (Z.max (dg p + e - 24) (-149) - e) as [|k|k] eqn:Ek.
  - cbn [shr fst snd]. rewrite shr_record_of_loc_m. lia.
  - rewrite shr_pos. cbn [fst snd]. split; [|lia].
    destruct (shr_record_of_loc (Z.pos p) l) as [m r s] eqn:Er.
    assert (Hm : m = Zpos p).
    { pose proof (shr_record_of_loc_m (Zpos p) l) as H. now rewrite Er in H. }
    subst m. rewrite shr_iter_m by lia. rewrite positive_nat_Z.
    assert (Hk : Zpos k = dg p - 24) by lia.
    assert (Hle : 2 ^ Zpos k <= Zpos p).
    { transitivity (2 ^ (dg p - 1)); [apply Z.pow_le_mono_r; lia | exact Hlo]. }
    assert (P : 0 < 2 ^ Zpos k) by (apply Z.pow_pos_nonneg; lia).
    apply Z.div_le_lower_bound; lia.
  - cbn [shr fst snd]. rewrite shr_record_of_loc_m. lia.
Qed.

Lemma round_nearest_even_ge (m : Z) (l : location) : m <= round_nearest_even m l.
Proof. destruct l as [|[]]; cbn; try lia. destruct (Z.even m); lia. Qed.

Lemma binary_round_aux_second (s : bool) (m1 e1 : Z) :
  1 <= m1 -> -149 <= e1 ->
  is_zero (let '(mrs, e2) := shr_fexp prec emax m1 e1 loc_Exact in
           match shr_m mrs with
           | 0 => S754_zero s
           | Zpos m => if e2 <=? emax - prec then S754_finite s m e2 else S754_infinity s
           | Zneg _ => S754_nan
           end) = false.
Proof.
  intros Hm He. destruct m1 as [|p|p]; try lia.
  destruct (shr_fexp_pos p e1 loc_Exact He) as [H1 _].
  destruct (shr_fexp prec emax (Z.pos p) e1 loc_Exact) as [mrs e2]. cbn [fst] in H1.
  destruct (shr_m mrs) as [|q|q]; try lia.
  now destruct (e2 <=? emax - prec).
Qed.

(** Rounding a positive multiple of a power of two that is at least 2^-149
    never gives zero. *)
Lemma binary_round_aux_not_zero (s : bool) (p : positive) (e : Z) (l : location) :
  -149 <= e -> is_zero (binary_round_aux prec emax s (Zpos p) e l) = false.
Proof.
  intros He. unfold binary_round_aux.
  destruct (shr_fexp_pos p e l He) as [H1 H2].
  destruct (shr_fexp prec emax (Z.pos p) e l) as [mrs e1]. cbn [fst snd] in H1, H2.
  pose proof (round_nearest_even_ge (shr_m mrs) (loc_of_shr_record mrs)) as H3.
  apply (binary_round_aux_second s); lia.
Qed.

(** Every finite result of the rounding has an exponent of at least -149. *)
Lemma shr_fexp_emin (m e : Z) (l : location) :
  -149 <= snd (shr_fexp prec emax m e l).
Proof.
  unfold shr_fexp. rewrite fexp_32.
  destruct (Z.max (Zdigits2 m + e - 24) (-149) - e) as [|k|k] eqn:Ek; cbn [shr snd]; lia.
Qed.

Lemma binary_round_aux_emin (s : bool) (m e : Z) (l : location) :
  emin_ok (binary_round_aux prec emax s m e l) = true.
Proof.
  unfold binary_round_aux.
  destruct (shr_fexp prec emax m e l) as [mrs e1].
  pose proof (shr_fexp_emin (round_nearest_even (shr_m mrs) (loc_of_shr_record mrs)) e1 loc_Exact) as H.
  destruct (shr_fexp prec emax _ e1 loc_Exact) as [mrs2 e2]. cbn [snd] in H.
  destruct (shr_m mrs2); try reflexivity.
  destruct (e2 <=? emax - prec); [|reflexivity].
  cbn. now apply Z.leb_le.
Qed.

(** Below 2^-149 the rounding of an exact product gives zero up to 2^-150
    (the tie goes to the even neighbour, zero) and the least subnormal
    number above. *)
Lemma binary_round_aux_is_zero (s : bool) (p : positive) (e : Z) :
  is_zero (binary_round_aux prec emax s (Zpos p) e loc_Exact)
  = (Zpos p <=? 2 ^ (-150 - e)).
Proof.
  destruct (Z.le_gt_cases (-149) e) as [He|He].
  { rewrite binary_round_aux_not_zero by assumption.
    symmetry. apply Z.leb_gt.
    destruct (Z.eq_dec e (-149)) as [->|].
    - cbn. lia.
    - rewrite Z.pow_neg_r by lia. lia. }
  destruct (dg_bounds p) as [Hlo Hhi].
  assert (Hd : 1 <= dg p) by (unfold dg; lia).
  unfold binary_round_aux, shr_fexp at 1.
  rewrite Zdigits2_dg, fexp_32. cbn [shr_record_of_loc].
  destruct (Z.max (dg p + e - 24) (-149) - e) as [|k|k] eqn:Ek; try lia.
  rewrite shr_pos.
  destruct (Pos.to_nat k) as [|n] eqn:En; [lia|].
  rewrite shr_iter_exact by lia.
  assert (Hk : Z.of_nat (S n) = Zpos k) by lia.
  assert (Hn : Z.of_nat n = Zpos k - 1) by lia.
  rewrite Hk, Hn. cbn [shr_m loc_of_shr_record].
  assert (P : 0 < 2 ^ Zpos k) by (apply Z.pow_pos_nonneg; lia).
  assert (P1 : 0 < 2 ^ (Zpos k - 1)) by (apply Z.pow_pos_nonneg; lia).
  assert (P2 : 2 ^ Zpos k = 2 * 2 ^ (Zpos k - 1)).
  { rewrite <- Z.pow_succ_r by lia. f_equal. lia. }
  destruct (Z.le_gt_cases (2 ^ Zpos k) (Zpos p)) as [Hge|Hlt].
  - (* the mantissa stays positive *)
    assert (H1 : 1 <= Zpos p / 2 ^ Zpos k) by (apply Z.div_le_lower_bound; lia).
    match goal with |- context [round_nearest_even ?a ?b] =>
      pose proof (round_nearest_even_ge a b) as H3;
      pose proof (binary_round_aux_second s (round_nearest_even a b) (e + Zpos k)
                    ltac:(lia) ltac:(lia)) as H4
    end.
    rewrite H4. symmetry. apply Z.leb_gt.
    assert (2 ^ (-150 - e) <= 2 ^ (Zpos k - 1)) by (apply Z.pow_le_mono_r; lia).
    lia.
  - (* every bit is shifted out *)
    assert (Hk' : Zpos k = -149 - e).
    { assert (dg p <= Zpos k) by (apply dg_le; exact Hlt). lia. }
    rewrite Z.div_small by lia.
    replace (e + Zpos k) with (-149) by lia.
    replace (-150 - e) with (Zpos k - 1) by lia.
    destruct (Z.le_gt_cases (Zpos p) (2 ^ (Zpos k - 1))) as [Hs|Hs].
    + rewrite (proj2 (Z.leb_le _ _) Hs).
      destruct (Z.eq_dec (Zpos p) (2 ^ (Zpos k - 1))) as [E|E].
      * rewrite E, Z.div_same, Z.mod_same by lia. reflexivity.
      * rewrite Z.div_small by lia. change (Z.odd 0) with false.
        destruct (negb _); reflexivity.
    + rewrite (proj2 (Z.leb_gt _ _) Hs).
      assert (Hq : Zpos p / 2 ^ (Zpos k - 1) = 1).
      { symmetry. apply Z.div_unique with (r := Zpos p - 2 ^ (Zpos k - 1)); lia. }
      assert (Hr : Zpos p mod 2 ^ (Zpos k - 1) = Zpos p - 2 ^ (Zpos k - 1)).
      { symmetry. apply Z.mod_unique with (q := 1); lia. }
      rewrite Hq, Hr.
      destruct (Z.eqb_spec (Zpos p - 2 ^ (Zpos k - 1)) 0); [lia|]. reflexivity.
Qed.

Lemma square_threshold (m : positive) (e : Z) :
  -149 <= e ->
  (Zpos (m * m) <=? 2 ^ (-150 - (e + e))) = (Zpos m * 2 ^ (e + 149) <=? 2 ^ 74).
Proof.
  intros He.
  destruct (Z.le_gt_cases (e + 149) 74) as [Hj|Hj].
  - assert (HB : 0 < 2 ^ (e + 149)) by (apply Z.pow_pos_nonneg; lia).
    assert (HA : 0 < 2 ^ (-150 - (e + e))) by (apply Z.pow_pos_nonneg; lia).
    assert (HC : 2 ^ (-150 - (e + e)) * (2 ^ (e + 149) * 2 ^ (e + 149)) = 2 ^ 74 * 2 ^ 74).
    { rewrite <- !Z.pow_add_r by lia. f_equal. lia. }
    rewrite Pos2Z.inj_mul.
    set (A := 2 ^ (-150 - (e + e))) in *. set (B := 2 ^ (e + 149)) in *.
    set (C := 2 ^ 74) in *.
    assert (HC0 : 0 < C) by (subst C; lia).
    destruct (Z.leb_spec (Zpos m * Zpos m) A) as [H1|H1];
      destruct (Z.leb_spec (Zpos m * B) C) as [H2|H2]; try reflexivity; exfalso.
    + assert ((Zpos m * B) * (Zpos m * B) <= A * (B * B)) by nia.
      assert (C * C < (Zpos m * B) * (Zpos m * B)) by nia.
      lia.
    + assert (A * (B * B) < (Zpos m * B) * (Zpos m * B)) by nia.
      assert ((Zpos m * B) * (Zpos m * B) <= C * C) by nia.
      lia.
  - rewrite Z.pow_neg_r by lia.
    assert (2 ^ 75 <= 2 ^ (e + 149)) by (apply Z.pow_le_mono_r; lia).
    assert (2 ^ 74 < 2 ^ 75) by (apply Z.pow_lt_mono_r; lia).
    destruct (Z.leb_spec (Zpos (m * m)) 0); [lia|].
    symmetry. apply Z.leb_gt. nia.
Qed.

Local Close Scope Z_scope.

(** The square of a number computes to zero exactly when its magnitude is
    at most 2^-75. *)
Lemma mul_self_is_zero (x : float32) :
  valid_binary prec emax x = true -> is_zero (x * x) = tiny x.
Proof.
  destruct x as [s|s| |s m e]; intros Hv; try reflexivity.
  change (is_zero (binary_round_aux prec emax (xorb s s) (Z.pos (m * m)) (e + e) loc_Exact)
          = (Z.abs (cond_Zopp s (Zpos m * 2 ^ (e + 149))) <=? 2 ^ 74)%Z).
  rewrite binary_round_aux_is_zero, square_threshold by (apply (bounded_emin m e Hv)).
  f_equal. assert (0 < 2 ^ (e + 149))%Z.
  { apply Z.pow_pos_nonneg; [lia|]. pose proof (bounded_emin m e Hv). lia. }
  destruct s; cbn [cond_Zopp]; lia.
Qed.

Lemma mul_emin_ok (x y : float32) : emin_ok (x * y) = true.
Proof.
  destruct x as [sx|sx| |sx mx ex], y as [sy|sy| |sy my ey]; try reflexivity.
  apply binary_round_aux_emin.
Qed.

Lemma binary_round_emin (s : bool) (m : positive) (e : Z) :
  emin_ok (binary_round prec emax s m e) = true.
Proof. unfold binary_round. destruct (shl_align _ _ _). apply binary_round_aux_emin. Qed.

Lemma add_emin_ok (x y : float32) :
  emin_ok x = true -> emin_ok y = true -> emin_ok (x + y) = true.
Proof.
  destruct x as [sx|sx| |sx mx ex], y as [sy|sy| |sy my ey]; intros Hx Hy;
    try reflexivity; try assumption.
  - now destruct sx, sy.
  - now destruct sx, sy.
  - change (emin_ok (binary_normalize prec emax
      (cond_Zopp sx (Z.pos (fst (shl_align mx ex (Z.min ex ey))))
       + cond_Zopp sy (Z.pos (fst (shl_align my ey (Z.min ex ey)))))%Z
      (Z.min ex ey) false) = true).
    unfold binary_normalize.
    destruct (_ + _)%Z; [reflexivity| |]; apply binary_round_emin.
Qed.

(** A sum of numbers that are not negative is zero only when both are. *)
Lemma add_is_zero (x y : float32) :
  nonneg x = true -> nonneg y = true -> emin_ok x = true -> emin_ok y = true ->
  is_zero (x + y) = is_zero x && is_zero y.
Proof.
  destruct x as [sx|[|]| |[|] mx ex], y as [sy|[|]| |[|] my ey]; try discriminate;
    intros _ _ Hx Hy; try reflexivity.
  - now destruct sx, sy.
  - change (is_zero (binary_normalize prec emax
      (Z.pos (fst (shl_align mx ex (Z.min ex ey))) + Z.pos (fst (shl_align my ey (Z.min ex ey))))
      (Z.min ex ey) false) = false).
    cbn [Z.add]. unfold binary_normalize, binary_round.
    cbn [emin_ok] in Hx, Hy. apply Z.leb_le in Hx, Hy.
    match goal with |- context [shl_align ?a ?b ?c] =>
      destruct (shl_align_spec a b c) as (H1 & _); destruct (shl_align a b c) as [mz ez] end.
    cbn [snd] in H1. apply binary_round_aux_not_zero.
    rewrite H1, fexp_32. lia.
Qed.

(** The square root of a positive number is not zero. *)
Lemma sqrt_is_zero (x : float32) :
  nonneg x = true -> emin_ok x = true -> is_zero (SFsqrt prec emax x) = is_zero x.
Proof.
  destruct x as [s|[|]| |[|] m e]; try discriminate; intros _ He; try reflexivity.
  cbn [emin_ok] in He. apply Z.leb_le in He.
  unfold SFsqrt, SFsqrt_core_binary. rewrite fexp_32.
  set (e' := Z.min _ _).
  assert (He' : (-149 <= e')%Z).
  { subst e'. rewrite Z.div2_div.
    assert (-75 <= e / 2)%Z by (apply Z.div_le_lower_bound; lia). lia. }
  assert (Hs : (0 <= e - 2 * e')%Z).
  { subst e'. rewrite (Z.div2_div e).
    pose proof (Z.mul_div_le e 2 ltac:(lia)). lia. }
  set (m' := match (e - 2 * e')%Z with Z0 => _ | _ => _ end).
  assert (Hm : (1 <= m')%Z).
  { subst m'. destruct (e - 2 * e')%Z as [|p|p] eqn:E; [lia| |lia].
    rewrite Z.shiftl_mul_pow2 by lia.
    assert (0 < 2 ^ Zpos p)%Z by (apply Z.pow_pos_nonneg; lia). nia. }
  pose proof (Z.sqrtrem_sqrt m') as Hq.
  destruct (Z.sqrtrem m') as [q r]. cbn [fst] in Hq.
  assert (H1 : (1 <= q)%Z).
  { subst q. change 1%Z with (Z.sqrt 1). now apply Z.sqrt_le_mono. }
  destruct q as [|q|q]; try lia.
  now apply binary_round_aux_not_zero.
Qed.

Lemma eqb_zero_is_zero (x : float32) : (x =? $0) = is_zero x.
Proof. destruct x as [s|s| |[|] m e]; try reflexivity; now destruct s. Qed.

Lemma tiny_not_nan (x : float32) : tiny x = true -> is_nan x = false.
Proof. now destruct x. Qed.

(** The computed length of a vector is zero exactly when every component
    has a magnitude of at most 2^-75. *)
Lemma Length_is_zero (sin cos acos log exp : float32 -> float32) (v : Vector3 float32) :
  valid_row v = true ->
  (Vector3.Length (LM := libm sin cos acos log exp) v =? $0) = tiny_row v.
Proof.
  intros Hv. rewrite eqb_zero_is_zero.
  destruct (no_nan v) eqn:En.
  - destruct v as [x y z]. unfold valid_row, no_nan, tiny_row in *. cbn [v3X v3Y v3Z] in *.
    apply andb_true_iff in Hv. destruct Hv as [Hv Hz].
    apply andb_true_iff in Hv. destruct Hv as [Hx Hy].
    apply negb_true_iff, orb_false_iff in En. destruct En as [En Nz].
    apply orb_false_iff in En. destruct En as [Nx Ny].
    unfold Vector3.Length, Vector3.LengthSquared. cbn [v3X v3Y v3Z sqrtf libm].
    rewrite sqrt_is_zero, !add_is_zero, !mul_self_is_zero;
      repeat first [ reflexivity | assumption | apply mul_emin_ok | apply add_emin_ok
                   | apply add_nonneg | apply mul_self_nonneg ].
  - pose proof (Length_nan sin cos acos log exp v) as Hn.
    unfold no_nan in En. apply negb_false_iff in En. rewrite En in Hn.
    destruct (Vector3.Length v); try discriminate Hn. cbn [is_zero].
    symmetry. unfold tiny_row.
    destruct (tiny (v3X v)) eqn:Tx; [|reflexivity].
    destruct (tiny (v3Y v)) eqn:Ty; [|reflexivity].
    destruct (tiny (v3Z v)) eqn:Tz; [|reflexivity].
    apply tiny_not_nan in Tx, Ty, Tz. rewrite Tx, Ty, Tz in En. discriminate En.
Qed.

Lemma is_zero_tiny (x : float32) : is_zero x = true -> tiny x = true.
Proof. now destruct x. Qed.

Lemma all_zero_tiny (v : Vector3 float32) : Vector3_all_zero v = true -> tiny_row v = true.
Proof.
  unfold Vector3_all_zero, tiny_row. rewrite !andb_true_iff. intros [[Hx Hy] Hz].
  repeat split; now apply is_zero_tiny.
Qed.

Lemma some_zero_lengths (sin cos acos log exp : float32 -> float32) (m : Matrix float32) :
  valid_basis m = true ->
  some_zero (row_lengths (LM := libm sin cos acos log exp) m) = some_tiny_row m.
Proof.
  unfold valid_basis. rewrite !andb_true_iff. intros [[H1 H2] H3].
  unfold some_zero, row_lengths, some_tiny_row. cbn [v3X v3Y v3Z].
  now rewrite !Length_is_zero.
Qed.

Lemma some_all_zero_tiny (m : Matrix float32) :
  some_zero_row m = true -> some_tiny_row m = true.
Proof.
  unfold some_zero_row, some_tiny_row. rewrite !orb_true_iff.
  intros [[H|H]|H]; [left; left|left; right|right]; now apply all_zero_tiny.
Qed.

(** C9, in binary32.  On a matrix whose basis entries are binary32 numbers,
    [Decompose] returns false exactly when some basis row (row 1, 2 or 3,
    first three columns) has only components of magnitude at most 2^-75:
    these are the rows whose length sqrtf(X*X + Y*Y + Z*Z) computes to zero
    in binary32, a zero row among them.  Then the rotation is set to the
    identity quaternion and the scale and the translation keep the values
    they had.  Otherwise it returns true, the scale is the three lengths as
    binary32 computes them and the translation is (M41, M42, M43).  No
    computed length is negative; the three are >= 0 exactly when no entry
    of the basis rows is NaN. *)
Theorem C9_Decompose_small_rows (sin cos acos log exp : float32 -> float32)
    (m : Matrix float32) (s : Vector3 float32) (r : Quaternion float32)
    (t : Vector3 float32) (Hv : valid_basis m = true) :
  let LM := libm sin cos acos log exp in
  let d : Decomposed := Matrix.Decompose m s r t in
  (flag_of d = false <-> some_tiny_row m = true)
  /\ (some_zero_row m = true -> flag_of d = false)
  /\ scale_of d = (if flag_of d then row_lengths m else s)
  /\ translation_of d = (if flag_of d then mkVector3 m.(M41) m.(M42) m.(M43) else t)
  /\ (if flag_of d then True else rotation_of d = Quaternion.Identity)
  /\ none_negative (row_lengths m) = true
  /\ all_nonneg (row_lengths m)
     = no_nan (basis_row1 m) && no_nan (basis_row2 m) && no_nan (basis_row3 m).
Proof.
  intros LM d. subst d LM.
  destruct (Decompose_computed_lengths sin cos acos log exp m s r t) as (H1 & H2 & H3 & H4 & H5 & H6).
  cbv zeta in H1, H2, H3, H4, H5, H6.
  rewrite some_zero_lengths in H1 by exact Hv.
  split; [exact H1|].
  split; [intros Hz; apply H1, some_all_zero_tiny, Hz|].
  repeat split; assumption.
Qed.

Lemma C9_Decompose_small_rows_witness :
  let LM := libm unused unused unused unused unused in
  let d : Decomposed :=
    Matrix.Decompose underflow_matrix (v3 1 1 1) q_100 (v3 0 0 0) in
  (flag_of d = false <-> some_tiny_row underflow_matrix = true)
  /\ (some_zero_row underflow_matrix = true -> flag_of d = false)
  /\ scale_of d = (if flag_of d then row_lengths underflow_matrix else v3 1 1 1)
  /\ translation_of d
     = (if flag_of d
        then mkVector3 underflow_matrix.(M41) underflow_matrix.(M42) underflow_matrix.(M43)
        else v3 0 0 0)
  /\ (if flag_of d then True else rotation_of d = Quaternion.Identity)
  /\ none_negative (row_lengths underflow_matrix) = true
  /\ all_nonneg (row_lengths underflow_matrix)
     = no_nan (basis_row1 underflow_matrix) && no_nan (basis_row2 underflow_matrix)
       && no_nan (basis_row3 underflow_matrix).
Proof.
  apply (C9_Decompose_small_rows unused unused unused unused unused
           underflow_matrix (v3 1 1 1) q_100 (v3 0 0 0)).
  reflexivity.
Defined.

(** C9, with the Euclidean length in place of the computed one: the first row
    (2^-80, 0, 0) of [underflow_matrix] has the Euclidean length 2^-80, no
    row has length zero, and [Decompose] returns false whatever the outputs
    held; on [overflow_matrix], whose first row (2^100, 0, 0) has the
    length 2^100, it returns true with the scale X set to +infinity. *)
Lemma C9_Decompose_Euclidean_counterexample :
  ~ (Euclidean_length_squared (basis_row1 underflow_matrix) == 0)%Q
  /\ ~ (Euclidean_length_squared (basis_row2 underflow_matrix) == 0)%Q
  /\ ~ (Euclidean_length_squared (basis_row3 underflow_matrix) == 0)%Q
  /\ ~ (exists (sin cos acos log exp : float32 -> float32)
               (s : Vector3 float32) (r : Quaternion float32) (t : Vector3 float32),
          flag_of (Matrix.Decompose (LM := libm sin cos acos log exp)
                     underflow_matrix s r t) = true)
  /\ (Euclidean_length_squared (basis_row1 overflow_matrix) == 2 ^ 200)%Q
  /\ flag_of (Matrix.Decompose (LM := libm unused unused unused unused unused)
                overflow_matrix (v3 1 1 1) q_100 (v3 0 0 0)) = true
  /\ v3X (scale_of (Matrix.Decompose (LM := libm unused unused unused unused unused)
                      overflow_matrix (v3 1 1 1) q_100 (v3 0 0 0)))
     = S754_infinity false.
Proof.
  split; [intros H; vm_compute in H; discriminate H|].
  split; [intros H; vm_compute in H; discriminate H|].
  split; [intros H; vm_compute in H; discriminate H|].
  split.
  { intros (sin & cos & acos & log & exp & s & r & t & H).
    destruct (Decompose_computed_lengths sin cos acos log exp underflow_matrix s r t) as (H1 & _).
    cbv zeta in H1.
    assert (Hz : some_zero (row_lengths (LM := libm sin cos acos log exp) underflow_matrix)
                 = true) by (vm_compute; reflexivity).
    apply H1 in Hz. rewrite Hz in H. discriminate H. }
  split; [vm_compute; reflexivity|].
  split; vm_compute; reflexivity.
Qed.

(** * Further properties of the code

    Properties of the other functions of MathHelper, Vector2, Vector3,
    Vector4, Quaternion and Matrix, read off the sources.  Those about
    binary32 hold for the arithmetic the code performs; those marked exact
    hold for the same formulas over the rationals. *)

(** ** Laws of the binary32 operations *)

Lemma neg_involutive (x : float32) : (- - x = x)%flt.
Proof. destruct x as [s|s| |s m e]; cbn; rewrite ?negb_involutive; reflexivity. Qed.

Lemma mul_comm (x y : float32) : (x * y = y * x)%flt.
Proof.
  change (SFmul prec emax x y = SFmul prec emax y x).
  destruct x as [sx|sx| |sx mx ex], y as [sy|sy| |sy my ey]; unfold SFmul;
    rewrite ?(xorb_comm sx sy), ?(Pos.mul_comm mx my), ?(Z.add_comm ex ey);
    reflexivity.
Qed.

Lemma add_comm (x y : float32) : (x + y = y + x)%flt.
Proof.
  destruct x as [sx|sx| |sx mx ex], y as [sy|sy| |sy my ey];
    try reflexivity; try (destruct sx, sy; reflexivity).
  change (SFadd prec emax (S754_finite sx mx ex) (S754_finite sy my ey)
          = SFadd prec emax (S754_finite sy my ey) (S754_finite sx mx ex)).
  unfold SFadd. rewrite (Z.min_comm ex ey).
  rewrite (Z.add_comm (cond_Zopp sx _)). reflexivity.
Qed.

Lemma SFcompare_refl (x : float32) : is_nan x = false -> SFcompare x x = Some Eq.
Proof.
  destruct x as [s|s| |s m e]; try discriminate; intros _; try (now destruct s).
  unfold SFcompare. rewrite Z.compare_refl, Pos.compare_cont_refl. now destruct s.
Qed.

Lemma leb_refl (x : float32) : is_nan x = false -> (x <=? x) = true.
Proof. intros H. change (SFleb x x = true). unfold SFleb. now rewrite SFcompare_refl. Qed.

Lemma leb_not_nan (x y : float32) :
  (x <=? y) = true -> is_nan x = false /\ is_nan y = false.
Proof.
  change (SFleb x y = true -> is_nan x = false /\ is_nan y = false).
  destruct x, y; try discriminate; auto.
Qed.

Lemma ltb_not_nan (x y : float32) :
  (x <? y) = true -> is_nan x = false /\ is_nan y = false.
Proof.
  change (SFltb x y = true -> is_nan x = false /\ is_nan y = false).
  destruct x, y; try discriminate; auto.
Qed.

(** [x <= y] excludes [y < x]. *)
Lemma leb_ltb_false (x y : float32) : (x <=? y) = true -> (y <? x) = false.
Proof.
  change (SFleb x y = true -> SFltb y x = false). unfold SFleb, SFltb.
  rewrite (SFcompare_antisym x y).
  destruct (SFcompare x y) as [[]|]; cbn; intros H; try discriminate H; reflexivity.
Qed.

(** Without NaN, [not (x < y)] is [y <= x]. *)
Lemma ltb_false_leb (x y : float32) :
  is_nan x = false -> is_nan y = false -> (x <? y) = false -> (y <=? x) = true.
Proof.
  intros Hx Hy H. apply ltb_false_iff in H. destruct H as [H|[H|H]]; [congruence|congruence|exact H].
Qed.

Lemma ltb_leb (x y : float32) : (x <? y) = true -> (x <=? y) = true.
Proof.
  change (SFltb x y = true -> SFleb x y = true). unfold SFleb, SFltb.
  destruct (SFcompare x y) as [[]|]; intros H; try discriminate H; reflexivity.
Qed.

(** ** MathHelper::Clamp, Max and Min *)

Lemma Clamp_cases (val min max : float32) :
  MathHelper.Clamp val min max
  = if min >? (if max <? val then max else val) then min
    else if max <? val then max else val.
Proof. reflexivity. Qed.

Lemma Clamp_bounds (val min max : float32) :
  is_nan val = false -> (min <=? max) = true ->
  (min <=? MathHelper.Clamp val min max) = true
  /\ (MathHelper.Clamp val min max <=? max) = true.
Proof.
  intros Hv Hmm. destruct (leb_not_nan _ _ Hmm) as [Hmin Hmax].
  rewrite Clamp_cases.
  destruct (max <? val) eqn:E1.
  - rewrite (leb_ltb_false _ _ Hmm). split; [exact Hmm | now apply leb_refl].
  - destruct (val <? min) eqn:E2.
    + split; [now apply leb_refl | exact Hmm].
    + split; now apply ltb_false_leb.
Qed.

Lemma Clamp_inside (val min max : float32) :
  (min <=? val) = true -> (val <=? max) = true -> MathHelper.Clamp val min max = val.
Proof.
  intros H1 H2. rewrite Clamp_cases.
  now rewrite (leb_ltb_false _ _ H2), (leb_ltb_false _ _ H1).
Qed.

(** X1 (MathHelper::Clamp, Max, Min).  For a value that is not NaN and
    bounds with [min <= max], [Clamp(val, min, max)] lies between the
    bounds, a value already between them is returned unchanged, and
    clamping twice is clamping once. *)
Theorem MathHelper_Clamp_in_range (val min max : float32) :
  is_nan val = false -> (min <=? max) = true ->
  (min <=? MathHelper.Clamp val min max) = true
  /\ (MathHelper.Clamp val min max <=? max) = true
  /\ ((min <=? val) && (val <=? max) = true -> MathHelper.Clamp val min max = val)
  /\ MathHelper.Clamp (MathHelper.Clamp val min max) min max
     = MathHelper.Clamp val min max.
Proof.
  intros Hv Hmm. destruct (Clamp_bounds val min max Hv Hmm) as [H1 H2].
  repeat split; trivial.
  - intros H. apply andb_true_iff in H. destruct H. now apply Clamp_inside.
  - now apply Clamp_inside.
Qed.

Lemma MathHelper_Clamp_in_range_witness :
  (f32 0 <=? MathHelper.Clamp (f32 7) (f32 0) (f32 5)) = true
  /\ (MathHelper.Clamp (f32 7) (f32 0) (f32 5) <=? f32 5) = true
  /\ ((f32 0 <=? f32 7) && (f32 7 <=? f32 5) = true
      -> MathHelper.Clamp (f32 7) (f32 0) (f32 5) = f32 7)
  /\ MathHelper.Clamp (MathHelper.Clamp (f32 7) (f32 0) (f32 5)) (f32 0) (f32 5)
     = MathHelper.Clamp (f32 7) (f32 0) (f32 5).
Proof. apply (MathHelper_Clamp_in_range (f32 7) (f32 0) (f32 5)); reflexivity. Defined.

(** X2 (Vector3::Clamp).  Unlike Vector4::Clamp, Vector3::Clamp clamps
    every component against its own bounds: it is the scalar Clamp applied
    to X, Y and Z, and when no component of [val] is NaN and [min <= max]
    holds (operator<=, that is in every component), the result satisfies
    [min <= Clamp(val, min, max)] and [Clamp(val, min, max) <= max]. *)
Theorem Vector3_Clamp_in_range (val min max : Vector3 float32) :
  no_nan val = true -> Vector3.op_le min max = true ->
  Vector3.op_le min (Vector3.Clamp val min max) = true
  /\ Vector3.op_le (Vector3.Clamp val min max) max = true
  /\ Vector3.Clamp val min max
     = mkVector3 (MathHelper.Clamp val.(v3X) min.(v3X) max.(v3X))
                 (MathHelper.Clamp val.(v3Y) min.(v3Y) max.(v3Y))
                 (MathHelper.Clamp val.(v3Z) min.(v3Z) max.(v3Z)).
Proof.
  destruct val as [x y z], min as [lx ly lz], max as [hx hy hz].
  unfold no_nan, Vector3.op_le, Vector3.Clamp. cbn [v3X v3Y v3Z].
  rewrite negb_true_iff, !orb_false_iff, !andb_true_iff.
  intros [[Hx Hy] Hz] [[Lx Ly] Lz].
  destruct (Clamp_bounds x lx hx Hx Lx), (Clamp_bounds y ly hy Hy Ly),
    (Clamp_bounds z lz hz Hz Lz).
  repeat split; assumption.
Qed.

Lemma Vector3_Clamp_in_range_witness :
  Vector3.op_le (v3 0 0 0) (Vector3.Clamp (v3 1 (-2) 30) (v3 0 0 0) (v3 10 10 10)) = true
  /\ Vector3.op_le (Vector3.Clamp (v3 1 (-2) 30) (v3 0 0 0) (v3 10 10 10)) (v3 10 10 10) = true
  /\ Vector3.Clamp (v3 1 (-2) 30) (v3 0 0 0) (v3 10 10 10)
     = mkVector3 (MathHelper.Clamp (v3 1 (-2) 30).(v3X) (v3 0 0 0).(v3X) (v3 10 10 10).(v3X))
                 (MathHelper.Clamp (v3 1 (-2) 30).(v3Y) (v3 0 0 0).(v3Y) (v3 10 10 10).(v3Y))
                 (MathHelper.Clamp (v3 1 (-2) 30).(v3Z) (v3 0 0 0).(v3Z) (v3 10 10 10).(v3Z)).
Proof. apply (Vector3_Clamp_in_range (v3 1 (-2) 30) (v3 0 0 0) (v3 10 10 10)); reflexivity. Defined.

(** X3 (MathHelper::Max, Min, Clamp).  Max and Min return their second
    argument whenever the comparison fails, so they treat NaN
    asymmetrically: a NaN second argument is returned, a NaN first argument
    is dropped.  Clamp, which passes the value as second argument of Min,
    returns NaN for a NaN value whatever the bounds, and ignores a NaN
    lower bound. *)
Theorem Max_Min_NaN (x min max : float32) :
  MathHelper.Max x S754_nan = S754_nan
  /\ MathHelper.Max S754_nan x = x
  /\ MathHelper.Min x S754_nan = S754_nan
  /\ MathHelper.Min S754_nan x = x
  /\ MathHelper.Clamp S754_nan min max = S754_nan
  /\ MathHelper.Clamp x S754_nan max = MathHelper.Min max x.
Proof.
  unfold MathHelper.Clamp, MathHelper.Max, MathHelper.Min.
  repeat split; try reflexivity; try (now destruct x).
  - destruct max; reflexivity.
  - destruct (max <? x); [now destruct max | now destruct x].
Qed.

(** X4 (MathHelper::Sign).  Sign returns 1 exactly for the values above
    zero, 0 exactly for the two zeros and -1 otherwise: for the values
    below zero and also for NaN. *)
Theorem Sign_cases (v : float32) :
  (MathHelper.Sign v = 1%Z <-> (v >? $0) = true)
  /\ (MathHelper.Sign v = 0%Z <-> (v =? $0) = true)
  /\ (MathHelper.Sign v = (-1)%Z <-> (v <? $0) = true \/ is_nan v = true).
Proof.
  unfold MathHelper.Sign.
  destruct v as [s|s| |s m e]; try destruct s; cbn;
    repeat split; intros; try discriminate; try reflexivity; auto;
    match goal with H : _ \/ _ |- _ => destruct H; discriminate end.
Qed.

(** ** MathHelper::SmoothStep and Barycentric *)

Lemma mul_nan_r (x : float32) : (x * S754_nan = S754_nan)%flt.
Proof. rewrite mul_comm. apply mul_nan_l. Qed.

Lemma Clamp_below_zero (t : float32) :
  (t <=? $0) = true ->
  let c := MathHelper.Clamp t $0 $1 in (c * c * ($3 - $2 * c) = $0)%flt.
Proof.
  destruct t as [s|s| |s m e]; try destruct s; try discriminate; intros _; reflexivity.
Qed.

Lemma Min_one (t : float32) : ($1 <=? t) = true -> MathHelper.Min $1 t = $1.
Proof.
  intros H. unfold MathHelper.Min. destruct ($1 <? t) eqn:E; [reflexivity|].
  assert (Heq : SFeqb $1 t = true).
  { change (SFleb $1 t = true) in H. change (SFltb $1 t = false) in E.
    unfold SFleb, SFltb, SFeqb in *.
    destruct (SFcompare $1 t) as [[]|]; congruence. }
  destruct t as [s|s| |s m e]; try discriminate Heq; try (destruct s; discriminate Heq).
  apply eqb_finite_inv in Heq. destruct Heq as (<- & <- & <-). reflexivity.
Qed.

Lemma Clamp_above_one (t : float32) :
  ($1 <=? t) = true ->
  let c := MathHelper.Clamp t $0 $1 in (c * c * ($3 - $2 * c) = $1)%flt.
Proof.
  intros H c. subst c. unfold MathHelper.Clamp. rewrite (Min_one t H). reflexivity.
Qed.

(** X5 (MathHelper::SmoothStep).  SmoothStep saturates: for every
    [t <= 0] (also minus infinity) it computes exactly [Lerp(val1, val2, 0)],
    which equals [val1] as soon as [val2 - val1] is finite; for every
    [t >= 1] (also plus infinity) it computes exactly [Lerp(val1, val2, 1)];
    a NaN weight gives NaN. *)
Theorem SmoothStep_saturates (val1 val2 t : float32) :
  ((t <=? $0) = true ->
     MathHelper.SmoothStep val1 val2 t = MathHelper.Lerp val1 val2 $0
     /\ (finite_difference val1 val2 = true ->
         (MathHelper.SmoothStep val1 val2 t =? val1) = true))
  /\ (($1 <=? t) = true ->
        MathHelper.SmoothStep val1 val2 t = MathHelper.Lerp val1 val2 $1)
  /\ (is_nan t = true -> MathHelper.SmoothStep val1 val2 t = S754_nan).
Proof.
  unfold MathHelper.SmoothStep. repeat split.
  - now rewrite (Clamp_below_zero t H).
  - intros Hd. rewrite (Clamp_below_zero t H). now apply Lerp_0_binary32.
  - intros H. now rewrite (Clamp_above_one t H).
  - intros H. destruct t; try discriminate H.
    change (MathHelper.Clamp S754_nan $0 $1) with S754_nan.
    unfold MathHelper.Lerp. now rewrite !mul_nan_l, mul_nan_r, add_nan_r.
Qed.




(** ** Dot products and distances *)

(** X7 (Dot of Vector2, Vector3, Vector4, Quaternion).  The dot products
    are symmetric bit for bit: binary32 multiplication is commutative and
    both orders add the products in the same sequence. *)
Theorem Dot_symmetric (a2 b2 : Vector2 float32) (a3 b3 : Vector3 float32)
    (a4 b4 : Vector4 float32) (p q : Quaternion float32) :
  Vector2.Dot a2 b2 = Vector2.Dot b2 a2
  /\ Vector3.Dot a3 b3 = Vector3.Dot b3 a3
  /\ Vector4.Dot a4 b4 = Vector4.Dot b4 a4
  /\ Quaternion.Dot p q = Quaternion.Dot q p.
Proof.
  unfold Vector2.Dot, Vector3.Dot, Vector4.Dot, Quaternion.Dot.
  rewrite (mul_comm (v2X a2)), (mul_comm (v2Y a2)),
    (mul_comm (v3X a3)), (mul_comm (v3Y a3)), (mul_comm (v3Z a3)),
    (mul_comm (v4X a4)), (mul_comm (v4Y a4)), (mul_comm (v4Z a4)), (mul_comm (v4W a4)),
    (mul_comm (qX p)), (mul_comm (qY p)), (mul_comm (qZ p)), (mul_comm (qW p)).
  repeat split; reflexivity.
Qed.

Lemma abs_binary_round_aux (s s' : bool) (m e : Z) (l : location) :
  SFabs (binary_round_aux prec emax s m e l) = SFabs (binary_round_aux prec emax s' m e l).
Proof.
  unfold binary_round_aux.
  destruct (shr_fexp prec emax m e l) as [mrs e1].
  destruct (shr_fexp prec emax _ e1 loc_Exact) as [mrs2 e2].
  destruct (shr_m mrs2); try reflexivity.
  destruct (e2 <=? emax - prec)%Z; reflexivity.
Qed.

Lemma abs_binary_normalize_opp (m e : Z) :
  SFabs (binary_normalize prec emax (- m) e false)
  = SFabs (binary_normalize prec emax m e false).
Proof.
  destruct m as [|p|p]; try reflexivity; cbn [Z.opp binary_normalize];
    unfold binary_round; destruct (shl_align p e _);
    apply abs_binary_round_aux.
Qed.

(** [|x - y| = |y - x|], bit for bit. *)
Lemma abs_sub_comm (x y : float32) : fabs (x - y) = fabs (y - x).
Proof.
  change (SFabs (SFsub prec emax x y) = SFabs (SFsub prec emax y x)).
  destruct x as [sx|sx| |sx mx ex], y as [sy|sy| |sy my ey];
    try reflexivity; try (destruct sx, sy; reflexivity).
  unfold SFsub. rewrite (Z.min_comm ey ex).
  rewrite <- abs_binary_normalize_opp. f_equal. f_equal. lia.
Qed.

(** A square depends on the magnitude only. *)
Lemma mul_self_abs (x : float32) : (x * x = fabs x * fabs x)%flt.
Proof.
  destruct x as [s|s| |s m e]; try reflexivity; now destruct s.
Qed.

Lemma sq_sub_comm (x y : float32) : ((x - y) * (x - y) = (y - x) * (y - x))%flt.
Proof. now rewrite mul_self_abs, abs_sub_comm, <- mul_self_abs. Qed.

(** X8 (Distance and DistanceSquared).  The distances are symmetric bit
    for bit: MathHelper::Distance, Vector2::DistanceSquared and Distance,
    Vector3::DistanceSquared and Distance return the same binary32 number
    for (p1, p2) and for (p2, p1), NaN and infinities included. *)
Theorem Distance_symmetric (sin cos acos log exp : float32 -> float32)
    (x y : float32) (a2 b2 : Vector2 float32) (a3 b3 : Vector3 float32) :
  let LM := libm sin cos acos log exp in
  MathHelper.Distance x y = MathHelper.Distance y x
  /\ Vector2.DistanceSquared a2 b2 = Vector2.DistanceSquared b2 a2
  /\ Vector2.Distance a2 b2 = Vector2.Distance b2 a2
  /\ Vector3.DistanceSquared a3 b3 = Vector3.DistanceSquared b3 a3
  /\ Vector3.Distance a3 b3 = Vector3.Distance b3 a3.
Proof.
  intros LM.
  assert (H2 : Vector2.DistanceSquared a2 b2 = Vector2.DistanceSquared b2 a2).
  { unfold Vector2.DistanceSquared, Vector2.LengthSquared, Vector2.Dot, Vector2.op_sub.
    cbn [v2X v2Y]. now rewrite (sq_sub_comm (v2X a2)), (sq_sub_comm (v2Y a2)). }
  assert (H3 : Vector3.DistanceSquared a3 b3 = Vector3.DistanceSquared b3 a3).
  { unfold Vector3.DistanceSquared, Vector3.LengthSquared.
    rewrite !Vector3_op_sub_components. cbn [v3X v3Y v3Z].
    now rewrite (sq_sub_comm (v3X a3)), (sq_sub_comm (v3Y a3)), (sq_sub_comm (v3Z a3)). }
  repeat split.
  - apply abs_sub_comm.
  - exact H2.
  - unfold Vector2.Distance, Vector2.Length.
    change (Vector2.LengthSquared (Vector2.op_sub a2 b2)) with (Vector2.DistanceSquared a2 b2).
    change (Vector2.LengthSquared (Vector2.op_sub b2 a2)) with (Vector2.DistanceSquared b2 a2).
    now rewrite H2.
  - exact H3.
  - unfold Vector3.Distance. now rewrite H3.
Qed.

(** ** Quaternion::Conjugate and the unary minus *)

Lemma mul_neg_neg (x y : float32) : (- x * - y = x * y)%flt.
Proof.
  change (SFmul prec emax (SFopp x) (SFopp y) = SFmul prec emax x y).
  destruct x as [sx|sx| |sx mx ex], y as [sy|sy| |sy my ey]; cbn [SFopp]; unfold SFmul;
    try reflexivity; now destruct sx, sy.
Qed.

(** X9 (Quaternion::Conjugate, operator-).  Conjugate is an involution
    and leaves LengthSquared unchanged, bit for bit; the unary minus, which
    calls Conjugate and then negates W, negates all four components and is
    an involution as well. *)
Theorem Conjugate_involution (sin cos acos log exp : float32 -> float32)
    (q : Quaternion float32) :
  let LM := libm sin cos acos log exp in
  Quaternion.Conjugate (Quaternion.Conjugate q) = q
  /\ Quaternion.LengthSquared (Quaternion.Conjugate q) = Quaternion.LengthSquared q
  /\ Quaternion.Length (Quaternion.Conjugate q) = Quaternion.Length q
  /\ Quaternion.op_neg q = mkQuaternion (- q.(qX)) (- q.(qY)) (- q.(qZ)) (- q.(qW))
  /\ Quaternion.op_neg (Quaternion.op_neg q) = q.
Proof.
  intros LM. destruct q as [x y z w].
  assert (HL : Quaternion.LengthSquared (Quaternion.Conjugate (mkQuaternion x y z w))
               = Quaternion.LengthSquared (mkQuaternion x y z w)).
  { unfold Quaternion.LengthSquared, Quaternion.Conjugate. cbn [qX qY qZ qW].
    now rewrite !mul_neg_neg. }
  repeat split.
  - unfold Quaternion.Conjugate. cbn [qX qY qZ qW]. now rewrite !neg_involutive.
  - exact HL.
  - unfold Quaternion.Length. now rewrite HL.
  - unfold Quaternion.op_neg, Quaternion.Conjugate. cbn [qX qY qZ qW].
    now rewrite !neg_involutive.
Qed.

(** ** The accessors of Matrix *)

Lemma Vector3_neg_involutive (v : Vector3 float32) :
  Vector3.op_neg (Vector3.op_neg v) = v.
Proof.
  destruct v as [x y z]. unfold Vector3.op_neg. cbn [v3X v3Y v3Z].
  now rewrite !neg_involutive.
Qed.

(** [-x == x] holds for the zeros only. *)
Lemma neg_eqb (x : float32) : (- x =? x) = is_zero x.
Proof. destruct x as [s|s| |s m e]; try reflexivity; now destruct s. Qed.

Lemma op_eq_neg (v : Vector3 float32) :
  Vector3.op_eq (Vector3.op_neg v) v = Vector3_all_zero v.
Proof.
  destruct v as [x y z]. unfold Vector3.op_eq, Vector3.op_neg, Vector3_all_zero.
  cbn [v3X v3Y v3Z]. now rewrite !neg_eqb.
Qed.

(** X10 (Matrix::Backward, Up, Right, Translation).  For these four
    accessors the getter returns what the setter stored: after
    [m.Up(v)], [m.Up()] is [v] bit for bit (the getter negates the row
    that Down() negated), and likewise for Backward, Right and Translation;
    the setter of a row leaves the other rows as they were. *)
Theorem Matrix_accessors_round_trip (m : Matrix float32) (v : Vector3 float32) :
  Matrix.Backward (Matrix.set_Backward m v) = v
  /\ Matrix.Up (Matrix.set_Up m v) = v
  /\ Matrix.Right (Matrix.set_Right m v) = v
  /\ Matrix.Translation (Matrix.set_Translation m v) = v
  /\ Matrix.Translation (Matrix.set_Up m v) = Matrix.Translation m
  /\ Matrix.Backward (Matrix.set_Right m v) = Matrix.Backward m
  /\ Matrix.Up (Matrix.set_Backward m v) = Matrix.Up m
  /\ Matrix.Right (Matrix.set_Translation m v) = Matrix.Right m.
Proof.
  destruct v as [x y z].
  unfold Matrix.Up, Matrix.Right, Matrix.Down, Matrix.Left, Matrix.Backward,
    Matrix.Translation, Matrix.set_Up, Matrix.set_Right, Matrix.set_Down,
    Matrix.set_Left, Matrix.set_Backward, Matrix.set_Translation, Vector3.op_neg.
  cbn. rewrite !neg_involutive. repeat split; reflexivity.
Qed.

(** X11 (Matrix::Forward, Down, Left).  The getters of the three negative
    directions negate the row, but their setters store the vector as it
    is: after [m.Forward(v)], [m.Forward()] is [-v], and likewise for Down
    and Left.  So the vector read back compares equal to the vector that
    was set, under the == of Vector3, only when all three components are
    zeros: one component that is not a zero makes the comparison false. *)
Theorem Matrix_negative_accessors_negate (m : Matrix float32) (v : Vector3 float32) :
  Matrix.Forward (Matrix.set_Forward m v) = Vector3.op_neg v
  /\ Matrix.Down (Matrix.set_Down m v) = Vector3.op_neg v
  /\ Matrix.Left (Matrix.set_Left m v) = Vector3.op_neg v
  /\ Vector3.op_eq (Matrix.Forward (Matrix.set_Forward m v)) v = Vector3_all_zero v
  /\ Vector3.op_eq (Matrix.Down (Matrix.set_Down m v)) v = Vector3_all_zero v
  /\ Vector3.op_eq (Matrix.Left (Matrix.set_Left m v)) v = Vector3_all_zero v.
Proof.
  assert (F : Matrix.Forward (Matrix.set_Forward m v) = Vector3.op_neg v)
    by now destruct v.
  assert (D : Matrix.Down (Matrix.set_Down m v) = Vector3.op_neg v)
    by now destruct v.
  assert (L : Matrix.Left (Matrix.set_Left m v) = Vector3.op_neg v)
    by now destruct v.
  rewrite F, D, L, op_eq_neg. repeat split; reflexivity.
Qed.

(** ** Matrix::Transpose *)

(** X12 (Matrix::Transpose and the matrix product).  Transpose is an
    involution, and the transpose of a product is the product of the
    transposes in reverse order, bit for bit in binary32: both sides add
    the same four products in the same order, with the factors of each
    product exchanged. *)
Theorem Transpose_product (a b : Matrix float32) :
  Matrix.Transpose (Matrix.Transpose a) = a
  /\ Matrix.Transpose (Matrix.op_mul a b)
     = Matrix.op_mul (Matrix.Transpose b) (Matrix.Transpose a).
Proof.
  destruct a as [a11 a12 a13 a14 a21 a22 a23 a24 a31 a32 a33 a34 a41 a42 a43 a44].
  destruct b as [b11 b12 b13 b14 b21 b22 b23 b24 b31 b32 b33 b34 b41 b42 b43 b44].
  split; [reflexivity|].
  unfold Matrix.Transpose, Matrix.op_mul, Matrix.op_mul_assign.
  cbn [M11 M12 M13 M14 M21 M22 M23 M24 M31 M32 M33 M34 M41 M42 M43 M44].
  rewrite !(mul_comm b11), !(mul_comm b12), !(mul_comm b13), !(mul_comm b14),
    !(mul_comm b21), !(mul_comm b22), !(mul_comm b23), !(mul_comm b24),
    !(mul_comm b31), !(mul_comm b32), !(mul_comm b33), !(mul_comm b34),
    !(mul_comm b41), !(mul_comm b42), !(mul_comm b43), !(mul_comm b44).
  reflexivity.
Qed.

(** ** Products with one and zero *)

Lemma one_binary32 : ($1 : float32) = S754_finite false 8388608 (-23).
Proof. reflexivity. Qed.

Lemma mul_one_r_finite (s : bool) (m : positive) (e : Z) :
  bounded prec emax m e = true ->
  (S754_finite s m e * $1 = S754_finite s m e)%flt.
Proof.
  intros Hb. rewrite one_binary32.
  change (SFmul prec emax (S754_finite s m e) (S754_finite false 8388608 (-23))
          = S754_finite s m e).
  unfold SFmul. rewrite xorb_false_r, Pos.mul_comm.
  change (8388608 * m)%positive with (Pos.iter xO m 23).
  pose proof Hb as Hc. unfold bounded, canonical_mantissa in Hc.
  apply andb_true_iff in Hc. destruct Hc as [Hc He]. apply Z.eqb_eq in Hc.
  unfold binary_round_aux at 1. unfold shr_fexp at 1.
  cbn [Zdigits2 shr_record_of_loc].
  change (Z.pos (digits2_pos (Pos.iter xO m 23))) with (dg (Pos.iter xO m 23)).
  rewrite dg_shift.
  replace (dg m + 23 + (e + -23))%Z with (Z.pos (digits2_pos m) + e)%Z by (unfold dg; lia).
  rewrite Hc. replace (e - (e + -23))%Z with 23%Z by lia.
  cbn [shr]. cbn -[shr_fexp round_nearest_even fexp Z.add].
  replace (e + -23 + 23)%Z with e by lia.
  unfold shr_fexp. cbn [round_nearest_even Zdigits2 shr_record_of_loc].
  rewrite Hc, Z.sub_diag. cbn [shr shr_m]. now rewrite He.
Qed.

(** Multiplying a binary32 number by 1 is exact. *)
Lemma mul_one_r (x : float32) : valid_binary prec emax x = true -> (x * $1 = x)%flt.
Proof.
  destruct x as [s|s| |s m e]; intros H; try reflexivity; try (now destruct s).
  now apply mul_one_r_finite.
Qed.

Lemma mul_one_l (x : float32) : valid_binary prec emax x = true -> ($1 * x = x)%flt.
Proof. intros H. rewrite mul_comm. now apply mul_one_r. Qed.

Lemma finite32_valid (x : float32) : finite32 x = true -> valid_binary prec emax x = true.
Proof. unfold finite32. now intros H%andb_true_iff. Qed.

Lemma finite32_finite (x : float32) : finite32 x = true -> is_finite x = true.
Proof. unfold finite32. now intros H%andb_true_iff. Qed.

Lemma is_zero_mul_r (x z : float32) :
  finite32 x = true -> is_zero z = true -> is_zero (x * z) = true.
Proof.
  intros Hx%finite32_finite Hz.
  destruct z; try discriminate Hz. destruct x; try discriminate Hx; reflexivity.
Qed.

Lemma is_zero_mul_l (x z : float32) :
  is_zero z = true -> finite32 x = true -> is_zero (z * x) = true.
Proof. intros Hz Hx. rewrite mul_comm. now apply is_zero_mul_r. Qed.

Lemma is_zero_add (x y : float32) :
  is_zero x = true -> is_zero y = true -> is_zero (x + y) = true.
Proof.
  destruct x as [sx| | |]; try discriminate. destruct y as [sy| | |]; try discriminate.
  now destruct sx, sy.
Qed.

Lemma is_zero_sub (x y : float32) :
  is_zero x = true -> is_zero y = true -> is_zero (x - y) = true.
Proof.
  destruct x as [sx| | |]; try discriminate. destruct y as [sy| | |]; try discriminate.
  now destruct sx, sy.
Qed.

Lemma same_refl (x : float32) : same_number x x.
Proof. now left. Qed.

Lemma same_trans (a b c : float32) : same_number a b -> same_number b c -> same_number a c.
Proof.
  intros [->|[Ha Hb]] [->|[Hb' Hc]];
    [now left | right; now split | right; now split | right; now split].
Qed.

Lemma same_add_zero_r (a x z : float32) :
  is_zero z = true -> same_number a x -> same_number (a + z) x.
Proof.
  intros Hz H. destruct z as [sz| | |]; try discriminate Hz.
  destruct H as [->|[Ha Hx]].
  - destruct x as [s|s| |s m e]; try (now left). right. now destruct s, sz.
  - right. split; [|exact Hx]. now apply is_zero_add.
Qed.

Lemma same_add_zero_l (a x z : float32) :
  is_zero z = true -> same_number a x -> same_number (z + a) x.
Proof. intros Hz H. rewrite add_comm. now apply same_add_zero_r. Qed.

Lemma same_sub_zero_r (a x z : float32) :
  is_zero z = true -> same_number a x -> same_number (a - z) x.
Proof.
  intros Hz H. destruct z as [sz| | |]; try discriminate Hz.
  destruct H as [->|[Ha Hx]].
  - destruct x as [s|s| |s m e]; try (now left). right. now destruct s, sz.
  - right. split; [|exact Hx]. now apply is_zero_sub.
Qed.

Lemma same_mul_one_r (x : float32) : finite32 x = true -> same_number (x * $1) x.
Proof. intros H%finite32_valid. left. now apply mul_one_r. Qed.

Lemma same_mul_one_l (x : float32) : finite32 x = true -> same_number ($1 * x) x.
Proof. intros H%finite32_valid. left. now apply mul_one_l. Qed.

Lemma same_finite32 (a x : float32) :
  same_number a x -> finite32 x = true -> finite32 a = true.
Proof.
  intros [->|[Ha _]] H; [exact H|]. destruct a; try discriminate Ha. reflexivity.
Qed.

Lemma same_eqb (a x : float32) :
  same_number a x -> is_nan x = false -> (a =? x) = true.
Proof.
  intros [->|[Ha Hx]] Hn.
  - change (SFeqb x x = true). unfold SFeqb. now rewrite SFcompare_refl.
  - destruct a; try discriminate Ha. destruct x; try discriminate Hx. reflexivity.
Qed.

Lemma finite32_not_nan (x : float32) : finite32 x = true -> is_nan x = false.
Proof. intros H%finite32_finite. now destruct x. Qed.

Lemma same_eqb_finite32 (a x : float32) :
  same_number a x -> finite32 x = true -> (a =? x) = true.
Proof. intros H Hx. apply same_eqb; [exact H | now apply finite32_not_nan]. Qed.

Lemma is_zero_0 : is_zero $0 = true.
Proof. reflexivity. Qed.

Lemma is_zero_neg_0 : is_zero (- $0) = true.
Proof. reflexivity. Qed.

Create HintDb zeros.
#[export] Hint Resolve is_zero_0 is_zero_neg_0 is_zero_add is_zero_sub
  is_zero_mul_r is_zero_mul_l : zeros.

Ltac zero_term := solve [auto 8 with zeros].

Ltac same_sum :=
  repeat first
    [ apply same_mul_one_r; assumption
    | apply same_mul_one_l; assumption
    | apply same_refl
    | apply same_add_zero_r; [zero_term|]
    | apply same_sub_zero_r; [zero_term|]
    | apply same_add_zero_l; [zero_term|] ].

(** ** The identity matrix *)

Ltac split_andb :=
  repeat match goal with
  | H : (_ && _) = true |- _ => apply andb_true_iff in H; destruct H
  end.

(** X13 (Matrix::Identity and the matrix product).  For a matrix whose
    entries are all finite, [m * Identity == m] and [Identity * m == m]
    in binary32: the products by 1 are exact and the products by 0 are
    zeros, whose addition only can change the sign of a zero. *)
Theorem Matrix_Identity_unit (m : Matrix float32) :
  Matrix_finite32 m = true ->
  Matrix.op_eq (Matrix.op_mul m Matrix.Identity) m = true
  /\ Matrix.op_eq (Matrix.op_mul Matrix.Identity m) m = true.
Proof.
  destruct m as [a11 a12 a13 a14 a21 a22 a23 a24 a31 a32 a33 a34 a41 a42 a43 a44].
  unfold Matrix_finite32. cbn [M11 M12 M13 M14 M21 M22 M23 M24 M31 M32 M33 M34 M41 M42 M43 M44].
  intros H. split_andb.
  split; apply Matrix_op_eq_iff;
    unfold Matrix.op_mul, Matrix.op_mul_assign, Matrix.Identity;
    cbn [M11 M12 M13 M14 M21 M22 M23 M24 M31 M32 M33 M34 M41 M42 M43 M44];
    repeat apply conj; (apply same_eqb_finite32; [same_sum | assumption]).
Qed.

(** ** Transform by a translation *)

Lemma same_add_l (a x p : float32) : same_number a x -> same_number (a + p) (x + p).
Proof.
  intros [->|[Ha Hx]]; [now left|].
  destruct a as [sa| | |]; try discriminate Ha. destruct x as [sx| | |]; try discriminate Hx.
  destruct p as [sp|sp| |sp mp ep]; try (now left).
  right. now destruct sa, sx, sp.
Qed.

Lemma binary_round_aux_not_nan (s : bool) (m e : Z) (l : location) :
  (0 <= m)%Z -> is_nan (binary_round_aux prec emax s m e l) = false.
Proof.
  intros H. pose proof (binary_round_aux_signed s m e l H) as Hs.
  now destruct (binary_round_aux prec emax s m e l).
Qed.

Lemma binary_normalize_not_nan (m e : Z) (s : bool) :
  is_nan (binary_normalize prec emax m e s) = false.
Proof.
  destruct m as [|p|p]; [reflexivity| |]; cbn [binary_normalize]; unfold binary_round;
    destruct (shl_align p e _); now apply binary_round_aux_not_nan.
Qed.

Lemma mul_not_nan (x y : float32) :
  is_finite x = true -> is_finite y = true -> is_nan (x * y) = false.
Proof.
  destruct x as [sx|sx| |sx mx ex]; try discriminate;
    destruct y as [sy|sy| |sy my ey]; try discriminate; intros _ _; try reflexivity.
  change (is_nan (SFmul prec emax (S754_finite sx mx ex) (S754_finite sy my ey)) = false).
  unfold SFmul. now apply binary_round_aux_not_nan.
Qed.

Lemma add_not_nan (x p : float32) :
  is_finite x = true -> is_nan p = false -> is_nan (x + p) = false.
Proof.
  destruct x as [sx|sx| |sx mx ex]; try discriminate;
    destruct p as [sp|sp| |sp mp ep]; try discriminate; intros _ _;
    try reflexivity; try (now destruct sx, sp).
  change (is_nan (SFadd prec emax (S754_finite sx mx ex) (S754_finite sp mp ep)) = false).
  unfold SFadd. apply binary_normalize_not_nan.
Qed.

Lemma eqb_add_l (a x p : float32) :
  same_number a x -> finite32 x = true -> is_nan p = false -> (a + p =? x + p) = true.
Proof.
  intros H Hx Hp. apply same_eqb; [now apply same_add_l|].
  apply add_not_nan; [now apply finite32_finite | exact Hp].
Qed.

(** X14 (Transform and TransformNormal by a matrix, CreateTranslation).
    In binary32, for finite components: transforming by a translation matrix
    adds the translation, [Transform(v, CreateTranslation(t)) == v + t]
    for a Vector2 and [(X + W*t.X, Y + W*t.Y, Z + W*t.Z, W)] for a
    Vector4; TransformNormal ignores the translation (and returns W = 0 for
    a Vector4); and transforming by Matrix::Identity returns the vector. *)
Theorem Transform_by_translation
    (a2 : Vector2 float32) (a3 : Vector3 float32) (a4 : Vector4 float32)
    (t : Vector3 float32) :
  Vector2_finite32 a2 = true -> Vector3_finite32 a3 = true ->
  Vector4_finite32 a4 = true -> Vector3_finite32 t = true ->
  Vector2.op_eq (Vector2.Transform a2 (Matrix.CreateTranslation_vec t))
                (mkVector2 (a2.(v2X) + t.(v3X)) (a2.(v2Y) + t.(v3Y))) = true
  /\ Vector4.op_eq (Vector4.Transform a4 (Matrix.CreateTranslation_vec t))
                   (mkVector4 (a4.(v4X) + a4.(v4W) * t.(v3X))
                              (a4.(v4Y) + a4.(v4W) * t.(v3Y))
                              (a4.(v4Z) + a4.(v4W) * t.(v3Z)) a4.(v4W)) = true
  /\ Vector2.op_eq (Vector2.TransformNormal a2 (Matrix.CreateTranslation_vec t)) a2 = true
  /\ Vector3.op_eq (Vector3.TransformNormal a3 (Matrix.CreateTranslation_vec t)) a3 = true
  /\ Vector4.op_eq (Vector4.TransformNormal a4 (Matrix.CreateTranslation_vec t))
                   (mkVector4 a4.(v4X) a4.(v4Y) a4.(v4Z) $0) = true
  /\ Vector2.op_eq (Vector2.Transform a2 Matrix.Identity) a2 = true
  /\ Vector3.op_eq (Vector3.Transform a3 Matrix.Identity) a3 = true
  /\ Vector4.op_eq (Vector4.Transform a4 Matrix.Identity) a4 = true.
Proof.
  destruct a2 as [x2 y2], a3 as [x3 y3 z3], a4 as [x4 y4 z4 w4], t as [tx ty tz].
  unfold Vector2_finite32, Vector3_finite32, Vector4_finite32.
  cbn [v2X v2Y v3X v3Y v3Z v4X v4Y v4Z v4W]. intros H2 H3 H4 Ht. split_andb.
  assert (F0 : finite32 $0 = true) by reflexivity.
  unfold Vector2.op_eq, Vector3.op_eq, Vector4.op_eq, Vector2.Transform,
    Vector3.Transform, Vector4.Transform, Vector2.TransformNormal,
    Vector3.TransformNormal, Vector4.TransformNormal,
    Matrix.CreateTranslation_vec, Matrix.CreateTranslation, Matrix.Identity.
  cbn [v2X v2Y v3X v3Y v3Z v4X v4Y v4Z v4W
       M11 M12 M13 M14 M21 M22 M23 M24 M31 M32 M33 M34 M41 M42 M43 M44].
  rewrite !andb_true_iff.
  repeat apply conj;
    first
      [ apply same_eqb_finite32; [same_sum | assumption]
      | apply eqb_add_l;
        [ same_sum | assumption
        | first [ apply finite32_not_nan; assumption
                | apply mul_not_nan; apply finite32_finite; assumption ] ] ].
Qed.

Lemma Transform_by_translation_witness :
  Vector2.op_eq (Vector2.Transform (v2 3 (-4)) (Matrix.CreateTranslation_vec (v3 1 2 3)))
                (mkVector2 ((v2 3 (-4)).(v2X) + (v3 1 2 3).(v3X))
                           ((v2 3 (-4)).(v2Y) + (v3 1 2 3).(v3Y))) = true
  /\ Vector4.op_eq (Vector4.Transform (v4 1 2 3 4) (Matrix.CreateTranslation_vec (v3 1 2 3)))
                   (mkVector4 ((v4 1 2 3 4).(v4X) + (v4 1 2 3 4).(v4W) * (v3 1 2 3).(v3X))
                              ((v4 1 2 3 4).(v4Y) + (v4 1 2 3 4).(v4W) * (v3 1 2 3).(v3Y))
                              ((v4 1 2 3 4).(v4Z) + (v4 1 2 3 4).(v4W) * (v3 1 2 3).(v3Z))
                              (v4 1 2 3 4).(v4W)) = true
  /\ Vector2.op_eq (Vector2.TransformNormal (v2 3 (-4))
                      (Matrix.CreateTranslation_vec (v3 1 2 3))) (v2 3 (-4)) = true
  /\ Vector3.op_eq (Vector3.TransformNormal (v3 5 6 7)
                      (Matrix.CreateTranslation_vec (v3 1 2 3))) (v3 5 6 7) = true
  /\ Vector4.op_eq (Vector4.TransformNormal (v4 1 2 3 4)
                      (Matrix.CreateTranslation_vec (v3 1 2 3)))
                   (mkVector4 (v4 1 2 3 4).(v4X) (v4 1 2 3 4).(v4Y) (v4 1 2 3 4).(v4Z) $0)
     = true
  /\ Vector2.op_eq (Vector2.Transform (v2 3 (-4)) Matrix.Identity) (v2 3 (-4)) = true
  /\ Vector3.op_eq (Vector3.Transform (v3 5 6 7) Matrix.Identity) (v3 5 6 7) = true
  /\ Vector4.op_eq (Vector4.Transform (v4 1 2 3 4) Matrix.Identity) (v4 1 2 3 4) = true.
Proof.
  apply (Transform_by_translation (v2 3 (-4)) (v3 5 6 7) (v4 1 2 3 4) (v3 1 2 3));
    reflexivity.
Defined.

Lemma Matrix_Identity_unit_witness :
  Matrix.op_eq (Matrix.op_mul (Matrix.CreateTranslation (f32 1) (f32 2) (f32 3))
                  Matrix.Identity)
               (Matrix.CreateTranslation (f32 1) (f32 2) (f32 3)) = true
  /\ Matrix.op_eq (Matrix.op_mul Matrix.Identity
                     (Matrix.CreateTranslation (f32 1) (f32 2) (f32 3)))
                  (Matrix.CreateTranslation (f32 1) (f32 2) (f32 3)) = true.
Proof.
  apply (Matrix_Identity_unit (Matrix.CreateTranslation (f32 1) (f32 2) (f32 3)));
    reflexivity.
Defined.

(** ** Transform by the identity quaternion *)

Lemma Quaternion_same_finite32 (p q : Quaternion float32) :
  Quaternion_same p q -> Quaternion_finite32 q = true -> Quaternion_finite32 p = true.
Proof.
  unfold Quaternion_same, Quaternion_finite32. intros (Hx & Hy & Hz & Hw) H.
  split_andb. rewrite !andb_true_iff.
  repeat apply conj; eapply same_finite32; eassumption.
Qed.

Lemma Quaternion_same_trans (p q r : Quaternion float32) :
  Quaternion_same p q -> Quaternion_same q r -> Quaternion_same p r.
Proof.
  unfold Quaternion_same. intros (Hx & Hy & Hz & Hw) (Hx' & Hy' & Hz' & Hw').
  repeat apply conj; eapply same_trans; eassumption.
Qed.

(** The product of the identity with a finite quaternion is that
    quaternion, and so is the product of a finite quaternion with
    (-0, -0, -0, 1). *)
Lemma Identity_mul (p : Quaternion float32) :
  Quaternion_finite32 p = true ->
  Quaternion_same (Quaternion.op_mul Quaternion.Identity p) p.
Proof.
  destruct p as [x y z w]. unfold Quaternion_finite32. cbn [qX qY qZ qW].
  intros H. split_andb.
  unfold Quaternion_same, Quaternion.op_mul, Quaternion.op_mul_assign, Quaternion.Identity.
  cbn [qX qY qZ qW]. repeat apply conj; same_sum.
Qed.

Lemma mul_Identity_conj (p : Quaternion float32) :
  Quaternion_finite32 p = true ->
  Quaternion_same (Quaternion.op_mul p q_Identity_conj) p.
Proof.
  destruct p as [x y z w]. unfold Quaternion_finite32. cbn [qX qY qZ qW].
  intros H. split_andb.
  unfold Quaternion_same, Quaternion.op_mul, Quaternion.op_mul_assign, q_Identity_conj.
  cbn [qX qY qZ qW]. repeat apply conj; same_sum.
Qed.

Lemma sandwich_Identity (p : Quaternion float32) :
  Quaternion_finite32 p = true ->
  Quaternion_same
    (Quaternion.op_mul (Quaternion.op_mul Quaternion.Identity p) q_Identity_conj) p.
Proof.
  intros H. pose proof (Identity_mul p H) as H1.
  eapply Quaternion_same_trans; [|exact H1].
  apply mul_Identity_conj. eapply Quaternion_same_finite32; eassumption.
Qed.

Lemma Conjugate_Identity :
  Quaternion.Conjugate (Quaternion.Identity : Quaternion float32) = q_Identity_conj.
Proof. reflexivity. Qed.

Lemma Inverse_Identity :
  Quaternion.Inverse (Quaternion.Identity : Quaternion float32) = q_Identity_conj.
Proof. reflexivity. Qed.

(** X15 (Transform of Vector2, Vector3, Vector4 by a quaternion).
    Vector2 and Vector3 pass their components to the constructor
    Quaternion(x, y, z, w) one place too far: [vQ(0, v.X, v.Y, v.Z)] has
    X = 0 and W = v.Z.  So the identity rotation does not return the
    vector: for finite components, [Transform(v, Quaternion::Identity)] is
    [(0, v.X, v.Y)] for a Vector3 and [(0, v.X)] for a Vector2, while the
    Vector4 version returns [v]. *)
Theorem Transform_by_Identity_quaternion
    (a2 : Vector2 float32) (a3 : Vector3 float32) (a4 : Vector4 float32) :
  Vector2_finite32 a2 = true -> Vector3_finite32 a3 = true ->
  Vector4_finite32 a4 = true ->
  Vector2.op_eq (VectorTransform.Vector2_Transform a2 Quaternion.Identity)
                (mkVector2 $0 a2.(v2X)) = true
  /\ Vector3.op_eq (VectorTransform.Vector3_Transform a3 Quaternion.Identity)
                   (mkVector3 $0 a3.(v3X) a3.(v3Y)) = true
  /\ Vector4.op_eq (VectorTransform.Vector4_Transform a4 Quaternion.Identity) a4 = true.
Proof.
  destruct a2 as [x2 y2], a3 as [x3 y3 z3], a4 as [x4 y4 z4 w4].
  unfold Vector2_finite32, Vector3_finite32, Vector4_finite32.
  cbn [v2X v2Y v3X v3Y v3Z v4X v4Y v4Z v4W]. intros H2 H3 H4. split_andb.
  unfold VectorTransform.Vector2_Transform, VectorTransform.Vector3_Transform,
    VectorTransform.Vector4_Transform.
  cbn [v2X v2Y v3X v3Y v3Z v4X v4Y v4Z v4W].
  rewrite Conjugate_Identity, Inverse_Identity.
  assert (F0 : finite32 $0 = true) by reflexivity.
  destruct (sandwich_Identity (mkQuaternion $0 x2 y2 $0)) as (A1 & A2 & _ & _).
  { unfold Quaternion_finite32. cbn [qX qY qZ qW]. rewrite !andb_true_iff. auto. }
  destruct (sandwich_Identity (mkQuaternion $0 x3 y3 z3)) as (B1 & B2 & B3 & _).
  { unfold Quaternion_finite32. cbn [qX qY qZ qW]. rewrite !andb_true_iff. auto. }
  destruct (sandwich_Identity (mkQuaternion x4 y4 z4 w4)) as (C1 & C2 & C3 & C4).
  { unfold Quaternion_finite32. cbn [qX qY qZ qW]. rewrite !andb_true_iff. auto. }
  cbn [qX qY qZ qW] in *.
  unfold Vector2.op_eq, Vector3.op_eq, Vector4.op_eq.
  cbn [v2X v2Y v3X v3Y v3Z v4X v4Y v4Z v4W].
  rewrite !andb_true_iff.
  repeat apply conj; (apply same_eqb_finite32; assumption).
Qed.

Lemma Transform_by_Identity_quaternion_witness :
  Vector2.op_eq (VectorTransform.Vector2_Transform (v2 3 4) Quaternion.Identity)
                (mkVector2 $0 (v2 3 4).(v2X)) = true
  /\ Vector3.op_eq (VectorTransform.Vector3_Transform (v3 1 2 3) Quaternion.Identity)
                   (mkVector3 $0 (v3 1 2 3).(v3X) (v3 1 2 3).(v3Y)) = true
  /\ Vector4.op_eq (VectorTransform.Vector4_Transform (v4 1 2 3 4) Quaternion.Identity)
                   (v4 1 2 3 4) = true.
Proof.
  apply (Transform_by_Identity_quaternion (v2 3 4) (v3 1 2 3) (v4 1 2 3 4)); reflexivity.
Defined.

(** ** Division by zero: Normalize and the projections *)

Lemma eqb_zero (x : float32) : (x =? $0) = true -> is_zero x = true.
Proof. destruct x as [s|s| |s m e]; try destruct s; try discriminate; reflexivity. Qed.

Lemma div_zero_not_finite (x d : float32) :
  zero_or_nan d = true -> is_finite (x / d) = false.
Proof.
  destruct d as [sd| | |]; try discriminate; intros _; destruct x; reflexivity.
Qed.

Lemma is_zero_zero_or_nan (x : float32) : is_zero x = true -> zero_or_nan x = true.
Proof. now destruct x. Qed.

(** X16 (Normalize of Vector2, Vector3, Vector4, Quaternion).  Normalize
    divides by the computed length without testing it.  When that length
    is zero, no component of the result is a finite number: a zero
    component becomes NaN and any other one an infinity.  This happens for
    the zero vector and also for nonzero vectors whose squared length
    underflows, such as (2^-80, 0, 0). *)
Theorem Normalize_zero_length (sin cos acos log exp : float32 -> float32)
    (a2 : Vector2 float32) (a3 : Vector3 float32) (a4 : Vector4 float32)
    (q : Quaternion float32) :
  let LM := libm sin cos acos log exp in
  ((Vector2.Length a2 =? $0) = true -> Vector2_none_finite (Vector2.Normalize a2) = true)
  /\ ((Vector3.Length a3 =? $0) = true -> Vector3_none_finite (Vector3.Normalize a3) = true)
  /\ ((Vector4.Length a4 =? $0) = true -> Vector4_none_finite (Vector4.Normalize a4) = true)
  /\ ((Quaternion.Length q =? $0) = true ->
      Quaternion_none_finite (Quaternion.Normalize q) = true)
  /\ Vector3.Normalize (v3 0 0 0) = mkVector3 S754_nan S754_nan S754_nan
  /\ Vector3.Normalize (mkVector3 minute $0 $0)
     = mkVector3 (S754_infinity false) S754_nan S754_nan.
Proof.
  intros LM.
  unfold Vector2_none_finite, Vector3_none_finite, Vector4_none_finite,
    Quaternion_none_finite, Vector2.Normalize, Vector3.Normalize, Vector4.Normalize,
    Quaternion.Normalize, Vector2.op_div_assign_scalar, Vector4.op_div_assign_scalar.
  cbn [v2X v2Y v3X v3Y v3Z v4X v4Y v4Z v4W qX qY qZ qW].
  repeat split; try reflexivity;
    intros H%eqb_zero%is_zero_zero_or_nan;
    now rewrite !(div_zero_not_finite _ _ H).
Qed.

(** ** The perspective projections *)

Lemma eqb_sub_zero_or_nan (x y : float32) :
  (x =? y) = true -> zero_or_nan (x - y) = true.
Proof.
  intros H. destruct y as [sy|sy| |sy my ey].
  - destruct (eqb_sub_zero x (S754_zero sy) eq_refl H) as [s ->]. reflexivity.
  - change (SFeqb x (S754_infinity sy) = true) in H.
    destruct x as [sx|sx| |sx mx ex]; try discriminate H;
      destruct sx, sy; try discriminate H; reflexivity.
  - change (SFeqb x S754_nan = true) in H.
    destruct x as [sx|sx| |sx mx ex]; discriminate H.
  - destruct (eqb_sub_zero x (S754_finite sy my ey) eq_refl H) as [s ->]. reflexivity.
Qed.

Lemma eqb_ltb_zero (x y : float32) : (x =? y) = true -> (y <? $0) = (x <? $0).
Proof.
  intros H. change (SFeqb x y = true) in H.
  destruct x as [sx|sx| |sx mx ex], y as [sy|sy| |sy my ey];
    try discriminate H; try (destruct sx; discriminate H);
    try (destruct sy; discriminate H);
    destruct sx, sy; (discriminate H || reflexivity).
Qed.

Lemma eqb_ltb_false (x y : float32) : (x =? y) = true -> (y <? x) = false.
Proof.
  change (SFeqb x y = true -> SFltb y x = false). unfold SFeqb, SFltb.
  rewrite (SFcompare_antisym x y).
  destruct (SFcompare x y) as [[]|]; cbn; intros H; try discriminate H; reflexivity.
Qed.

Section Perspective.
Context {F : Type} {SF : Scalar F}.

Lemma CreatePerspective_throws (w h zN zF : F) :
  throws (Matrix.CreatePerspective w h zN zF)
  = (zN >? zF) || ((zN <? $0) || (zF <? $0)).
Proof.
  unfold Matrix.CreatePerspective.
  destruct (zN >? zF); [reflexivity|].
  destruct ((zN <? $0) || (zF <? $0)); reflexivity.
Qed.

Lemma CreatePerspectiveOffCenter_throws (l r b t zN zF : F) :
  throws (Matrix.CreatePerspectiveOffCenter l r b t zN zF)
  = (zN >? zF) || ((zN <? $0) || (zF <? $0)).
Proof.
  unfold Matrix.CreatePerspectiveOffCenter.
  destruct (zN >? zF); [reflexivity|].
  destruct ((zN <? $0) || (zF <? $0)); reflexivity.
Qed.

End Perspective.

(** X17 (Matrix::CreatePerspective, CreatePerspectiveOffCenter).  Both
    throw std::out_of_range exactly when [zN > zF] or one of the depths is
    below zero, and the first test decides the message.  A NaN depth fails
    none of the tests: with both depths NaN they return a matrix. *)
Theorem CreatePerspective_throws_iff (w h l r b t zN zF : float32) :
  (throws (Matrix.CreatePerspective w h zN zF) = true
   <-> (zN >? zF) = true \/ (zN <? $0) = true \/ (zF <? $0) = true)
  /\ (throws (Matrix.CreatePerspectiveOffCenter l r b t zN zF) = true
      <-> (zN >? zF) = true \/ (zN <? $0) = true \/ (zF <? $0) = true)
  /\ ((zN >? zF) = true ->
      Matrix.CreatePerspective w h zN zF
      = OutOfRange "zNear must be less than or equal to zFar"
      /\ Matrix.CreatePerspectiveOffCenter l r b t zN zF
         = OutOfRange "zNear must be less than or equal to zFar")
  /\ (is_nan zN = true -> is_nan zF = true ->
      throws (Matrix.CreatePerspective w h zN zF) = false
      /\ throws (Matrix.CreatePerspectiveOffCenter l r b t zN zF) = false).
Proof.
  rewrite CreatePerspective_throws, CreatePerspectiveOffCenter_throws.
  rewrite !orb_true_iff. repeat split; try tauto.
  - unfold Matrix.CreatePerspective. now rewrite H.
  - unfold Matrix.CreatePerspectiveOffCenter. now rewrite H.
  - destruct zN, zF; try discriminate; reflexivity.
  - destruct zN, zF; try discriminate; reflexivity.
Qed.

(** X18 (CreatePerspective, CreatePerspectiveOffCenter,
    CreateOrthographic).  Equal depths pass the tests ([zN > zF] is false)
    although the matrix divides by [zN - zF]: for [zN == zF], not below
    zero, the perspective functions return a matrix whose entries M33 and
    M43 are not finite numbers, and so does CreateOrthographic, which has
    no test at all. *)
Theorem Projection_equal_depths (w h l r b t zN zF : float32) :
  (zN =? zF) = true -> (zN <? $0) = false ->
  (exists m, Matrix.CreatePerspective w h zN zF = Returns m
             /\ is_finite m.(M33) = false /\ is_finite m.(M43) = false)
  /\ (exists m, Matrix.CreatePerspectiveOffCenter l r b t zN zF = Returns m
                /\ is_finite m.(M33) = false /\ is_finite m.(M43) = false)
  /\ is_finite (Matrix.CreateOrthographic w h zN zF).(M33) = false
  /\ is_finite (Matrix.CreateOrthographic w h zN zF).(M43) = false.
Proof.
  intros He Hn.
  pose proof (eqb_sub_zero_or_nan zN zF He) as Hd.
  pose proof (eqb_ltb_zero zN zF He) as Hf. rewrite Hn in Hf.
  pose proof (eqb_ltb_false zN zF He) as Hg.
  unfold Matrix.CreatePerspective, Matrix.CreatePerspectiveOffCenter,
    Matrix.CreateOrthographic.
  rewrite Hg, Hn, Hf. cbn [orb M33 M43].
  repeat split; try (eexists; split; [reflexivity|]; cbn [M33 M43]; split);
    now apply div_zero_not_finite.
Qed.

Lemma Projection_equal_depths_witness :
  (exists m, Matrix.CreatePerspective (f32 4) (f32 3) (f32 1) (f32 1) = Returns m
             /\ is_finite m.(M33) = false /\ is_finite m.(M43) = false)
  /\ (exists m, Matrix.CreatePerspectiveOffCenter
                  (f32 0) (f32 4) (f32 0) (f32 3) (f32 1) (f32 1) = Returns m
                /\ is_finite m.(M33) = false /\ is_finite m.(M43) = false)
  /\ is_finite (Matrix.CreateOrthographic (f32 4) (f32 3) (f32 1) (f32 1)).(M33) = false
  /\ is_finite (Matrix.CreateOrthographic (f32 4) (f32 3) (f32 1) (f32 1)).(M43) = false.
Proof.
  apply (Projection_equal_depths (f32 4) (f32 3) (f32 0) (f32 4) (f32 0) (f32 3)
           (f32 1) (f32 1)); reflexivity.
Defined.

(** ** MathHelper::CatmullRom at the end points *)

Lemma same_mul_one_l_of (a x : float32) :
  finite32 x = true -> same_number a x -> same_number ($1 * a) x.
Proof.
  intros Hx H. pose proof (same_finite32 a x H Hx) as Ha.
  eapply same_trans; [|exact H]. now apply same_mul_one_l.
Qed.

Lemma CatmullRom_1_binary32 (p1 p2 p3 p4 : float32) :
  finite32 p1 = true -> finite32 p2 = true -> finite32 p3 = true -> finite32 p4 = true ->
  (MathHelper.CatmullRom p1 p2 p3 p4 $1 =? p3) = true.
Proof.
  intros F1 F2 F3 F4. apply same_eqb_finite32; [|exact F3].
  unfold MathHelper.CatmullRom. cbv zeta.
  change (- lit 5 10 + $1 * ($1 - $1 / $2))%flt with (@ofZ float32 Binary32.scalar 0).
  change ($1 + $1 * $1 * (- lit 25 10 + lit 15 10 * $1))%flt with (@ofZ float32 Binary32.scalar 0).
  change (lit 5 10 + $1 * ($2 - lit 15 10 * $1))%flt with (@ofZ float32 Binary32.scalar 1).
  change ((- lit 5 10 + $1 / $2) * $1)%flt with (@ofZ float32 Binary32.scalar 0).
  apply same_add_zero_l; [zero_term|].
  apply same_mul_one_l_of; [exact F3|]. same_sum.
Qed.

Ltac exact_literals :=
  change (@ofZ Q Exact.scalar 0) with 0%Q in *;
  change (@ofZ Q Exact.scalar 1) with 1%Q in *;
  change (@ofZ Q Exact.scalar 2) with 2%Q in *;
  change (@ofZ Q Exact.scalar 3) with 3%Q in *;
  change (@lit Q Exact.scalar 5 10) with (5 / 10)%Q in *;
  change (@lit Q Exact.scalar 15 10) with (15 / 10)%Q in *;
  change (@lit Q Exact.scalar 25 10) with (25 / 10)%Q in *.

Lemma CatmullRom_exact (p1 p2 p3 p4 : Q) :
  (MathHelper.CatmullRom p1 p2 p3 p4 $0 == p2)%Q
  /\ (MathHelper.CatmullRom p1 p2 p3 p4 $1 == p3)%Q.
Proof.
  unfold MathHelper.CatmullRom. cbv zeta. exact_literals.
  cbv [add sub mul div neg Exact.scalar]. split; field.
Qed.

(** X19 (MathHelper::CatmullRom).  The spline passes through its two
    inner control points: in binary32, [CatmullRom(p1, p2, p3, p4, 1) == p3]
    for all finite control points (the four coefficients are computed
    exactly as 0, 0, 1 and 0); in exact arithmetic the value at 0 is p2 and
    the value at 1 is p3. *)
Theorem CatmullRom_end_points (p1 p2 p3 p4 : float32) (x1 x2 x3 x4 : Q) :
  finite32 p1 = true -> finite32 p2 = true -> finite32 p3 = true -> finite32 p4 = true ->
  (MathHelper.CatmullRom p1 p2 p3 p4 $1 =? p3) = true
  /\ (MathHelper.CatmullRom x1 x2 x3 x4 $0 == x2)%Q
  /\ (MathHelper.CatmullRom x1 x2 x3 x4 $1 == x3)%Q.
Proof.
  intros F1 F2 F3 F4. split; [now apply CatmullRom_1_binary32 | apply CatmullRom_exact].
Qed.

Lemma CatmullRom_end_points_witness :
  (MathHelper.CatmullRom (f32 1) (f32 2) (f32 4) (f32 8) $1 =? f32 4) = true
  /\ (MathHelper.CatmullRom (1 # 1) (2 # 1) (4 # 1) (8 # 1) $0 == 2 # 1)%Q
  /\ (MathHelper.CatmullRom (1 # 1) (2 # 1) (4 # 1) (8 # 1) $1 == 4 # 1)%Q.
Proof.
  apply (CatmullRom_end_points (f32 1) (f32 2) (f32 4) (f32 8)
           (1 # 1)%Q (2 # 1)%Q (4 # 1)%Q (8 # 1)%Q); reflexivity.
Defined.

(** ** The algebra of the formulas, in exact arithmetic *)

Ltac exact_ops :=
  exact_literals; cbv [add sub mul div neg Exact.scalar] in *.

Ltac exact_quaternion :=
  cbv [Quaternion_Qeq Quaternion.op_mul Quaternion.op_mul_assign Quaternion.Identity
       Quaternion.Inverse Quaternion.Conjugate Quaternion.LengthSquared
       Quaternion.op_div_assign_scalar Quaternion.op_div Quaternion.op_div_assign
       Quaternion.Concatenate Quaternion.Dot qX qY qZ qW] in *;
  exact_ops.

Lemma LengthSquared_Conjugate_exact (x y z w : Q) :
  ~ (x * x + y * y + z * z + w * w == 0)%Q ->
  ~ (- x * - x + - y * - y + - z * - z + w * w == 0)%Q.
Proof. intros H E. apply H. rewrite <- E. ring. Qed.



(** X21 (Quaternion division).  In exact arithmetic, dividing by a
    quaternion of nonzero length is multiplying by its inverse on the
    left: [a / b] is [Inverse(b) * a].  So the division undoes a
    multiplication on the left: [(b * a) / b] and [b * (a / b)] are [a]. *)
Theorem Quaternion_division_exact (a b : Quaternion Q) :
  ~ (Quaternion.LengthSquared b == 0)%Q ->
  Quaternion_Qeq (Quaternion.op_div a b) (Quaternion.op_mul (Quaternion.Inverse b) a)
  /\ Quaternion_Qeq (Quaternion.op_div (Quaternion.op_mul b a) b) a
  /\ Quaternion_Qeq (Quaternion.op_mul b (Quaternion.op_div a b)) a.
Proof.
  destruct a as [ax ay az aw], b as [bx by_ bz bw].
  intros H. exact_quaternion. pose proof (LengthSquared_Conjugate_exact _ _ _ _ H) as H'.
  repeat apply conj; field; auto.
Qed.

Lemma Quaternion_division_exact_witness :
  Quaternion_Qeq (Quaternion.op_div (mkQuaternion 1 2 3 4) (mkQuaternion 0 1 0 1))
                 (Quaternion.op_mul (Quaternion.Inverse (mkQuaternion 0 1 0 1))
                    (mkQuaternion 1 2 3 4))
  /\ Quaternion_Qeq
       (Quaternion.op_div (Quaternion.op_mul (mkQuaternion 0 1 0 1) (mkQuaternion 1 2 3 4))
                          (mkQuaternion 0 1 0 1))
       (mkQuaternion 1 2 3 4)
  /\ Quaternion_Qeq
       (Quaternion.op_mul (mkQuaternion 0 1 0 1)
          (Quaternion.op_div (mkQuaternion 1 2 3 4) (mkQuaternion 0 1 0 1)))
       (mkQuaternion 1 2 3 4).
Proof.
  apply (Quaternion_division_exact (mkQuaternion 1 2 3 4) (mkQuaternion 0 1 0 1)).
  vm_compute. discriminate.
Defined.

Ltac exact_matrix :=
  cbv [Matrix_Qeq Vector4_Qeq Vector3_Qeq Vector2_Qeq
       Matrix.Determinant Matrix.op_mul Matrix.op_mul_assign Matrix.Invert
       Matrix.op_scalar_mul Matrix.op_mul_scalar Matrix.op_mul_assign_scalar
       Matrix.Identity Matrix.Transpose Matrix.CreateFromQuaternion
       Matrix.CreateScale
       Matrix.CreateTranslation Matrix.CreateTranslation_vec
       Vector4.Transform Vector4.TransformNormal Vector2.Transform Vector3.TransformNormal
       VectorTransform.Vector4_Transform
       M11 M12 M13 M14 M21 M22 M23 M24 M31 M32 M33 M34 M41 M42 M43 M44
       v2X v2Y v3X v3Y v3Z v4X v4Y v4Z v4W] in *;
  exact_quaternion.

(** X22 (Matrix product, Determinant, Transpose).  In exact arithmetic
    the matrix product is associative and the determinant is
    multiplicative and invariant under Transpose. *)
Theorem Matrix_product_exact (a b c : Matrix Q) :
  Matrix_Qeq (Matrix.op_mul (Matrix.op_mul a b) c) (Matrix.op_mul a (Matrix.op_mul b c))
  /\ (Matrix.Determinant (Matrix.op_mul a b)
      == Matrix.Determinant a * Matrix.Determinant b)%Q
  /\ (Matrix.Determinant (Matrix.Transpose a) == Matrix.Determinant a)%Q.
Proof.
  destruct a as [a11 a12 a13 a14 a21 a22 a23 a24 a31 a32 a33 a34 a41 a42 a43 a44].
  destruct b as [b11 b12 b13 b14 b21 b22 b23 b24 b31 b32 b33 b34 b41 b42 b43 b44].
  destruct c as [c11 c12 c13 c14 c21 c22 c23 c24 c31 c32 c33 c34 c41 c42 c43 c44].
  exact_matrix. repeat apply conj; ring.
Qed.

(** X23 (Matrix::Invert).  In exact arithmetic, for a matrix of nonzero
    determinant, [Invert(m)] is also a left inverse, its determinant is the
    reciprocal of the determinant, and inverting commutes with
    Transpose. *)
Theorem Invert_left_exact (m : Matrix Q) :
  ~ (Matrix.Determinant m == 0)%Q ->
  Matrix_Qeq (Matrix.op_mul (Matrix.Invert m) m) Matrix.Identity
  /\ (Matrix.Determinant (Matrix.Invert m) == 1 / Matrix.Determinant m)%Q
  /\ Matrix_Qeq (Matrix.Invert (Matrix.Transpose m)) (Matrix.Transpose (Matrix.Invert m)).
Proof.
  destruct m as [a11 a12 a13 a14 a21 a22 a23 a24 a31 a32 a33 a34 a41 a42 a43 a44].
  intros Hdet.
  assert (Ht : ~ (Matrix.Determinant
                    (Matrix.Transpose
                       (mkMatrix a11 a12 a13 a14 a21 a22 a23 a24
                                 a31 a32 a33 a34 a41 a42 a43 a44)) == 0)%Q).
  { intros E. apply Hdet. rewrite <- E. exact_matrix. ring. }
  exact_matrix.
  repeat apply conj; field; auto.
Qed.

Lemma Invert_left_exact_witness :
  Matrix_Qeq (Matrix.op_mul (Matrix.Invert exact_diagonal) exact_diagonal) Matrix.Identity
  /\ (Matrix.Determinant (Matrix.Invert exact_diagonal)
      == 1 / Matrix.Determinant exact_diagonal)%Q
  /\ Matrix_Qeq (Matrix.Invert (Matrix.Transpose exact_diagonal))
                (Matrix.Transpose (Matrix.Invert exact_diagonal)).
Proof. apply (Invert_left_exact exact_diagonal). vm_compute. discriminate. Defined.



(** X25 (Vector4::Transform by a quaternion, Matrix::CreateFromQuaternion).
    In exact arithmetic, for a quaternion of length 1, rotating a Vector4
    by the quaternion, [q * v * Inverse(q)], is transforming it by the
    matrix [CreateFromQuaternion(q)]; and that matrix has determinant 1. *)
Theorem Vector4_Transform_quaternion_exact (v : Vector4 Q) (q : Quaternion Q) :
  (Quaternion.LengthSquared q == 1)%Q ->
  Vector4_Qeq (VectorTransform.Vector4_Transform v q)
              (Vector4.Transform v (Matrix.CreateFromQuaternion q))
  /\ (Matrix.Determinant (Matrix.CreateFromQuaternion q) == 1)%Q.
Proof.
  destruct v as [vx vy vz vw], q as [x y z w]. intros H.
  exact_matrix.
  assert (H' : (- x * - x + - y * - y + - z * - z + w * w == 1)%Q)
    by (rewrite <- H; ring).
  rewrite !H'. unfold Qdiv. change (/ 1)%Q with 1%Q.
  repeat apply conj.
  - transitivity (vx * (1 - 2 * y * y - 2 * z * z) + vy * (2 * x * y - 2 * z * w)
                  + vz * (2 * x * z + 2 * y * w) + vw * 0
                  + vx * ((x * x + y * y + z * z + w * w) - 1))%Q; [ring|].
    rewrite H. ring.
  - transitivity (vx * (2 * x * y + 2 * z * w) + vy * (1 - 2 * x * x - 2 * z * z)
                  + vz * (2 * y * z - 2 * x * w) + vw * 0
                  + vy * ((x * x + y * y + z * z + w * w) - 1))%Q; [ring|].
    rewrite H. ring.
  - transitivity (vx * (2 * x * z - 2 * y * w) + vy * (2 * y * z + 2 * x * w)
                  + vz * (1 - 2 * x * x - 2 * y * y) + vw * 0
                  + vz * ((x * x + y * y + z * z + w * w) - 1))%Q; [ring|].
    rewrite H. ring.
  - transitivity (vx * 0 + vy * 0 + vz * 0 + vw * 1
                  + vw * ((x * x + y * y + z * z + w * w) - 1))%Q; [ring|].
    rewrite H. ring.
  - transitivity (1 + 4 * (x * x + y * y + z * z)
                      * ((x * x + y * y + z * z + w * w) - 1))%Q; [ring|].
    rewrite H. ring.
Qed.

Lemma Vector4_Transform_quaternion_exact_witness :
  Vector4_Qeq
    (VectorTransform.Vector4_Transform (mkVector4 1 2 3 1) (mkQuaternion (3 # 5) 0 0 (4 # 5)))
    (Vector4.Transform (mkVector4 1 2 3 1)
       (Matrix.CreateFromQuaternion (mkQuaternion (3 # 5) 0 0 (4 # 5))))
  /\ (Matrix.Determinant (Matrix.CreateFromQuaternion (mkQuaternion (3 # 5) 0 0 (4 # 5)))
      == 1)%Q.
Proof.
  apply (Vector4_Transform_quaternion_exact (mkVector4 1 2 3 1)
           (mkQuaternion (3 # 5) 0 0 (4 # 5))).
  reflexivity.
Defined.

Ltac exact_vector :=
  cbv [Vector3.Cross Vector3.Dot Vector3.op_neg Vector3.op_add Vector3.op_sub
       Vector3.op_scalar_mul Vector3.op_mul_scalar Vector3.Reflect Vector3.LengthSquared
       Vector2.Dot Vector2.op_add Vector2.op_sub Vector2.op_scalar_mul
       Vector2.op_mul_scalar Vector2.Reflect Vector2.LengthSquared] in *;
  exact_matrix.

(** X26 (Vector3::Cross, Dot).  In exact arithmetic the cross product is
    orthogonal to both factors, anticommutative, and satisfies the
    identity of Lagrange
    [|a x b|^2 + (a . b)^2 = |a|^2 |b|^2]. *)
Theorem Cross_exact (a b : Vector3 Q) :
  (Vector3.Dot (Vector3.Cross a b) a == 0)%Q
  /\ (Vector3.Dot (Vector3.Cross a b) b == 0)%Q
  /\ Vector3_Qeq (Vector3.Cross a b) (Vector3.op_neg (Vector3.Cross b a))
  /\ (Vector3.LengthSquared (Vector3.Cross a b) + Vector3.Dot a b * Vector3.Dot a b
      == Vector3.LengthSquared a * Vector3.LengthSquared b)%Q.
Proof.
  destruct a as [ax ay az], b as [bx by_ bz].
  exact_vector. repeat apply conj; ring.
Qed.



(** ** The order on Vector3 *)

Lemma ltb_asym (x y : float32) : (x <? y) = true -> (y <? x) = false.
Proof. intros H. apply leb_ltb_false. now apply ltb_leb. Qed.

Lemma ltb_leb_false (x y : float32) : (x <? y) = true -> (y <=? x) = false.
Proof.
  change (SFltb x y = true -> SFleb y x = false). unfold SFltb, SFleb.
  rewrite (SFcompare_antisym x y).
  destruct (SFcompare x y) as [[]|]; cbn; intros H; try discriminate H; reflexivity.
Qed.

Lemma ltb_eqb_false (x y : float32) : (x <? y) = true -> (x =? y) = false.
Proof.
  change (SFltb x y = true -> SFeqb x y = false). unfold SFltb, SFeqb.
  destruct (SFcompare x y) as [[]|]; intros H; try discriminate H; reflexivity.
Qed.

(** X28 (comparison operators of Vector3).  The operators compare every
    component, so they give a partial order only: [a < b] implies
    [a <= b], [b > a], [a != b] and excludes [b < a], but [!(a < b)] does not
    imply [a >= b]: (0, 1, 0) and (1, 0, 0) are related by none of
    [<], [>], [<=], [>=], [==]. *)
Theorem Vector3_order_partial (a b : Vector3 float32) :
  (Vector3.op_lt a b = true ->
   Vector3.op_le a b = true /\ Vector3.op_gt b a = true
   /\ Vector3.op_lt b a = false /\ Vector3.op_eq a b = false)
  /\ Vector3.op_lt a b && Vector3.op_ge a b = false
  /\ ~ (forall u v : Vector3 float32, Vector3.op_lt u v = false -> Vector3.op_ge u v = true)
  /\ (let u := v3 0 1 0 in let v := v3 1 0 0 in
      Vector3.op_lt u v || Vector3.op_gt u v || Vector3.op_le u v
      || Vector3.op_ge u v || Vector3.op_eq u v = false).
Proof.
  destruct a as [ax ay az], b as [bx by_ bz].
  unfold Vector3.op_lt, Vector3.op_le, Vector3.op_gt, Vector3.op_ge, Vector3.op_eq.
  cbn [v3X v3Y v3Z]. repeat split.
  - apply andb_true_iff in H. destruct H as [H Hz].
    apply andb_true_iff in H. destruct H as [Hx Hy].
    now rewrite (ltb_leb _ _ Hx), (ltb_leb _ _ Hy), (ltb_leb _ _ Hz).
  - exact H.
  - apply andb_true_iff in H. destruct H as [H Hz].
    apply andb_true_iff in H. destruct H as [Hx Hy].
    now rewrite (ltb_asym _ _ Hx).
  - apply andb_true_iff in H. destruct H as [H Hz].
    apply andb_true_iff in H. destruct H as [Hx Hy].
    now rewrite (ltb_eqb_false _ _ Hx).
  - destruct (ax <? bx) eqn:Hx; [|reflexivity].
    rewrite (ltb_leb_false _ _ Hx). cbn [andb]. now rewrite !andb_false_r.
  - intros H. specialize (H (v3 0 1 0) (v3 1 0 0) eq_refl). discriminate H.
Qed.

(** ** Quaternion::CreateFromRotationMatrix *)

Lemma mul_infinity_not_finite (s : bool) (d : float32) :
  is_finite (S754_infinity s * d) = false.
Proof. now destruct d. Qed.

(** X29 (Quaternion::CreateFromRotationMatrix, Matrix::Decompose).  The
    quaternion is computed from [w = 0.5 * sqrt(1 + M11 - M22 - M33)] and
    [1 / (4 * w)] without a test of [w].  When [1 + M11 - M22 - M33] is
    zero, W is zero and X, Y and Z are NaN or infinite.  This is the case of
    the identity and of every translation matrix: Decompose then returns
    true with scale (1, 1, 1), the translation, and the rotation
    (NaN, NaN, NaN, 0) instead of the identity quaternion. *)
Theorem CreateFromRotationMatrix_degenerate (sin cos acos log exp : float32 -> float32)
    (m : Matrix float32) (x y z : float32)
    (s : Vector3 float32) (r : Quaternion float32) (t : Vector3 float32) :
  let LM := libm sin cos acos log exp in
  (is_zero ($1 + m.(M11) - m.(M22) - m.(M33)) = true ->
   is_zero (Quaternion.CreateFromRotationMatrix m).(qW) = true
   /\ is_finite (Quaternion.CreateFromRotationMatrix m).(qX) = false
   /\ is_finite (Quaternion.CreateFromRotationMatrix m).(qY) = false
   /\ is_finite (Quaternion.CreateFromRotationMatrix m).(qZ) = false)
  /\ Quaternion.CreateFromRotationMatrix Matrix.Identity
     = mkQuaternion S754_nan S754_nan S754_nan $0
  /\ Matrix.Decompose (Matrix.CreateTranslation x y z) s r t
     = (true, (v3 1 1 1, mkQuaternion S754_nan S754_nan S754_nan $0, mkVector3 x y z)).
Proof.
  intros LM. split; [|split; reflexivity].
  unfold Quaternion.CreateFromRotationMatrix. cbn [qX qY qZ qW].
  intros H. destruct ($1 + M11 m - M22 m - M33 m) as [sz| | |]; try discriminate H.
  change (sqrtf (S754_zero sz)) with (S754_zero sz).
  change (lit 5 10 * S754_zero sz)%flt with (S754_zero sz).
  change ($4 * S754_zero sz)%flt with (S754_zero sz).
  change ($1 / S754_zero sz)%flt with (S754_infinity sz).
  repeat split; apply mul_infinity_not_finite.
Qed.

(** ** The overloads of Transform on std::vector *)

Section Loop.
Context {A : Type} (f : A -> A).

Lemma at_index_nat (source : list A) (k : nat) :
  VectorTransform.at_index source (Z.of_nat k) = nth_error source k.
Proof.
  unfold VectorTransform.at_index.
  destruct (Z.leb_spec 0 (Z.of_nat k)); [now rewrite Nat2Z.id | lia].
Qed.

Lemma assign_index_nat (dest : list A) (k : nat) (x : A) :
  VectorTransform.assign_index dest (Z.of_nat k) x
  = if (k <? length dest)%nat
    then Some (firstn k dest ++ x :: skipn (S k) dest) else None.
Proof.
  unfold VectorTransform.assign_index. rewrite Nat2Z.id.
  destruct (Nat.ltb_spec k (length dest)).
  - destruct (Z.leb_spec 0 (Z.of_nat k)); [|lia].
    destruct (Z.ltb_spec (Z.of_nat k) (Z.of_nat (length dest))); [reflexivity|lia].
  - destruct (Z.ltb_spec (Z.of_nat k) (Z.of_nat (length dest))); [lia|].
    now rewrite andb_false_r.
Qed.

Lemma assigned_length (dest : list A) (k : nat) (x : A) :
  (k < length dest)%nat ->
  length (firstn k dest ++ x :: skipn (S k) dest) = length dest.
Proof.
  intros H. rewrite length_app, length_firstn. cbn [length].
  rewrite length_skipn. lia.
Qed.

Lemma firstn_assigned (dest : list A) (k : nat) (x : A) :
  (k < length dest)%nat ->
  firstn (S k) (firstn k dest ++ x :: skipn (S k) dest) = firstn k dest ++ x :: nil.
Proof.
  intros H.
  assert (Hk : length (firstn k dest) = k) by (rewrite length_firstn; lia).
  rewrite firstn_app, Hk.
  replace (S k - k)%nat with 1%nat by lia.
  rewrite firstn_all2 by lia. reflexivity.
Qed.

Lemma skipn_assigned (dest : list A) (k j : nat) (x : A) :
  (k < length dest)%nat -> (k < j)%nat ->
  skipn j (firstn k dest ++ x :: skipn (S k) dest) = skipn j dest.
Proof.
  intros H Hj.
  assert (Hk : length (firstn k dest) = k) by (rewrite length_firstn; lia).
  rewrite skipn_app, Hk.
  rewrite skipn_all2 by lia. cbn [app].
  replace (j - k)%nat with (S (j - S k)) by lia.
  change (skipn (S (j - S k)) (x :: skipn (S k) dest))
    with (skipn (j - S k) (skipn (S k) dest)).
  rewrite skipn_skipn. f_equal. lia.
Qed.

(** An assignment changes no other element. *)
Lemma nth_error_assigned (dest : list A) (k j : nat) (x : A) :
  (k < length dest)%nat -> j <> k ->
  nth_error (firstn k dest ++ x :: skipn (S k) dest) j = nth_error dest j.
Proof.
  intros H Hj.
  assert (Hk : length (firstn k dest) = k) by (rewrite length_firstn; lia).
  destruct (Nat.lt_ge_cases j k) as [Hlt|Hge].
  - rewrite nth_error_app1 by lia. rewrite nth_error_firstn.
    now destruct (Nat.ltb_spec j k); [|lia].
  - rewrite nth_error_app2 by lia. rewrite Hk.
    replace (j - k)%nat with (S (j - S k)) by lia. cbn [nth_error].
    rewrite nth_error_skipn. f_equal. lia.
Qed.

Lemma firstn_skipn_cons (source : list A) (k n : nat) (x : A) :
  nth_error source k = Some x ->
  firstn (S n) (skipn k source) = x :: firstn n (skipn (S k) source).
Proof.
  revert k. induction source as [|a l IH]; intros [|k] H; try discriminate H.
  - cbn in H. injection H as ->. reflexivity.
  - cbn [nth_error] in H. cbn [skipn]. now apply IH.
Qed.

Lemma in_int_range (z : Z) :
  (- 2 ^ 31 <= z < 2 ^ 31)%Z -> VectorTransform.in_int z = true.
Proof.
  intros H. unfold VectorTransform.in_int.
  apply andb_true_iff. split; [apply Z.leb_le|apply Z.ltb_lt]; lia.
Qed.

Lemma in_int_nat (n : nat) : (Z.of_nat n < 2 ^ 31)%Z -> VectorTransform.in_int (Z.of_nat n) = true.
Proof.
  intros H. unfold VectorTransform.in_int.
  apply andb_true_iff. split; [apply Z.leb_le|apply Z.ltb_lt]; lia.
Qed.

Lemma int_sub_nat (a k : nat) :
  (Z.of_nat (a + k) < 2 ^ 31)%Z ->
  VectorTransform.int_sub (Z.of_nat (a + k)) (Z.of_nat a) = Some (Z.of_nat k).
Proof.
  intros H. unfold VectorTransform.int_sub.
  replace (Z.of_nat (a + k) - Z.of_nat a)%Z with (Z.of_nat k) by lia.
  now rewrite in_int_nat by lia.
Qed.

Lemma int_add_nat (a k : nat) :
  (Z.of_nat (a + k) < 2 ^ 31)%Z ->
  VectorTransform.int_add (Z.of_nat a) (Z.of_nat k) = Some (Z.of_nat (a + k)).
Proof.
  intros H. unfold VectorTransform.int_add.
  replace (Z.of_nat a + Z.of_nat k)%Z with (Z.of_nat (a + k)) by lia.
  now rewrite in_int_nat by lia.
Qed.

Lemma int_sub_inv (i a k : Z) : VectorTransform.int_sub i a = Some k -> k = (i - a)%Z.
Proof. unfold VectorTransform.int_sub. destruct (VectorTransform.in_int _); congruence. Qed.

Lemma int_add_inv (i a k : Z) : VectorTransform.int_add i a = Some k -> k = (i + a)%Z.
Proof. unfold VectorTransform.int_add. destruct (VectorTransform.in_int _); congruence. Qed.

Lemma update_same (st : VectorTransform.store A) (r : VectorTransform.ref) (v : list A) :
  VectorTransform.update st r v r = v.
Proof. unfold VectorTransform.update. now rewrite Nat.eqb_refl. Qed.

Lemma update_other (st : VectorTransform.store A) (r r' : VectorTransform.ref) (v : list A) :
  r' <> r -> VectorTransform.update st r v r' = st r'.
Proof.
  intros H. unfold VectorTransform.update.
  now destruct (Nat.eqb_spec r' r).
Qed.

(** One iteration with its indices in range. *)
Lemma transform_loop_step (source dest : VectorTransform.ref) (a b n k : nat)
    (st : VectorTransform.store A) (x : A) :
  nth_error (st source) (a + k) = Some x ->
  (b + k < length (st dest))%nat ->
  (Z.of_nat (a + k) + 1 < 2 ^ 31)%Z -> (Z.of_nat (b + k) < 2 ^ 31)%Z ->
  VectorTransform.transform_loop f source (Z.of_nat a) dest (Z.of_nat b) (S n)
    (Z.of_nat (a + k)) st
  = VectorTransform.transform_loop f source (Z.of_nat a) dest (Z.of_nat b) n
      (Z.of_nat (a + S k))
      (VectorTransform.update st dest
         (firstn (b + k) (st dest) ++ f x :: skipn (S (b + k)) (st dest))).
Proof.
  intros Hx Hb Ha Hb'. cbn [VectorTransform.transform_loop].
  rewrite at_index_nat, Hx, int_sub_nat, int_add_nat, assign_index_nat by lia.
  destruct (Nat.ltb_spec (b + k) (length (st dest))) as [_|]; [|lia].
  change 1%Z with (Z.of_nat 1). rewrite int_add_nat by lia.
  do 2 f_equal. lia.
Qed.

(** The loop from its [k]-th iteration on, when the ranges are inside the
    vectors and no element is read after it was written: the vectors are
    distinct, or the destination range starts at or before the source
    range, or it starts after the end of it. *)
Lemma transform_loop_in_range (source dest : VectorTransform.ref) (a b N : nat)
    (S0 : list A) :
  (a + N <= length S0)%nat ->
  (Z.of_nat (a + N) < 2 ^ 31)%Z -> (Z.of_nat (b + N) < 2 ^ 31)%Z ->
  (source = dest -> (b <= a)%nat \/ (a + N <= b)%nat) ->
  forall (n k : nat) (st : VectorTransform.store A),
    (k + n = N)%nat ->
    (b + N <= length (st dest))%nat ->
    (forall j, (k <= j < N)%nat -> nth_error (st source) (a + j) = nth_error S0 (a + j)) ->
    exists st',
      VectorTransform.transform_loop f source (Z.of_nat a) dest (Z.of_nat b) n
        (Z.of_nat (a + k)) st = Some st'
      /\ st' dest = firstn (b + k) (st dest)
                    ++ map f (firstn n (skipn (a + k) S0))
                    ++ skipn (b + k + n) (st dest)
      /\ forall r, r <> dest -> st' r = st r.
Proof.
  intros HS Ha Hb Hsafe.
  induction n as [|n IH]; intros k st Hk Hd Hread.
  - exists st. cbn [VectorTransform.transform_loop firstn map app].
    rewrite Nat.add_0_r, firstn_skipn. auto.
  - destruct (nth_error S0 (a + k)) as [x|] eqn:Hx;
      [|apply nth_error_None in Hx; lia].
    assert (Hx' : nth_error (st source) (a + k) = Some x)
      by (rewrite Hread by lia; exact Hx).
    assert (Hlt : (b + k < length (st dest))%nat) by lia.
    rewrite (transform_loop_step source dest a b n k st x Hx' Hlt) by lia.
    set (v := firstn (b + k) (st dest) ++ f x :: skipn (S (b + k)) (st dest)).
    destruct (IH (S k) (VectorTransform.update st dest v)) as (st' & H1 & H2 & H3).
    + lia.
    + rewrite update_same. subst v. rewrite assigned_length; lia.
    + intros j Hj. destruct (Nat.eq_dec source dest) as [E|E].
      * rewrite E, update_same. subst v.
        rewrite nth_error_assigned by (destruct (Hsafe E); lia).
        rewrite <- E. apply Hread. lia.
      * rewrite update_other by exact E. apply Hread. lia.
    + exists st'. split; [exact H1|]. split.
      * rewrite H2, update_same. subst v.
        replace (b + S k)%nat with (S (b + k)) by lia.
        replace (a + S k)%nat with (S (a + k)) by lia.
        rewrite (firstn_assigned (st dest) (b + k) (f x) Hlt).
        rewrite (skipn_assigned (st dest) (b + k) (S (b + k) + n) (f x) Hlt) by lia.
        rewrite (firstn_skipn_cons S0 (a + k) n x Hx).
        cbn [map]. rewrite <- app_assoc. cbn [app].
        replace (b + k + S n)%nat with (S (b + k) + n)%nat by lia. reflexivity.
      * intros r Hr. rewrite H3 by exact Hr. now apply update_other.
Qed.

(** Whatever the overlap of the two ranges, the loop is defined when they
    are inside the vectors; it changes [dest] only, keeps its length and
    changes no element outside the destination range. *)
Lemma transform_loop_defined (source dest : VectorTransform.ref) (a b : nat) :
  forall (n k : nat) (st : VectorTransform.store A),
    (a + k + n <= length (st source))%nat -> (b + k + n <= length (st dest))%nat ->
    (Z.of_nat (a + k + n) < 2 ^ 31)%Z -> (Z.of_nat (b + k + n) < 2 ^ 31)%Z ->
    exists st',
      VectorTransform.transform_loop f source (Z.of_nat a) dest (Z.of_nat b) n
        (Z.of_nat (a + k)) st = Some st'
      /\ length (st' dest) = length (st dest)
      /\ (forall j, (j < b + k \/ b + k + n <= j)%nat ->
                    nth_error (st' dest) j = nth_error (st dest) j)
      /\ forall r, r <> dest -> st' r = st r.
Proof.
  induction n as [|n IH]; intros k st HS HD Ha Hb.
  - exists st. cbn [VectorTransform.transform_loop]. auto.
  - destruct (nth_error (st source) (a + k)) as [x|] eqn:Hx;
      [|apply nth_error_None in Hx; lia].
    assert (Hlt : (b + k < length (st dest))%nat) by lia.
    rewrite (transform_loop_step source dest a b n k st x Hx Hlt) by lia.
    set (v := firstn (b + k) (st dest) ++ f x :: skipn (S (b + k)) (st dest)).
    assert (Hv : length v = length (st dest)) by (subst v; now apply assigned_length).
    destruct (IH (S k) (VectorTransform.update st dest v)) as (st' & H1 & H2 & H3 & H4).
    + destruct (Nat.eq_dec source dest) as [E|E].
      * rewrite E, update_same, Hv. rewrite E in HS. lia.
      * rewrite update_other by exact E. lia.
    + rewrite update_same, Hv. lia.
    + lia.
    + lia.
    + exists st'. split; [exact H1|].
      rewrite update_same in H2, H3.
      split; [lia|]. split.
      * intros j Hj. rewrite H3 by lia. subst v.
        apply nth_error_assigned; lia.
      * intros r Hr. rewrite H4 by exact Hr. now apply update_other.
Qed.

Lemma transform_range_in_range (st : VectorTransform.store A)
    (source dest : VectorTransform.ref) (sourceIdx destIdx count : Z) :
  (0 <= sourceIdx)%Z -> (0 <= destIdx)%Z -> (0 <= count)%Z ->
  (sourceIdx + count <= Z.of_nat (length (st source)))%Z ->
  (destIdx + count <= Z.of_nat (length (st dest)))%Z ->
  (Z.of_nat (length (st source)) < 2 ^ 31)%Z ->
  (Z.of_nat (length (st dest)) < 2 ^ 31)%Z ->
  exists st',
    VectorTransform.transform_range f st source sourceIdx dest destIdx count = Some st'
    /\ length (st' dest) = length (st dest)
    /\ (forall j, (j < Z.to_nat destIdx \/ Z.to_nat (destIdx + count) <= j)%nat ->
                  nth_error (st' dest) j = nth_error (st dest) j)
    /\ (forall r, r <> dest -> st' r = st r)
    /\ (source <> dest \/ (destIdx <= sourceIdx)%Z \/ (sourceIdx + count <= destIdx)%Z ->
        st' dest = firstn (Z.to_nat destIdx) (st dest)
                   ++ map f (firstn (Z.to_nat count)
                               (skipn (Z.to_nat sourceIdx) (st source)))
                   ++ skipn (Z.to_nat (destIdx + count)) (st dest)).
Proof.
  intros Hs Hd Hc Hsl Hdl Hsm Hdm. unfold VectorTransform.transform_range.
  destruct (Z_of_nat_complete sourceIdx Hs) as [a ->].
  destruct (Z_of_nat_complete destIdx Hd) as [b ->].
  destruct (Z_of_nat_complete count Hc) as [n ->].
  rewrite !in_int_nat, int_add_nat by lia. cbn [andb]. rewrite !Nat2Z.id.
  replace (Z.to_nat (Z.of_nat b + Z.of_nat n)) with (b + n)%nat by lia.
  destruct (transform_loop_defined source dest a b n 0 st) as (st' & H1 & H2 & H3 & H4);
    try lia.
  rewrite !Nat.add_0_r in *.
  exists st'. split; [exact H1|]. split; [exact H2|]. split; [exact H3|].
  split; [exact H4|].
  intros Hsafe.
  assert (Hs' : source = dest -> (b <= a)%nat \/ (a + n <= b)%nat).
  { intros E. destruct Hsafe as [Hne|[Hle|Hle]]; [contradiction|left; lia|right; lia]. }
  destruct (transform_loop_in_range source dest a b n (st source)
              ltac:(lia) ltac:(lia) ltac:(lia) Hs' n 0%nat st
              ltac:(lia) ltac:(lia) (fun _ _ => eq_refl)) as (st2 & G1 & G2 & _).
  replace (a + 0)%nat with a in G1, G2 by lia.
  replace (b + 0)%nat with b in G2 by lia.
  rewrite H1 in G1. injection G1 as <-. exact G2.
Qed.

(** A destination that is too short is indexed past its end. *)
Lemma transform_loop_short (source dest : VectorTransform.ref) (a b : nat) :
  forall (n k : nat) (st : VectorTransform.store A),
    (b + k <= length (st dest))%nat -> (length (st dest) < b + k + n)%nat ->
    VectorTransform.transform_loop f source (Z.of_nat a) dest (Z.of_nat b) n
      (Z.of_nat (a + k)) st = None.
Proof.
  induction n as [|n IH]; intros k st Hk Hd; [lia|].
  cbn [VectorTransform.transform_loop].
  destruct (VectorTransform.at_index (st source) (Z.of_nat (a + k))) as [x|]; [|reflexivity].
  destruct (VectorTransform.int_sub (Z.of_nat (a + k)) (Z.of_nat a)) as [d|] eqn:Ed;
    [|reflexivity].
  apply int_sub_inv in Ed.
  destruct (VectorTransform.int_add (Z.of_nat b) d) as [j|] eqn:Ej; [|reflexivity].
  apply int_add_inv in Ej.
  replace j with (Z.of_nat (b + k)) by lia.
  rewrite assign_index_nat.
  destruct (Nat.ltb_spec (b + k) (length (st dest))) as [Hlt|]; [|reflexivity].
  destruct (VectorTransform.int_add (Z.of_nat (a + k)) 1) as [i'|] eqn:Ei; [|reflexivity].
  apply int_add_inv in Ei.
  replace i' with (Z.of_nat (a + S k)) by lia.
  apply IH; rewrite update_same, assigned_length; lia.
Qed.

Lemma int_of_size_small (n : nat) :
  (Z.of_nat n < 2 ^ 31)%Z -> VectorTransform.int_of_size n = Z.of_nat n.
Proof.
  intros H. unfold VectorTransform.int_of_size.
  rewrite Z.mod_small; [lia|].
  change (2 ^ 32)%Z with (2 * 2 ^ 31)%Z. lia.
Qed.

(** The call on whole vectors, in place or into another vector. *)
Lemma transform_all_spec (st : VectorTransform.store A) (source dest : VectorTransform.ref) :
  (Z.of_nat (length (st source)) < 2 ^ 31)%Z ->
  (Z.of_nat (length (st dest)) < 2 ^ 31)%Z ->
  if (length (st source) <=? length (st dest))%nat
  then exists st',
         VectorTransform.transform_range f st source 0 dest 0
           (VectorTransform.int_of_size (length (st source))) = Some st'
         /\ st' dest = map f (st source) ++ skipn (length (st source)) (st dest)
         /\ forall r, r <> dest -> st' r = st r
  else VectorTransform.transform_range f st source 0 dest 0
         (VectorTransform.int_of_size (length (st source))) = None.
Proof.
  intros Hs Hd. rewrite int_of_size_small by exact Hs.
  destruct (Nat.leb_spec (length (st source)) (length (st dest))) as [H|H].
  - destruct (transform_range_in_range st source dest 0 0 (Z.of_nat (length (st source))))
      as (st' & H1 & _ & _ & H4 & H5); try lia.
    exists st'. split; [exact H1|]. split; [|exact H4].
    rewrite H5 by lia.
    cbn [Z.to_nat firstn skipn app]. rewrite Z.add_0_l, Nat2Z.id.
    now rewrite firstn_all.
  - unfold VectorTransform.transform_range.
    rewrite in_int_nat by exact Hs.
    change 0%Z with (Z.of_nat 0). rewrite int_add_nat by (cbn [Nat.add]; lia).
    cbn [VectorTransform.in_int Z.of_nat andb Z.leb Z.ltb Z.compare Z.opp Z.pow Z.pow_pos
         Pos.iter Z.mul Pos.mul]. rewrite Nat2Z.id.
    apply (transform_loop_short source dest 0 0 (length (st source)) 0 st); lia.
Qed.

Lemma transform_range_no_iteration (st : VectorTransform.store A)
    (source dest : VectorTransform.ref) (sourceIdx destIdx count : Z) :
  (0 <= sourceIdx < 2 ^ 31)%Z -> (0 <= destIdx < 2 ^ 31)%Z -> (- 2 ^ 31 <= count <= 0)%Z ->
  VectorTransform.transform_range f st source sourceIdx dest destIdx count = Some st.
Proof.
  intros Hs Hd Hc. unfold VectorTransform.transform_range, VectorTransform.int_add.
  rewrite !in_int_range by lia. cbn [andb].
  replace (Z.to_nat count) with 0%nat by lia. reflexivity.
Qed.

End Loop.

(** X30 (Transform and TransformNormal on std::vector).  [source] and
    [dest] are references to vectors of the caller and may name the same
    vector; the indices and the count are [int]s.  With the source range
    [sourceIdx, sourceIdx + count) inside [source] and the destination
    range [destIdx, destIdx + count) inside [dest], on vectors of fewer
    than 2^31 elements, the call is defined: it changes [dest] only and
    keeps its length and every element outside the destination range.
    When no element is read after it was written, that is when the two
    vectors are distinct, or the destination range starts at or before the
    source range, or after the end of it, the destination range receives
    the transformed elements of the source range as they were before the
    call, in order.  Otherwise the loop reads elements that it has already
    overwritten: on the vector (1,0,0), (0,1,0), (0,0,1) the in-place call
    Transform(v, 0, CreateScale(2), v, 1, 2) leaves (1,0,0), (2,0,0),
    (4,0,0).  The overloads without indices transform the whole of
    [source] into the front of [dest], in place when both name the same
    vector; they never grow [dest]: on a shorter [dest] they index past
    its end (undefined behaviour).  A count that is not positive changes
    nothing. *)
Theorem Transform_arrays
    (st : VectorTransform.store (Vector3 float32)) (source dest : VectorTransform.ref)
    (sourceIdx destIdx count : Z) (mat : Matrix float32)
    (st4 : VectorTransform.store (Vector4 float32)) (source4 dest4 : VectorTransform.ref)
    (q : Quaternion float32)
    (st2 : VectorTransform.store (Vector2 float32)) (source2 dest2 : VectorTransform.ref) :
  (0 <= sourceIdx)%Z -> (0 <= destIdx)%Z -> (0 <= count)%Z ->
  (sourceIdx + count <= Z.of_nat (length (st source)))%Z ->
  (destIdx + count <= Z.of_nat (length (st dest)))%Z ->
  (Z.of_nat (length (st source)) < 2 ^ 31)%Z ->
  (Z.of_nat (length (st dest)) < 2 ^ 31)%Z ->
  (Z.of_nat (length (st4 source4)) < 2 ^ 31)%Z ->
  (Z.of_nat (length (st4 dest4)) < 2 ^ 31)%Z ->
  (Z.of_nat (length (st2 source2)) < 2 ^ 31)%Z ->
  (Z.of_nat (length (st2 dest2)) < 2 ^ 31)%Z ->
  (exists st',
     VectorTransform.Vector3_Transform_range st source sourceIdx mat dest destIdx count
     = Some st'
     /\ length (st' dest) = length (st dest)
     /\ (forall j, (j < Z.to_nat destIdx \/ Z.to_nat (destIdx + count) <= j)%nat ->
                   nth_error (st' dest) j = nth_error (st dest) j)
     /\ (forall r, r <> dest -> st' r = st r)
     /\ (source <> dest \/ (destIdx <= sourceIdx)%Z \/ (sourceIdx + count <= destIdx)%Z ->
         st' dest = firstn (Z.to_nat destIdx) (st dest)
                    ++ map (fun v => Vector3.Transform v mat)
                         (firstn (Z.to_nat count) (skipn (Z.to_nat sourceIdx) (st source)))
                    ++ skipn (Z.to_nat (destIdx + count)) (st dest)))
  /\ (if (length (st source) <=? length (st dest))%nat
      then exists st',
             VectorTransform.Vector3_Transform_all st source mat dest = Some st'
             /\ st' dest = map (fun v => Vector3.Transform v mat) (st source)
                           ++ skipn (length (st source)) (st dest)
             /\ forall r, r <> dest -> st' r = st r
      else VectorTransform.Vector3_Transform_all st source mat dest = None)
  /\ (if (length (st4 source4) <=? length (st4 dest4))%nat
      then exists st',
             VectorTransform.Vector4_Transform_all st4 source4 q dest4 = Some st'
             /\ st' dest4 = map (fun v => VectorTransform.Vector4_Transform v q) (st4 source4)
                            ++ skipn (length (st4 source4)) (st4 dest4)
             /\ forall r, r <> dest4 -> st' r = st4 r
      else VectorTransform.Vector4_Transform_all st4 source4 q dest4 = None)
  /\ (if (length (st2 source2) <=? length (st2 dest2))%nat
      then exists st',
             VectorTransform.Vector2_TransformNormal_all st2 source2 mat dest2 = Some st'
             /\ st' dest2 = map (fun v => Vector2.TransformNormal v mat) (st2 source2)
                            ++ skipn (length (st2 source2)) (st2 dest2)
             /\ forall r, r <> dest2 -> st' r = st2 r
      else VectorTransform.Vector2_TransformNormal_all st2 source2 mat dest2 = None)
  /\ (forall c : Z, (- 2 ^ 31 <= c <= 0)%Z ->
      VectorTransform.Vector3_Transform_range st source sourceIdx mat dest destIdx c
      = Some st)
  /\ (exists st',
        VectorTransform.Vector3_Transform_range two_vectors 0%nat 0
          (Matrix.CreateScale (f32 2)) 0%nat 1 2 = Some st'
        /\ st' 0%nat = v3 1 0 0 :: v3 2 0 0 :: v3 4 0 0 :: nil).
Proof.
  intros Hs Hd Hc Hsl Hdl Hsm Hdm Hs4 Hd4 Hs2 Hd2.
  unfold VectorTransform.Vector3_Transform_all, VectorTransform.Vector4_Transform_all,
    VectorTransform.Vector2_TransformNormal_all, VectorTransform.Vector3_Transform_range,
    VectorTransform.Vector4_Transform_range, VectorTransform.Vector2_TransformNormal_range.
  split; [now apply transform_range_in_range|].
  split; [now apply transform_all_spec|].
  split; [now apply transform_all_spec|].
  split; [now apply transform_all_spec|].
  split; [intros c Hc0; apply transform_range_no_iteration; lia|].
  eexists. split; [vm_compute; reflexivity|]. vm_compute. reflexivity.
Qed.

Lemma Transform_arrays_witness :
  (exists st',
     VectorTransform.Vector3_Transform_range two_vectors 0%nat 1
       (Matrix.CreateScale (f32 2)) 1%nat 2 2
     = Some st'
     /\ length (st' 1%nat) = length (two_vectors 1%nat)
     /\ (forall j, (j < Z.to_nat 2 \/ Z.to_nat (2 + 2) <= j)%nat ->
                   nth_error (st' 1%nat) j = nth_error (two_vectors 1%nat) j)
     /\ (forall r, r <> 1%nat -> st' r = two_vectors r)
     /\ (0%nat <> 1%nat \/ (2 <= 1)%Z \/ (1 + 2 <= 2)%Z ->
         st' 1%nat = firstn (Z.to_nat 2) (two_vectors 1%nat)
                    ++ map (fun v => Vector3.Transform v (Matrix.CreateScale (f32 2)))
                         (firstn (Z.to_nat 2) (skipn (Z.to_nat 1) (two_vectors 0%nat)))
                    ++ skipn (Z.to_nat (2 + 2)) (two_vectors 1%nat)))
  /\ (if (length (two_vectors 0%nat) <=? length (two_vectors 1%nat))%nat
      then exists st',
             VectorTransform.Vector3_Transform_all two_vectors 0%nat
               (Matrix.CreateScale (f32 2)) 1%nat = Some st'
             /\ st' 1%nat = map (fun v => Vector3.Transform v (Matrix.CreateScale (f32 2)))
                               (two_vectors 0%nat)
                           ++ skipn (length (two_vectors 0%nat)) (two_vectors 1%nat)
             /\ forall r, r <> 1%nat -> st' r = two_vectors r
      else VectorTransform.Vector3_Transform_all two_vectors 0%nat
               (Matrix.CreateScale (f32 2)) 1%nat = None)
  /\ (if (length (two_vectors4 0%nat) <=? length (two_vectors4 1%nat))%nat
      then exists st',
             VectorTransform.Vector4_Transform_all two_vectors4 0%nat q_100 1%nat = Some st'
             /\ st' 1%nat = map (fun v => VectorTransform.Vector4_Transform v q_100)
                               (two_vectors4 0%nat)
                            ++ skipn (length (two_vectors4 0%nat)) (two_vectors4 1%nat)
             /\ forall r, r <> 1%nat -> st' r = two_vectors4 r
      else VectorTransform.Vector4_Transform_all two_vectors4 0%nat q_100 1%nat = None)
  /\ (if (length (two_vectors2 0%nat) <=? length (two_vectors2 1%nat))%nat
      then exists st',
             VectorTransform.Vector2_TransformNormal_all two_vectors2 0%nat
               (Matrix.CreateScale (f32 2)) 1%nat = Some st'
             /\ st' 1%nat = map (fun v => Vector2.TransformNormal v
                                             (Matrix.CreateScale (f32 2)))
                               (two_vectors2 0%nat)
                            ++ skipn (length (two_vectors2 0%nat)) (two_vectors2 1%nat)
             /\ forall r, r <> 1%nat -> st' r = two_vectors2 r
      else VectorTransform.Vector2_TransformNormal_all two_vectors2 0%nat
               (Matrix.CreateScale (f32 2)) 1%nat = None)
  /\ (forall c : Z, (- 2 ^ 31 <= c <= 0)%Z ->
      VectorTransform.Vector3_Transform_range two_vectors 0%nat 1
        (Matrix.CreateScale (f32 2)) 1%nat 2 c
      = Some two_vectors)
  /\ (exists st',
        VectorTransform.Vector3_Transform_range two_vectors 0%nat 0
          (Matrix.CreateScale (f32 2)) 0%nat 1 2 = Some st'
        /\ st' 0%nat = v3 1 0 0 :: v3 2 0 0 :: v3 4 0 0 :: nil).
Proof.
  apply (Transform_arrays two_vectors 0%nat 1%nat 1 2 2 (Matrix.CreateScale (f32 2))
           two_vectors4 0%nat 1%nat q_100 two_vectors2 0%nat 1%nat); simpl; lia.
Defined.
